(** * Passkey ceremony orchestrator

    A shallow embedding of the passkey (WebAuthn) provider of next-auth:

    - [providers/passkey.ts]            the provider configuration,
    - [lib/passkey/types.ts]            the cookie payload, and the switch-based
                                        options handler that file also carries,
    - [lib/routes/passkey-options.ts]   the if/else options handler,
    - [lib/passkey/verify.ts]           [verifyAuthentication], [verifyRegistration],
                                        and the option builders
                                        ([getUserAndAuthenticators],
                                        [authenticationOptions], [registrationOptions]).

    Asynchronous functions are modelled in a state-and-exception monad over a
    [World] that carries the adapter's storage, the logger's output, the
    source of randomness and the trace of adapter calls.  The collaborators
    the orchestrator does not implement (session route, cookie codec, ceremony
    library, error classes, runtime helpers) are the fields of the
    [Collaborators] class. *)

From Stdlib Require Import String Ascii List ZArith Bool Lia.
From Stdlib Require Import Strings.Byte DecimalString.
Import ListNotations.
Open Scope string_scope.

Set Implicit Arguments.
Local Set Warnings "-register-all".

(** ** JavaScript values

    [response] arrives as [unknown]; the verifiers inspect it with [typeof],
    [in] and property reads. *)

Inductive JsValue : Type :=
| JUndefined
| JNull
| JBool (b : bool)
| JNumber (n : Z)
| JString (s : string)
| JArray (items : list JsValue)
| JObject (fields : list (string * JsValue)).

(** [typeof v]; note [typeof null === "object"]. *)
Definition typeof (v : JsValue) : string :=
  match v with
  | JUndefined => "undefined"
  | JNull => "object"
  | JBool _ => "boolean"
  | JNumber _ => "number"
  | JString _ => "string"
  | JArray _ => "object"
  | JObject _ => "object"
  end.

Definition is_null (v : JsValue) : bool :=
  match v with JNull => true | _ => false end.

Fixpoint lookup_field (k : string) (fields : list (string * JsValue)) : option JsValue :=
  match fields with
  | [] => None
  | (k', v) :: rest => if String.eqb k k' then Some v else lookup_field k rest
  end.

(** [k in v] for a [v] that is an object and a key [k] that is neither an
    index nor a built-in member ("id" is the only key the source tests). *)
Definition has_property (k : string) (v : JsValue) : bool :=
  match v with
  | JObject fields => match lookup_field k fields with Some _ => true | None => false end
  | _ => false
  end.

(** ** Thrown values *)

Inductive Thrown : Type :=
| External (what : string)
| TypeError (msg : string)
| MissingAdapter (msg : string)
| MissingAdapterMethods (msg : string)
| WebAuthnVerificationError (cause : Thrown)
| WebAuthnVerificationErrorMsg (msg : string)
| AdapterError (cause : Thrown).

Inductive Result (A : Type) : Type :=
| Ok (a : A)
| Throw (e : Thrown).

Arguments Ok {A} a.
Arguments Throw {A} e.

(** [v.k] for the keys the source reads ("id", "response", "transports"):
    reading a property of [undefined] or [null] throws, a missing property
    reads as [undefined]. *)
Definition get_property (v : JsValue) (k : string) : Result JsValue :=
  match v with
  | JUndefined =>
      Throw (TypeError ("Cannot read properties of undefined (reading '" ++ k ++ "')"))
  | JNull =>
      Throw (TypeError ("Cannot read properties of null (reading '" ++ k ++ "')"))
  | JObject fields =>
      match lookup_field k fields with Some x => Ok x | None => Ok JUndefined end
  | _ => Ok JUndefined
  end.

(** JavaScript truthiness of an optional string: [undefined], [null] and the
    empty string are falsy. *)
Definition truthy (s : option string) : bool :=
  match s with
  | Some s => negb (String.eqb s "")
  | None => false
  end.

(** [!!x] for an object-or-nullish [x]. *)
Definition defined {A : Type} (x : option A) : bool :=
  match x with Some _ => true | None => false end.

(** [a ?? b] on optional values. *)
Definition nullish {A : Type} (a : option A) (b : option A) : option A :=
  match a with Some x => Some x | None => b end.

(** ** Data model *)

Definition Bytes := list Byte.byte.

(** [RelayingPartyConfig] of providers/passkey.ts. *)
Record RelayingPartyConfig : Type := {
  rp_name : string;
  rp_id : string;
  rp_origin : string
}.

(** [PasskeyConfig]: the members of [CommonProviderOptions] the orchestrator
    reads ([id], [name]), the [type] and the relaying party. *)
Record PasskeyConfig : Type := {
  provider_id : string;
  provider_name : string;
  provider_type : string;
  relayingParty : RelayingPartyConfig
}.

(** [PasskeyInputConfig = Pick<PasskeyConfig, "relayingParty"> & Partial<PasskeyConfig>]. *)
Record PasskeyInputConfig : Type := {
  in_id : option string;
  in_name : option string;
  in_type : option string;
  in_relayingParty : RelayingPartyConfig
}.

(** [Passkey(config)]: [{ id: "passkey", name: "Passkey", ...config, type: "passkey" }]. *)
Definition Passkey (config : PasskeyInputConfig) : PasskeyConfig :=
  {| provider_id := match in_id config with Some i => i | None => "passkey" end;
     provider_name := match in_name config with Some n => n | None => "Passkey" end;
     provider_type := "passkey";
     relayingParty := in_relayingParty config |}.

(** [AdapterUser]. *)
Record AdapterUser : Type := {
  user_id : string;
  user_name : option string;
  user_email : string;
  user_emailVerified : option Z
}.

(** [Account]. *)
Record Account : Type := {
  acc_userId : string;
  acc_type : string;
  acc_provider : string;
  acc_providerAccountId : string
}.

(** [AdapterAuthenticator] / [Authenticator]. *)
Record Authenticator : Type := {
  providerAccountId : string;
  counter : Z;
  credentialID : Bytes;
  credentialBackedUp : bool;
  credentialDeviceType : string;
  credentialPublicKey : Bytes;
  transports : JsValue
}.

(** [PasskeyOptionsCookieData] of types.ts. *)
Record PasskeyOptionsCookieData : Type := {
  challenge : string;
  cookie_providerAccountId : option string
}.

(** [UserData] of verify.ts. *)
Record UserData : Type := {
  user : AdapterUser;
  account : Account;
  authenticator : option Authenticator
}.

(** The verifiers return [UserData | string]. *)
Inductive VerifyResult : Type :=
| Verified (data : UserData)
| SoftError (msg : string).

(** A cookie as set on a response, and the cookies of a request. *)
Record Cookie : Type := {
  cookie_name : string;
  cookie_value : string
}.

Definition RequestCookies := list (string * string).
Definition SessionStore := list (string * string).

(** The session route's body: [currentSession?.user?.email]. *)
Record SessionUser : Type := { session_email : option string }.
Record Session : Type := { session_user : option SessionUser }.

Definition session_user_email (body : option Session) : option string :=
  match body with
  | Some s => match session_user s with
              | Some u => session_email u
              | None => None
              end
  | None => None
  end.

(** ** The ceremony library's interface (@simplewebauthn/server) *)

(** One entry of [allowCredentials] / [excludeCredentials]. *)
Record CredentialDescriptor : Type := {
  desc_id : Bytes;
  desc_type : string;
  desc_transports : JsValue
}.

Record GenerateAuthenticationOptionsArgs : Type := {
  ga_rpID : string;
  ga_allowCredentials : option (list CredentialDescriptor);
  ga_userVerification : string
}.

Record AuthenticatorSelection : Type := {
  residentKey : string;
  userVerification : string;
  requireResidentKey : bool
}.

Record GenerateRegistrationOptionsArgs : Type := {
  gr_userID : string;
  gr_userName : string;
  gr_userDisplayName : string;
  gr_rpID : string;
  gr_rpName : string;
  gr_excludeCredentials : option (list CredentialDescriptor);
  gr_authenticatorSelection : AuthenticatorSelection
}.

(** [PublicKeyCredentialRequestOptionsJSON]: the orchestrator reads only
    [challenge]; the rest is carried along untouched. *)
Record RequestOptionsJSON : Type := {
  req_challenge : string;
  req_rest : JsValue
}.

Record UserEntityJSON : Type := {
  ue_id : string;
  ue_name : string;
  ue_displayName : string
}.

(** [PublicKeyCredentialCreationOptionsJSON]: the orchestrator reads
    [challenge] and [user.id]. *)
Record CreationOptionsJSON : Type := {
  cre_challenge : string;
  cre_user : UserEntityJSON;
  cre_rest : JsValue
}.

Record VerifyAuthenticationArgs : Type := {
  va_response : JsValue;
  va_authenticator : Authenticator;
  va_expectedChallenge : string;
  va_expectedOrigin : string;
  va_expectedRPID : string;
  va_requireUserVerification : bool
}.

Record AuthenticationInfo : Type := { newCounter : Z }.

Record VerifiedAuthenticationResponse : Type := {
  auth_verified : bool;
  authenticationInfo : AuthenticationInfo
}.

Record VerifyRegistrationArgs : Type := {
  vr_response : JsValue;
  vr_expectedChallenge : string;
  vr_expectedOrigin : string;
  vr_expectedRPID : string;
  vr_requireUserVerification : bool
}.

Record RegistrationInfo : Type := {
  reg_counter : Z;
  reg_credentialID : Bytes;
  reg_credentialBackedUp : bool;
  reg_credentialDeviceType : string;
  reg_credentialPublicKey : Bytes
}.

Record VerifiedRegistrationResponse : Type := {
  reg_verified : bool;
  registrationInfo : option RegistrationInfo
}.

(** ** Responses of the options route *)

(** [PasskeyOptionsReturn]: the [action] member is the constructor. *)
Inductive PasskeyOptionsReturn : Type :=
| AuthenticateReturn (options : RequestOptionsJSON)
| RegisterReturn (options : CreationOptionsJSON).

Inductive ResponseBody : Type :=
| BodyText (msg : string)
| BodyOptions (r : PasskeyOptionsReturn).

(** [ResponseInternal]; [cookies] is absent on the error responses. *)
Record ResponseInternal : Type := {
  status : Z;
  body : ResponseBody;
  cookies : option (list Cookie)
}.

(** ** The adapter's methods, the logger and the world *)

Inductive AdapterMethod : Type :=
| GetUserByEmail
| ListLinkedAccounts
| ListAuthenticatorsByAccountId
| GetAuthenticator
| GetUserByAccount
| UpdateAuthenticatorCounter.

Definition method_name (m : AdapterMethod) : string :=
  match m with
  | GetUserByEmail => "getUserByEmail"
  | ListLinkedAccounts => "listLinkedAccounts"
  | ListAuthenticatorsByAccountId => "listAuthenticatorsByAccountId"
  | GetAuthenticator => "getAuthenticator"
  | GetUserByAccount => "getUserByAccount"
  | UpdateAuthenticatorCounter => "updateAuthenticatorCounter"
  end.

(** The only method among them that writes to storage. *)
Definition is_write (m : AdapterMethod) : bool :=
  match m with
  | UpdateAuthenticatorCounter => true
  | _ => false
  end.

Inductive LogEntry : Type :=
| LogDebug (msg : string) (meta : list (string * string))
| LogError (err : Thrown).

Definition is_error_entry (l : LogEntry) : bool :=
  match l with LogError _ => true | LogDebug _ _ => false end.

Section Model.

Context {S R : Type}.

(** What a request can observe and change: the adapter's storage [S], the
    randomness [R] the ceremony library and [randomString] draw from, what
    the logger received, and which adapter methods were called (latest
    last). *)
Record World : Type := {
  storage : S;
  entropy : R;
  logged : list LogEntry;
  calls : list AdapterMethod
}.

(** An awaited computation: it ends with a value or a thrown error, in a
    new world. *)
Definition M (A : Type) : Type := World -> Result A * World.

Definition ret {A : Type} (a : A) : M A := fun w => (Ok a, w).

Definition throw {A : Type} (e : Thrown) : M A := fun w => (Throw e, w).

Definition bind {A B : Type} (m : M A) (k : A -> M B) : M B :=
  fun w =>
    match m w with
    | (Ok a, w') => k a w'
    | (Throw e, w') => (Throw e, w')
    end.

(** [try { m } catch (e) { ... }]: the thrown value is handed to the
    continuation instead of propagating. *)
Definition attempt {A : Type} (m : M A) : M (Result A) :=
  fun w => let (r, w') := m w in (Ok r, w').

(** A collaborator that needs no state: its result or its exception. *)
Definition lift {A : Type} (r : Result A) : M A := fun w => (r, w).

(** A collaborator that draws randomness. *)
Definition draw {A : Type} (f : R -> Result A * R) : M A :=
  fun w =>
    let (r, e') := f (entropy w) in
    (r, {| storage := storage w; entropy := e'; logged := logged w; calls := calls w |}).

Definition log (l : LogEntry) : M unit :=
  fun w =>
    (Ok tt, {| storage := storage w; entropy := entropy w;
               logged := logged w ++ [l]; calls := calls w |}).

Definition record_call (m : AdapterMethod) (w : World) : World :=
  {| storage := storage w; entropy := entropy w;
     logged := logged w; calls := calls w ++ [m] |}.

Definition not_a_function {A : Type} (m : AdapterMethod) : M A :=
  throw (TypeError ("adapter." ++ method_name m ++ " is not a function")).

(** Calling a reading method of the adapter: a missing method is a
    [TypeError]; the call is recorded and leaves storage as it is. *)
Definition adapter_read {A : Type} (m : AdapterMethod)
    (f : option (S -> Result A)) : M A :=
  match f with
  | None => not_a_function m
  | Some g => fun w => (g (storage w), record_call m w)
  end.

(** Calling a writing method of the adapter: storage is whatever the method
    leaves, also when it throws. *)
Definition adapter_write {A : Type} (m : AdapterMethod)
    (f : option (S -> Result A * S)) : M A :=
  match f with
  | None => not_a_function m
  | Some g =>
      fun w =>
        let (r, s') := g (storage w) in
        (r, {| storage := s'; entropy := entropy w;
               logged := logged w; calls := calls w ++ [m] |})
  end.

(** [Adapter]: every method is optional (the interface is duck-typed). *)
Record Adapter : Type := {
  getUserByEmail : option (string -> S -> Result (option AdapterUser));
  listLinkedAccounts : option (string -> S -> Result (option (list Account)));
  listAuthenticatorsByAccountId :
    option (string -> S -> Result (option (list Authenticator)));
  getAuthenticator : option (Bytes -> S -> Result (option Authenticator));
  getUserByAccount : option (string -> string -> S -> Result (option AdapterUser));
  updateAuthenticatorCounter : option (Authenticator -> Z -> S -> Result unit * S)
}.

(** [method in adapter]. *)
Definition implements (a : Adapter) (m : AdapterMethod) : bool :=
  match m with
  | GetUserByEmail => defined (getUserByEmail a)
  | ListLinkedAccounts => defined (listLinkedAccounts a)
  | ListAuthenticatorsByAccountId => defined (listAuthenticatorsByAccountId a)
  | GetAuthenticator => defined (getAuthenticator a)
  | GetUserByAccount => defined (getUserByAccount a)
  | UpdateAuthenticatorCounter => defined (updateAuthenticatorCounter a)
  end.

(** [InternalOptions<PasskeyProviderType>]: the adapter, the provider, and
    the secret the cookie codec signs with.  The logger is the [logged]
    component of the world. *)
Record Options : Type := {
  adapter : option Adapter;
  provider : PasskeyConfig;
  secret : string
}.

(** The collaborators whose code is outside the orchestrator. *)
Class Collaborators : Type := {
  (** [routes/session]: the session route; it may read and write storage. *)
  routesSession : Options -> SessionStore -> M (option Session);
  (** [lib/cookie]: [signCookie(name, value, options)], first component. *)
  signCookie : string -> PasskeyOptionsCookieData -> string -> Result Cookie;
  (** [lib/cookie]: [decodeSignedCookie(name, cookies, options)], first
      component; [None] for a missing or invalid cookie. *)
  decodeSignedCookie :
    string -> RequestCookies -> string -> Result (option PasskeyOptionsCookieData);
  generateAuthenticationOptions :
    GenerateAuthenticationOptionsArgs -> R -> Result RequestOptionsJSON * R;
  generateRegistrationOptions :
    GenerateRegistrationOptionsArgs -> R -> Result CreationOptionsJSON * R;
  verifyAuthenticationResponse :
    VerifyAuthenticationArgs -> Result VerifiedAuthenticationResponse;
  verifyRegistrationResponse :
    VerifyRegistrationArgs -> Result VerifiedRegistrationResponse;
  (** [lib/web]: [randomString(size)]. *)
  randomString : nat -> R -> string * R;
  (** [new Uint8Array(Buffer.from(s, "base64"))]. *)
  bufferFromBase64 : string -> Bytes;
  (** [err.message] of an error object of [errors.ts]. *)
  errorMessage : Thrown -> string
}.

End Model.

Arguments World : clear implicits.
Arguments M : clear implicits.
Arguments Adapter : clear implicits.
Arguments Options : clear implicits.
Arguments Collaborators : clear implicits.

Declare Scope orchestrator_scope.
Delimit Scope orchestrator_scope with orch.
Notation "x <- m ;; k" := (bind m (fun x => k))
  (at level 61, m at next level, right associativity) : orchestrator_scope.
Notation "m ;; k" := (bind m (fun _ => k))
  (at level 61, right associativity) : orchestrator_scope.
Open Scope orchestrator_scope.

(** ** lib/passkey/verify.ts *)

Section Orchestrator.

Context {S R : Type} {C : Collaborators S R}.

Local Abbreviation M := (M S R).
Local Abbreviation Adapter := (Adapter S).
Local Abbreviation Options := (Options S).

(** Modelled from the spec: [assertAdapterImplementsMethods] of adapters.ts,
    which is not among the sources.  The spec has it fail fast with a
    configuration error when one of the methods an operation requires is
    not implemented by the adapter. *)
Definition assertAdapterImplementsMethods (prefix : string) (a : Adapter)
    (methods : list AdapterMethod) : M unit :=
  match filter (fun m => negb (implements a m)) methods with
  | [] => ret tt
  | missing =>
      throw (MissingAdapterMethods
               (prefix ++ ": " ++ String.concat ", " (map method_name missing)))
  end.

(** The basic response type check: [Some id] when [response] is a non-null
    object with a string [id], [None] when the check rejects it. *)
Definition response_id (response : JsValue) : option string :=
  if negb (String.eqb (typeof response) "object")
     || is_null response
     || negb (has_property "id" response)
  then None
  else match get_property response "id" with
       | Ok (JString s) => Some s
       | _ => None
       end.

Definition verifyAuthentication (options : Options) (reqCookies : RequestCookies)
    (response : JsValue) : M VerifyResult :=
  let provider := provider options in
  (* Validate that the adapter is defined and implements the required methods *)
  match adapter options with
  | None => throw (MissingAdapter "WebaAuthn verifyAuthentication requires an adapter.")
  | Some adapter =>
    assertAdapterImplementsMethods
      "WebaAuthn verifyAuthentication requires an adapter that implements"
      adapter [GetAuthenticator; GetUserByAccount; UpdateAuthenticatorCounter] ;;
    (* Basic response type check *)
    match response_id response with
    | None => ret (SoftError "Invalid response.")
    | Some id =>
      (* Get cookie with challenge *)
      cookie <- lift (decodeSignedCookie "challenge" reqCookies (secret options)) ;;
      match cookie with
      | None => ret (SoftError "Missing challenge cookie.")
      | Some cookie =>
        let expectedChallenge := challenge cookie in
        (* Get the authenticator from the database *)
        let uintID := bufferFromBase64 id in
        authenticator <- adapter_read GetAuthenticator
                           (option_map (fun f => f uintID) (getAuthenticator adapter)) ;;
        match authenticator with
        | None =>
            log (LogDebug "Authenticator not found." [("id", id)]) ;;
            ret (SoftError "Authenticator not found.")
        | Some authenticator =>
          (* Do the actual verification *)
          verification <- attempt (lift (verifyAuthenticationResponse
            {| va_response := response;
               va_authenticator := authenticator;
               va_expectedChallenge := expectedChallenge;
               va_expectedOrigin := rp_origin (relayingParty provider);
               va_expectedRPID := rp_id (relayingParty provider);
               va_requireUserVerification := true |})) ;;
          match verification with
          | Throw e =>
              let err := WebAuthnVerificationError e in
              log (LogError err) ;;
              ret (SoftError (errorMessage err))
          | Ok verification =>
            (* make sure the response is verified *)
            if negb (auth_verified verification)
            then ret (SoftError "Failed to verify response.")
            else
              (* Update the authenticator counter *)
              updated <- attempt (adapter_write UpdateAuthenticatorCounter
                           (option_map
                              (fun f => f authenticator
                                          (newCounter (authenticationInfo verification)))
                              (updateAuthenticatorCounter adapter))) ;;
              match updated with
              | Throw e => log (LogError (AdapterError e))
              | Ok _ => ret tt
              end ;;
              user <- adapter_read GetUserByAccount
                        (option_map
                           (fun f => f (provider_id provider)
                                       (providerAccountId authenticator))
                           (getUserByAccount adapter)) ;;
              match user with
              | None =>
                  log (LogDebug
                         ("User not found for account "
                            ++ providerAccountId authenticator
                            ++ ". This should not happen.")
                         [("provider", provider_id provider);
                          ("providerAccountId", providerAccountId authenticator)]) ;;
                  throw (WebAuthnVerificationErrorMsg
                           "User not found. See debug logs for more details.")
              | Some user =>
                  let account :=
                    {| acc_userId := user_id user;
                       acc_type := provider_type provider;
                       acc_provider := provider_id provider;
                       acc_providerAccountId := providerAccountId authenticator |} in
                  ret (Verified {| user := user; account := account;
                                   authenticator := None |})
              end
          end
        end
      end
    end
  end.

(** [email] arrives as [unknown]: a string or anything else. *)
Definition as_email (email : JsValue) : option string :=
  match email with JString s => Some s | _ => None end.

Definition verifyRegistration (options : Options) (reqCookies : RequestCookies)
    (response : JsValue) (email : JsValue) : M VerifyResult :=
  let provider := provider options in
  (* An email must be provided *)
  match as_email email with
  | None => ret (SoftError "Email is required for registration.")
  | Some email =>
    (* Basic response type check *)
    match response_id response with
    | None => ret (SoftError "Invalid response.")
    | Some _ =>
      (* Get cookie with challenge and user ID *)
      cookie <- lift (decodeSignedCookie "challenge" reqCookies (secret options)) ;;
      match cookie with
      | None => ret (SoftError "Missing challenge cookie.")
      | Some cookie =>
        (* Get the challenge and providerAccountId, and make sure the user ID exists *)
        let expectedChallenge := challenge cookie in
        match cookie_providerAccountId cookie with
        | None => ret (SoftError "Missing providerAccountId from challenge cookie.")
        | Some providerAccountId =>
          if negb (truthy (Some providerAccountId))
          then ret (SoftError "Missing providerAccountId from challenge cookie.")
          else
            (* Do the actual verification *)
            verification <- attempt (lift (verifyRegistrationResponse
              {| vr_response := response;
                 vr_expectedChallenge := expectedChallenge;
                 vr_expectedOrigin := rp_origin (relayingParty provider);
                 vr_expectedRPID := rp_id (relayingParty provider);
                 vr_requireUserVerification := true |})) ;;
            match verification with
            | Throw e =>
                let err := WebAuthnVerificationError e in
                log (LogError err) ;;
                ret (SoftError (errorMessage err))
            | Ok verification =>
              (* If not verified, return false *)
              match reg_verified verification, registrationInfo verification with
              | true, Some registrationInfo =>
                  let user :=
                    {| user_id := email; user_name := None;
                       user_email := email; user_emailVerified := None |} in
                  let account :=
                    {| acc_userId := user_id user;
                       acc_type := provider_type provider;
                       acc_provider := provider_id provider;
                       acc_providerAccountId := providerAccountId |} in
                  inner <- lift (get_property response "response") ;;
                  transports <- lift (get_property inner "transports") ;;
                  let authenticator :=
                    {| providerAccountId := providerAccountId;
                       counter := reg_counter registrationInfo;
                       credentialID := reg_credentialID registrationInfo;
                       credentialBackedUp := reg_credentialBackedUp registrationInfo;
                       credentialDeviceType := reg_credentialDeviceType registrationInfo;
                       credentialPublicKey := reg_credentialPublicKey registrationInfo;
                       transports := transports |} in
                  ret (Verified {| user := user; account := account;
                                   authenticator := Some authenticator |})
              | _, _ => ret (SoftError "Failed to verify response.")
              end
            end
        end
      end
    end
  end.

(** ** lib/passkey/options.ts (the second half of verify.ts) *)

Definition getUserAndAuthenticators (options : Options) (email : option string)
    : M (option (list Authenticator) * option AdapterUser) :=
  let provider := provider options in
  (* Validate that the adapter is defined and implements the required methods *)
  match adapter options with
  | None => throw (MissingAdapter "WebaAuthn getUserAndAuthenticators requires an adapter.")
  | Some adapter =>
    assertAdapterImplementsMethods
      "WebaAuthn getUserAndAuthenticators requires an adapter that implements"
      adapter [GetUserByEmail; ListLinkedAccounts; ListAuthenticatorsByAccountId] ;;
    (* Get the full user from the email *)
    user <- match email with
            | Some e =>
                if truthy email
                then adapter_read GetUserByEmail
                       (option_map (fun f => f e) (getUserByEmail adapter))
                else ret None
            | None => ret None
            end ;;
    (* Find the user's account associated with the provider *)
    accounts <- match user with
                | Some u =>
                    linked <- adapter_read ListLinkedAccounts
                                (option_map (fun f => f (user_id u))
                                   (listLinkedAccounts adapter)) ;;
                    ret (match linked with Some l => l | None => [] end)
                | None => ret []
                end ;;
    let account :=
      find (fun a => String.eqb (acc_provider a) (provider_id provider)) accounts in
    (* Find the account's authenticators *)
    authenticators <- match account with
                      | Some a =>
                          adapter_read ListAuthenticatorsByAccountId
                            (option_map (fun f => f (acc_providerAccountId a))
                               (listAuthenticatorsByAccountId adapter))
                      | None => ret None
                      end ;;
    ret (authenticators, user)
  end.

(** The descriptor both builders map an authenticator to. *)
Definition descriptor (a : Authenticator) : CredentialDescriptor :=
  {| desc_id := credentialID a;
     desc_type := "public-key";
     desc_transports := transports a |}.

Definition authenticationOptions (options : Options) (email : option string)
    : M RequestOptionsJSON :=
  let provider := provider options in
  (* Get the user's authenticators *)
  got <- getUserAndAuthenticators options email ;;
  let authenticators := fst got in
  (* Generate authentication options *)
  authOptions <- draw (generateAuthenticationOptions
    {| ga_rpID := rp_id (relayingParty provider);
       ga_allowCredentials := option_map (map descriptor) authenticators;
       ga_userVerification := "preferred" |}) ;;
  ret authOptions.

Definition registrationOptions (options : Options) (email : string)
    : M CreationOptionsJSON :=
  let provider := provider options in
  (* Get the user authenticators and user object *)
  got <- getUserAndAuthenticators options (Some email) ;;
  let authenticators := fst got in
  let user := snd got in
  (* Generate a random user ID and name if the user does not exist *)
  userID <- match user with
            | Some u => ret (user_id u)
            | None => draw (fun r => let (s, r') := randomString 32 r in (Ok s, r'))
            end ;;
  let userName :=
    match user with
    | Some u => match user_name u with Some n => n | None => user_email u end
    | None => email
    end in
  let userDisplayName :=
    match user with
    | Some u => match user_name u with Some n => n | None => userName end
    | None => userName
    end in
  (* Generate registration options *)
  regOptions <- draw (generateRegistrationOptions
    {| gr_userID := userID;
       gr_userName := userName;
       gr_userDisplayName := userDisplayName;
       gr_rpID := rp_id (relayingParty provider);
       gr_rpName := rp_name (relayingParty provider);
       gr_excludeCredentials := option_map (map descriptor) authenticators;
       gr_authenticatorSelection :=
         {| residentKey := "preferred";
            userVerification := "preferred";
            requireResidentKey := true |} |}) ;;
  ret regOptions.

(** [adapter?.getUserByEmail(queryEmail)]: [undefined] without an adapter. *)
Definition optional_getUserByEmail (options : Options) (queryEmail : string)
    : M (option AdapterUser) :=
  match adapter options with
  | None => ret None
  | Some adapter =>
      adapter_read GetUserByEmail
        (option_map (fun f => f queryEmail) (getUserByEmail adapter))
  end.

(** [x as string] where the source asserts [x] is defined. *)
Definition as_string (x : option string) : string :=
  match x with Some s => s | None => "" end.

End Orchestrator.

(** ** lib/routes/passkey-options.ts: the if/else handler *)

Module Routes.
Section Handler.

Context {S R : Type} {C : Collaborators S R}.

Definition passkeyOptions (options : Options S) (sessionStore : SessionStore)
    (action : option string) (queryEmail : option string) : M S R ResponseInternal :=
  (* Get the current session, if it exists *)
  currentSession <- routesSession options sessionStore ;;
  let sessionUserEmail := session_user_email currentSession in
  (* Ignore the email parameter if the user is logged in *)
  let email := nullish sessionUserEmail queryEmail in
  (* If the user did not provide an explicit action,
     we need to figure out what they want to do. *)
  selected <-
    (if negb (truthy action) then
       if negb (truthy sessionUserEmail) then
         if truthy queryEmail then
           (* The user is not logged in and provided an email *)
           user <- optional_getUserByEmail options (as_string queryEmail) ;;
           if defined user
           then ret (inl "authenticate")
           else ret (inl "register")
         else
           (* The user is not logged in and did not provide an email *)
           ret (inr {| status := 400; body := BodyText "email is required to register";
                       cookies := None |})
       else
         if truthy queryEmail then
           (* The user is logged in and provided an email *)
           ret (inl "register")
         else
           (* The user is logged in and did not provide an email *)
           ret (inr {| status := 400;
                       body := BodyText "email is required to register a new passkey";
                       cookies := None |})
     else ret (inl (as_string action))) ;;
  match selected with
  | inr early => ret early
  | inl selectedAction =>
    if String.eqb selectedAction "authenticate" then
      (* Get auth options *)
      authOptions <- authenticationOptions options email ;;
      (* Set the cookie *)
      let cookieData :=
        {| challenge := req_challenge authOptions;
           cookie_providerAccountId := None |} in
      cookie <- lift (signCookie "challenge" cookieData (secret options)) ;;
      (* Return the options and set the challenge cookie *)
      ret {| status := 200;
             body := BodyOptions (AuthenticateReturn authOptions);
             cookies := Some [cookie] |}
    else if String.eqb selectedAction "register" then
      if negb (truthy email) then
        ret {| status := 400; body := BodyText "email is required for registration";
               cookies := None |}
      else
        regOptions <- registrationOptions options (as_string email) ;;
        (* Set the cookie *)
        let cookieData :=
          {| challenge := cre_challenge regOptions;
             cookie_providerAccountId := Some (ue_id (cre_user regOptions)) |} in
        cookie <- lift (signCookie "challenge" cookieData (secret options)) ;;
        (* Return the options and set the challenge cookie *)
        ret {| status := 200;
               body := BodyOptions (RegisterReturn regOptions);
               cookies := Some [cookie] |}
    else
      ret {| status := 400; body := BodyText "invalid action"; cookies := None |}
  end.

End Handler.
End Routes.

(** ** lib/passkey/types.ts: [doRegister], [doAuthenticate] and the
    switch-based handler *)

Module Types.
Section Handler.

Context {S R : Type} {C : Collaborators S R}.

(** Generate passkey registration options and set the challenge cookie. *)
Definition doRegister (options : Options S) (email : string) : M S R ResponseInternal :=
  (* Get registration options *)
  regOptions <- registrationOptions options email ;;
  (* Set the cookie *)
  let cookieData :=
    {| challenge := cre_challenge regOptions;
       cookie_providerAccountId := Some (ue_id (cre_user regOptions)) |} in
  cookie <- lift (signCookie "challenge" cookieData (secret options)) ;;
  (* Return the options and set the challenge cookie *)
  ret {| status := 200;
         body := BodyOptions (RegisterReturn regOptions);
         cookies := Some [cookie] |}.

(** Generate passkey authentication options and set the challenge cookie. *)
Definition doAuthenticate (options : Options S) (email : option string)
    : M S R ResponseInternal :=
  (* Get auth options *)
  authOptions <- authenticationOptions options email ;;
  (* Set the cookie *)
  let cookieData :=
    {| challenge := req_challenge authOptions;
       cookie_providerAccountId := None |} in
  cookie <- lift (signCookie "challenge" cookieData (secret options)) ;;
  (* Return the options and set the challenge cookie *)
  ret {| status := 200;
         body := BodyOptions (AuthenticateReturn authOptions);
         cookies := Some [cookie] |}.

Definition invalid_combination : ResponseInternal :=
  {| status := 400; body := BodyText "Invalid action/email combination";
     cookies := None |}.

Definition passkeyOptions (options : Options S) (sessionStore : SessionStore)
    (action : option string) (queryEmail : option string) : M S R ResponseInternal :=
  let selectedAction := action in
  (* Get the current session, if it exists *)
  currentSession <- routesSession options sessionStore ;;
  let sessionUserEmail := session_user_email currentSession in
  let loggedIn := truthy sessionUserEmail in
  let providedQueryEmail := truthy queryEmail in
  (* Find whether a user with queryEmail exists *)
  userWithEmailExists <-
    (if providedQueryEmail then
       existingUser <- optional_getUserByEmail options (as_string queryEmail) ;;
       ret (defined existingUser)
     else ret false) ;;
  match selectedAction with
  | Some a =>
      if String.eqb a "authenticate" then
        if negb loggedIn
        then doAuthenticate options queryEmail
        else ret invalid_combination
      else if String.eqb a "register" then
        if negb (Bool.eqb loggedIn providedQueryEmail) && negb userWithEmailExists
        then doRegister options (as_string (nullish sessionUserEmail queryEmail))
        else ret invalid_combination
      else ret invalid_combination
  | None =>
      if negb loggedIn then
        if Bool.eqb providedQueryEmail userWithEmailExists
        then doAuthenticate options queryEmail
        else doRegister options (as_string queryEmail)
      else ret invalid_combination
  end.

End Handler.
End Types.

(** ** A reference adapter over in-memory storage

    Modelled from the spec: the Adapter, "CRUD over Users, Accounts,
    Authenticators, keyed by email, account id, or credential id", whose
    implementations are not among the sources. *)

Module SpecAdapter.

Record Storage : Type := {
  users : list AdapterUser;
  accounts : list Account;
  authenticators : list Authenticator
}.

Fixpoint bytes_eqb (a b : Bytes) : bool :=
  match a, b with
  | [], [] => true
  | x :: a', y :: b' => Byte.eqb x y && bytes_eqb a' b'
  | _, _ => false
  end.

Definition getUserByEmail (email : string) (s : Storage) : Result (option AdapterUser) :=
  Ok (find (fun u => String.eqb (user_email u) email) (users s)).

Definition listLinkedAccounts (userId : string) (s : Storage)
    : Result (option (list Account)) :=
  Ok (Some (filter (fun a => String.eqb (acc_userId a) userId) (accounts s))).

Definition listAuthenticatorsByAccountId (pid : string) (s : Storage)
    : Result (option (list Authenticator)) :=
  Ok (Some (filter (fun a => String.eqb (providerAccountId a) pid) (authenticators s))).

Definition getAuthenticator (credential : Bytes) (s : Storage)
    : Result (option Authenticator) :=
  Ok (find (fun a => bytes_eqb (credentialID a) credential) (authenticators s)).

Definition getUserByAccount (provider pid : string) (s : Storage)
    : Result (option AdapterUser) :=
  match find (fun a => String.eqb (acc_provider a) provider
                       && String.eqb (acc_providerAccountId a) pid) (accounts s) with
  | Some a => Ok (find (fun u => String.eqb (user_id u) (acc_userId a)) (users s))
  | None => Ok None
  end.

Definition with_counter (a : Authenticator) (c : Z) : Authenticator :=
  {| providerAccountId := providerAccountId a;
     counter := c;
     credentialID := credentialID a;
     credentialBackedUp := credentialBackedUp a;
     credentialDeviceType := credentialDeviceType a;
     credentialPublicKey := credentialPublicKey a;
     transports := transports a |}.

Definition set_counter (credential : Bytes) (c : Z) (s : Storage) : Storage :=
  {| users := users s;
     accounts := accounts s;
     authenticators :=
       map (fun a => if bytes_eqb (credentialID a) credential
                     then with_counter a c else a)
           (authenticators s) |}.

Definition counter_rejected : Thrown :=
  External "updateAuthenticatorCounter: the counter did not increase".

Definition unknown_authenticator : Thrown :=
  External "updateAuthenticatorCounter: no such authenticator".

(** Modelled from the spec: the adapter's [updateAuthenticatorCounter], whose
    code is not among the sources.  The spec has the adapter reject a counter
    update that does not strictly increase, the check being made against the
    stored counter, atomically with the write (sections 4.3 and 5). *)
Definition updateAuthenticatorCounter (a : Authenticator) (newCounter : Z)
    (s : Storage) : Result unit * Storage :=
  match find (fun x => bytes_eqb (credentialID x) (credentialID a)) (authenticators s) with
  | None => (Throw unknown_authenticator, s)
  | Some stored =>
      if (counter stored <? newCounter)%Z
      then (Ok tt, set_counter (credentialID a) newCounter s)
      else (Throw counter_rejected, s)
  end.

Definition reference : Adapter Storage :=
  Build_Adapter
    (Some getUserByEmail)
    (Some listLinkedAccounts)
    (Some listAuthenticatorsByAccountId)
    (Some getAuthenticator)
    (Some getUserByAccount)
    (Some updateAuthenticatorCounter).

(** The stored counter of a credential. *)
Definition stored_counter (credential : Bytes) (s : Storage) : option Z :=
  option_map counter
    (find (fun x => bytes_eqb (credentialID x) credential) (authenticators s)).

End SpecAdapter.

(** ** A concrete set of collaborators

    Small deterministic stand-ins for the session route, the cookie codec,
    the ceremony library and the runtime helpers, over the reference
    adapter's storage and a counter as the source of randomness.  They are
    what the examples below run on. *)

Module Demo.

Import SpecAdapter.

Definition nat_string (n : nat) : string :=
  DecimalString.NilEmpty.string_of_uint (Nat.to_uint n).

(** The session store holds the signed-in user's email under "session". *)
Definition routesSession (_ : Options Storage) (store : SessionStore)
    : M Storage nat (option Session) :=
  match find (fun kv => String.eqb (fst kv) "session") store with
  | Some (_, email) =>
      ret (Some {| session_user := Some {| session_email := Some email |} |})
  | None => ret None
  end.

(** The cookie value is [secret|challenge|providerAccountId]. *)
Definition signCookie (name : string) (data : PasskeyOptionsCookieData)
    (secret : string) : Result Cookie :=
  Ok {| cookie_name := name;
        cookie_value :=
          secret ++ "|" ++ challenge data ++ "|"
                 ++ match cookie_providerAccountId data with
                    | Some p => p
                    | None => ""
                    end |}.

Fixpoint split_bar (s : string) (cur : string) : list string :=
  match s with
  | EmptyString => [cur]
  | String c rest =>
      if Ascii.eqb c "|"%char
      then cur :: split_bar rest ""
      else split_bar rest (cur ++ String c "")
  end.

Definition decodeSignedCookie (name : string) (reqCookies : RequestCookies)
    (secret : string) : Result (option PasskeyOptionsCookieData) :=
  match find (fun kv => String.eqb (fst kv) name) reqCookies with
  | Some (_, value) =>
      match split_bar value "" with
      | [sec; ch; pid] =>
          if String.eqb sec secret
          then Ok (Some {| challenge := ch;
                           cookie_providerAccountId :=
                             if String.eqb pid "" then None else Some pid |})
          else Ok None
      | _ => Ok None
      end
  | None => Ok None
  end.

Definition generateAuthenticationOptions (args : GenerateAuthenticationOptionsArgs)
    (seed : nat) : Result RequestOptionsJSON * nat :=
  (Ok {| req_challenge := "challenge-" ++ nat_string seed;
         req_rest := JObject [("rpId", JString (ga_rpID args))] |},
   Datatypes.S seed).

Definition generateRegistrationOptions (args : GenerateRegistrationOptionsArgs)
    (seed : nat) : Result CreationOptionsJSON * nat :=
  (Ok {| cre_challenge := "challenge-" ++ nat_string seed;
         cre_user := {| ue_id := gr_userID args;
                        ue_name := gr_userName args;
                        ue_displayName := gr_userDisplayName args |};
         cre_rest := JObject [("rpId", JString (gr_rpID args))] |},
   Datatypes.S seed).

Definition string_field (v : JsValue) (k : string) : option string :=
  match get_property v k with
  | Ok (JString s) => Some s
  | _ => None
  end.

Definition number_field (v : JsValue) (k : string) : option Z :=
  match get_property v k with
  | Ok (JNumber n) => Some n
  | _ => None
  end.

(** The client's answer carries, under [response], the challenge and origin
    it signed and the counter it reports; a response without that member
    makes the library throw. *)
Definition verifyAuthenticationResponse (args : VerifyAuthenticationArgs)
    : Result VerifiedAuthenticationResponse :=
  match get_property (va_response args) "response" with
  | Ok (JObject fields) =>
      let inner := JObject fields in
      match string_field inner "challenge", string_field inner "origin",
            number_field inner "counter" with
      | Some ch, Some origin, Some n =>
          Ok {| auth_verified :=
                  String.eqb ch (va_expectedChallenge args)
                  && String.eqb origin (va_expectedOrigin args);
                authenticationInfo := {| newCounter := n |} |}
      | _, _, _ => Throw (External "malformed authenticator response")
      end
  | _ => Throw (External "missing authenticator response")
  end.

Definition bufferFromBase64 (s : string) : Bytes := list_byte_of_string s.

Definition verifyRegistrationResponse (args : VerifyRegistrationArgs)
    : Result VerifiedRegistrationResponse :=
  match get_property (vr_response args) "response" with
  | Ok (JObject fields) =>
      let inner := JObject fields in
      match string_field inner "challenge", string_field inner "origin",
            string_field (vr_response args) "id" with
      | Some ch, Some origin, Some credential =>
          if String.eqb ch (vr_expectedChallenge args)
             && String.eqb origin (vr_expectedOrigin args)
          then Ok {| reg_verified := true;
                     registrationInfo :=
                       Some {| reg_counter := 0;
                               reg_credentialID := bufferFromBase64 credential;
                               reg_credentialBackedUp := false;
                               reg_credentialDeviceType := "singleDevice";
                               reg_credentialPublicKey := [x01; x02; x03] |} |}
          else Ok {| reg_verified := false; registrationInfo := None |}
      | _, _, _ => Throw (External "malformed attestation response")
      end
  | _ => Throw (External "missing attestation response")
  end.

Definition randomString (size : nat) (seed : nat) : string * nat :=
  ("generated-" ++ nat_string seed, Datatypes.S seed).

Fixpoint errorMessage (e : Thrown) : string :=
  match e with
  | External what => what
  | TypeError msg => msg
  | MissingAdapter msg => msg
  | MissingAdapterMethods msg => msg
  | WebAuthnVerificationError cause => errorMessage cause
  | WebAuthnVerificationErrorMsg msg => msg
  | AdapterError cause => errorMessage cause
  end.

#[export] Instance collaborators : Collaborators Storage nat :=
  Build_Collaborators
    routesSession signCookie decodeSignedCookie
    generateAuthenticationOptions generateRegistrationOptions
    verifyAuthenticationResponse verifyRegistrationResponse
    randomString bufferFromBase64 errorMessage.

(** *** Fixtures *)

Definition rp : RelayingPartyConfig :=
  {| rp_name := "Example"; rp_id := "example.com"; rp_origin := "https://example.com" |}.

Definition default_config : PasskeyInputConfig :=
  {| in_id := None; in_name := None; in_type := None; in_relayingParty := rp |}.

Definition renamed_config : PasskeyInputConfig :=
  {| in_id := Some "webauthn"; in_name := None; in_type := None;
     in_relayingParty := rp |}.

Definition options_with (a : option (Adapter Storage)) (c : PasskeyInputConfig)
    : Options Storage :=
  Build_Options a (Passkey c) "s3cret".

Definition options0 : Options Storage :=
  options_with (Some SpecAdapter.reference) default_config.

Definition alice : AdapterUser :=
  {| user_id := "user-1"; user_name := None; user_email := "exists@x.com";
     user_emailVerified := None |}.

Definition alice_account : Account :=
  {| acc_userId := "user-1"; acc_type := "passkey"; acc_provider := "passkey";
     acc_providerAccountId := "acct-1" |}.

Definition credential_C : Bytes := bufferFromBase64 "cred-C".

Definition authenticator_C (c : Z) : Authenticator :=
  {| providerAccountId := "acct-1";
     counter := c;
     credentialID := credential_C;
     credentialBackedUp := false;
     credentialDeviceType := "singleDevice";
     credentialPublicKey := [x01; x02; x03];
     transports := JArray [JString "internal"] |}.

(** Alice, her passkey account and one authenticator whose counter is [c]. *)
Definition storage_with_counter (c : Z) : Storage :=
  {| users := [alice]; accounts := [alice_account];
     authenticators := [authenticator_C c] |}.

Definition world_of (s : Storage) : World Storage nat :=
  {| storage := s; entropy := 0; logged := []; calls := [] |}.

Definition world0 : World Storage nat := world_of (storage_with_counter 5).

(** The client's answer to an authentication ceremony for credential C. *)
Definition assertion (ch : string) (origin : string) (n : Z) : JsValue :=
  JObject [("id", JString "cred-C");
           ("response", JObject [("challenge", JString ch);
                                 ("origin", JString origin);
                                 ("counter", JNumber n)])].

(** The client's answer to a registration ceremony. *)
Definition attestation (ch : string) (origin : string) : JsValue :=
  JObject [("id", JString "cred-N");
           ("response", JObject [("challenge", JString ch);
                                 ("origin", JString origin);
                                 ("transports", JArray [JString "usb"])])].

Definition challenge_cookie (ch pid : string) : RequestCookies :=
  [("challenge", "s3cret|" ++ ch ++ "|" ++ pid)].

(** An adapter that cannot update counters. *)
Definition read_only : Adapter Storage :=
  Build_Adapter
    (Some SpecAdapter.getUserByEmail)
    (Some SpecAdapter.listLinkedAccounts)
    (Some SpecAdapter.listAuthenticatorsByAccountId)
    (Some SpecAdapter.getAuthenticator)
    (Some SpecAdapter.getUserByAccount)
    None.

(** An adapter that stores whatever counter it is given. *)
Definition overwrite_counter (a : Authenticator) (c : Z) (s : Storage)
    : Result unit * Storage :=
  (Ok tt, set_counter (credentialID a) c s).

Definition unchecked : Adapter Storage :=
  Build_Adapter
    (Some SpecAdapter.getUserByEmail)
    (Some SpecAdapter.listLinkedAccounts)
    (Some SpecAdapter.listAuthenticatorsByAccountId)
    (Some SpecAdapter.getAuthenticator)
    (Some SpecAdapter.getUserByAccount)
    (Some overwrite_counter).

Definition origin : string := "https://example.com".

(** The payload of the challenge cookie of an authentication ceremony. *)
Definition cookie_c1 : PasskeyOptionsCookieData :=
  {| challenge := "c1"; cookie_providerAccountId := None |}.

(** What the library answers for a verified assertion reporting counter [n]. *)
Definition verified_with (n : Z) : VerifiedAuthenticationResponse :=
  {| auth_verified := true; authenticationInfo := {| newCounter := n |} |}.

(** The authenticator a verified registration of "cred-N" yields. *)
Definition new_authenticator : Authenticator :=
  {| providerAccountId := "gen-1";
     counter := 0;
     credentialID := bufferFromBase64 "cred-N";
     credentialBackedUp := false;
     credentialDeviceType := "singleDevice";
     credentialPublicKey := [x01; x02; x03];
     transports := JArray [JString "usb"] |}.

Definition descriptor_C : CredentialDescriptor :=
  {| desc_id := credential_C; desc_type := "public-key";
     desc_transports := JArray [JString "internal"] |}.

(** Storage in which the authenticator's account and user are gone. *)
Definition orphan_storage : Storage :=
  {| users := []; accounts := []; authenticators := [authenticator_C 5] |}.

End Demo.

(** ** lib/passkey/browser-script.js

    The client-side script.  What it does to the page and the network is
    recorded as a list of events; [fetch], the two ceremonies of
    @simplewebauthn/browser and [JSON.stringify] are the fields of [Api]. *)

Module Browser.

(** A [FormData] value: a string or a file. *)
Inductive FormValue : Type :=
| FormString (s : string)
| FormFile (name : string).

(** The passkey form: its [action] URL, the value of its [email] control
    when it has one, and the entries [new FormData(form)] yields. *)
Record Form : Type := {
  form_action : string;
  form_email : option string;
  form_entries : list (string * FormValue)
}.

(** A member of the JSON payload: a form value, or the [data] handed in. *)
Inductive PayloadValue : Type :=
| FromForm (v : FormValue)
| FromData (v : JsValue).

(** An object as its own properties, each key once. *)
Definition Payload := list (string * PayloadValue).

(** [o[k] = v]. *)
Fixpoint set_property (k : string) (v : PayloadValue) (o : Payload) : Payload :=
  match o with
  | [] => [(k, v)]
  | (k', v') :: rest =>
      if String.eqb k k' then (k, v) :: rest else (k', v') :: set_property k v rest
  end.

Fixpoint property (k : string) (o : Payload) : option PayloadValue :=
  match o with
  | [] => None
  | (k', v) :: rest => if String.eqb k k' then Some v else property k rest
  end.

(** [Object.fromEntries(entries)]: later entries overwrite earlier ones.
    (The enumeration order of integer-like keys is not modelled.) *)
Definition fromEntries (entries : list (string * FormValue)) : Payload :=
  fold_left (fun o kv => set_property (fst kv) (FromForm (snd kv)) o) entries [].

(** The value of the last entry named [k]. *)
Definition last_value (k : string) (entries : list (string * FormValue))
    : option FormValue :=
  option_map snd (find (fun kv => String.eqb (fst kv) k) (rev entries)).

(** A request handed to [fetch]: the URL, the parameters the script appended
    to its query, and for a request with a body the payload that is
    stringified into it. *)
Record Request : Type := {
  rq_method : string;
  rq_url : string;
  rq_query : list (string * string);
  rq_body : option Payload
}.

(** What was thrown: an [Error] the script made, or a value thrown by the
    platform or a collaborator. *)
Inductive Raised : Type :=
| JsError (message : string)
| Foreign (t : Thrown).

Inductive Outcome (A : Type) : Type :=
| Returned (a : A)
| Raise (e : Raised).

Arguments Returned {A} a.
Arguments Raise {A} e.

(** The [Response] of a [fetch]. *)
Record FetchResponse : Type := {
  rs_ok : bool;
  rs_status : Z;
  rs_statusText : string;
  rs_text : string;
  rs_json : Outcome JsValue
}.

Inductive Event : Type :=
| Fetched (r : Request)
| StartedAuthentication (options : JsValue) (autofill : bool)
| StartedRegistration (options : JsValue)
| ConsoleError (message : string + Raised).

(** The platform.  [parses s] tells whether [new URL(s)] succeeds; each of
    the other calls may depend on what happened before. *)
Class Api : Type := {
  parses : string -> bool;
  fetch : Request -> list Event -> Outcome FetchResponse;
  startAuthentication : JsValue -> bool -> list Event -> Outcome JsValue;
  startRegistration : JsValue -> list Event -> Outcome JsValue;
  stringify : JsValue -> string
}.

(** Truthiness of a JavaScript value. *)
Definition js_truthy (v : JsValue) : bool :=
  match v with
  | JUndefined => false
  | JNull => false
  | JBool b => b
  | JNumber n => negb (Z.eqb n 0)
  | JString s => negb (String.eqb s "")
  | JArray _ => true
  | JObject _ => true
  end.

(** A template literal's rendering of an optional string, a boolean and a
    number. *)
Definition show_optional (s : option string) : string :=
  match s with Some s => s | None => "undefined" end.

(** [s] between double quotes. *)
Definition quoted (s : string) : string :=
  String (Ascii.ascii_of_nat 34) (s ++ String (Ascii.ascii_of_nat 34) EmptyString).

Definition show_bool (b : bool) : string := if b then "true" else "false".

Definition show_number (n : Z) : string :=
  DecimalString.NilZero.string_of_int (Z.to_int n).

Section Script.

Context {api : Api}.

(** An awaited computation of the script, over the events so far. *)
Definition B (A : Type) : Type := list Event -> Outcome A * list Event.

Definition ret {A : Type} (a : A) : B A := fun t => (Returned a, t).

Definition raise {A : Type} (e : Raised) : B A := fun t => (Raise e, t).

Definition bind {A B' : Type} (m : B A) (k : A -> B B') : B B' :=
  fun t =>
    match m t with
    | (Returned a, t') => k a t'
    | (Raise e, t') => (Raise e, t')
    end.

(** [try { m } catch (e) { ... }]. *)
Definition attempt {A : Type} (m : B A) : B (Outcome A) :=
  fun t => let (r, t') := m t in (Returned r, t').

Definition settle {A : Type} (r : Outcome A) : B A := fun t => (r, t).

Definition emit (e : Event) : B unit := fun t => (Returned tt, (t ++ [e])%list).

Definition call_fetch (r : Request) : B FetchResponse :=
  fun t => (fetch r t, (t ++ [Fetched r])%list).

Definition call_startAuthentication (options : JsValue) (autofill : bool) : B JsValue :=
  fun t => (startAuthentication options autofill t,
            (t ++ [StartedAuthentication options autofill])%list).

Definition call_startRegistration (options : JsValue) : B JsValue :=
  fun t => (startRegistration options t, (t ++ [StartedRegistration options])%list).

(** [new URL(s)]: a TypeError when [s] does not parse (its message is the
    platform's). *)
Definition new_URL (s : string) : B string :=
  if parses s then ret s else raise (Foreign (TypeError "Invalid URL")).

(** [v.k] for a [v] the script has found truthy. *)
Definition read (v : JsValue) (k : string) : B JsValue :=
  match get_property v k with
  | Ok x => ret x
  | Throw e => raise (Foreign e)
  end.

Local Notation "x <- m ;; k" := (bind m (fun x => k))
  (at level 61, m at next level, right associativity).
Local Notation "m ;; k" := (bind m (fun _ => k))
  (at level 61, right associativity).

(** [displayError]: it builds a URL with the message and stops there, the
    assignment to [window.location.search] being commented out.  (What is
    thrown is an object, see [Raised], so reading its [message] does not
    throw.) *)
Definition displayError (message : string + Raised) : B unit := ret tt.

Definition fetchOptions (baseURL : string) (action email : option string)
    : B JsValue :=
  (* Create the options URL with the action and email query parameters *)
  url <- new_URL (baseURL ++ "/options") ;;
  let query :=
    ((if truthy action then [("action", as_string action)] else [])
       ++ (if truthy email then [("email", as_string email)] else []))%list in
  res <- call_fetch {| rq_method := "GET"; rq_url := url;
                       rq_query := query; rq_body := None |} ;;
  if negb (rs_ok res) then
    displayError (inl (if String.eqb (rs_text res) "" then rs_statusText res
                       else rs_text res)) ;;
    ret JUndefined
  else settle (rs_json res).

Definition getForm (document : option Form) : B Form :=
  match document with
  | Some form => ret form
  | None => raise (JsError "Form not found")
  end.

Definition string_entries (entries : list (string * FormValue))
    : list (string * string) :=
  flat_map (fun kv => match snd kv with
                      | FormString s => [(fst kv, s)]
                      | FormFile _ => []
                      end) entries.

Definition submitForm (document : option Form) (method action : string)
    (data : JsValue) : B FetchResponse :=
  form <- getForm document ;;
  (* Create a FormData object from the form and append the action *)
  url <- new_URL (form_action form) ;;
  let formData := (form_entries form ++ [("action", FormString action)])%list in
  if String.eqb method "GET" then
    (* Add form data to URL, then the data *)
    let query :=
      (string_entries formData
         ++ (if js_truthy data then [("data", stringify data)] else []))%list in
    call_fetch {| rq_method := "GET"; rq_url := url;
                  rq_query := query; rq_body := None |}
  else
    (* Create a JSON object from the form data *)
    let bodyJSON := fromEntries formData in
    (* Create the payload and add the data if provided *)
    let payload :=
      if js_truthy data then set_property "data" (FromData data) bodyJSON
      else bodyJSON in
    call_fetch {| rq_method := method; rq_url := url;
                  rq_query := []; rq_body := Some payload |}.

Definition authenticationFlow (document : option Form) (options : JsValue)
    (autofill : bool) : B unit :=
  (* Get email from form *)
  form <- getForm document ;;
  let email := form_email form in
  (* Start authentication *)
  authResp <- call_startAuthentication options autofill ;;
  (* Submit authentication response to server *)
  res <- submitForm document "POST" "authenticate" authResp ;;
  if negb (rs_ok res) then
    raise (JsError
             ("Failed to submit authentication response. email: "
                ++ quoted (show_optional email)
                ++ ", autofill: " ++ quoted (show_bool autofill)
                ++ ", status: " ++ quoted (show_number (rs_status res))
                ++ ", error: " ++ quoted (rs_text res)))
  else ret tt.

Definition registrationFlow (document : option Form) (options : JsValue) : B unit :=
  (* Get email from form *)
  form <- getForm document ;;
  let email := form_email form in
  if negb (truthy email) then raise (JsError "Register email not provided")
  else
    (* Start registration *)
    regResp <- call_startRegistration options ;;
    (* Submit registration response to server *)
    res <- submitForm document "POST" "register" regResp ;;
    if negb (rs_ok res) then
      raise (JsError
               ("Failed to submit registration response. email: "
                  ++ quoted (show_optional email)
                  ++ ", status: " ++ quoted (show_number (rs_status res))
                  ++ ", error: " ++ quoted (rs_text res)))
    else ret tt.

(** [try { await flow } catch (e) { console.error(e); displayError(e) }]. *)
Definition guarded (flow : B unit) : B unit :=
  r <- attempt flow ;;
  match r with
  | Returned _ => ret tt
  | Raise e => emit (ConsoleError (inr e)) ;; displayError (inr e)
  end.

Definition autofillAuthentication (baseURL : string) (document : option Form)
    : B unit :=
  res <- fetchOptions baseURL (Some "authenticate") None ;;
  if negb (js_truthy res) then
    emit (ConsoleError (inl "Failed to fetch option for autofill authentication"))
  else
    guarded (options <- read res "options" ;;
             authenticationFlow document options true).

(** The submit handler [setupForm] installs on [form]. *)
Definition onSubmit (baseURL : string) (form : Form) (document : option Form)
    : B unit :=
  (* Fetch options from the server without assuming that the user is registered *)
  email <- match form_email form with
           | Some value => ret value
           | None =>
               raise (Foreign (TypeError
                        "Cannot read properties of undefined (reading 'value')"))
           end ;;
  res <- fetchOptions baseURL None (Some email) ;;
  if negb (js_truthy res) then
    emit (ConsoleError (inl "Failed to fetch options for form submission"))
  else
    (* Then execute the appropriate flow *)
    action <- read res "action" ;;
    match action with
    | JString a =>
        if String.eqb a "authenticate" then
          guarded (options <- read res "options" ;;
                   authenticationFlow document options false)
        else if String.eqb a "register" then
          guarded (options <- read res "options" ;;
                   registrationFlow document options)
        else ret tt
    | _ => ret tt
    end.

End Script.

End Browser.

(** ** Vocabulary of the statements *)

Section Vocabulary.

Context {S R : Type} {C : Collaborators S R}.

(** [response] is an object with a string [id]. *)
Definition object_with_string_id (response : JsValue) : Prop :=
  exists fields s,
    response = JObject fields /\ lookup_field "id" fields = Some (JString s).

(** The arguments [verifyAuthentication] hands to the ceremony library. *)
Definition library_authentication_args (options : Options S) (response : JsValue)
    (au : Authenticator) (ck : PasskeyOptionsCookieData) : VerifyAuthenticationArgs :=
  {| va_response := response;
     va_authenticator := au;
     va_expectedChallenge := challenge ck;
     va_expectedOrigin := rp_origin (relayingParty (provider options));
     va_expectedRPID := rp_id (relayingParty (provider options));
     va_requireUserVerification := true |}.

(** The arguments [verifyRegistration] hands to the ceremony library. *)
Definition library_registration_args (options : Options S) (response : JsValue)
    (ck : PasskeyOptionsCookieData) : VerifyRegistrationArgs :=
  {| vr_response := response;
     vr_expectedChallenge := challenge ck;
     vr_expectedOrigin := rp_origin (relayingParty (provider options));
     vr_expectedRPID := rp_id (relayingParty (provider options));
     vr_requireUserVerification := true |}.

(** The adapter of [options] is [a], and [a] has the three methods
    [verifyAuthentication] requires. *)
Definition capable (options : Options S) (a : Adapter S)
    (gA : Bytes -> S -> Result (option Authenticator))
    (gU : string -> string -> S -> Result (option AdapterUser))
    (upd : Authenticator -> Z -> S -> Result unit * S) : Prop :=
  adapter options = Some a /\
  getAuthenticator a = Some gA /\
  getUserByAccount a = Some gU /\
  updateAuthenticatorCounter a = Some upd.

(** The request passes the shape check, carries a valid challenge cookie
    [ck], and its credential id is that of the stored authenticator [au]. *)
Definition reaches_library (options : Options S) (reqCookies : RequestCookies)
    (response : JsValue) (w : World S R)
    (gA : Bytes -> S -> Result (option Authenticator))
    (ck : PasskeyOptionsCookieData) (au : Authenticator) : Prop :=
  exists rid,
    response_id response = Some rid /\
    decodeSignedCookie "challenge" reqCookies (secret options) = Ok (Some ck) /\
    gA (bufferFromBase64 rid) (storage w) = Ok (Some au).

(** The account [verifyAuthentication] returns for user [u]. *)
Definition account_of (options : Options S) (u : AdapterUser) (au : Authenticator)
    : Account :=
  {| acc_userId := user_id u;
     acc_type := provider_type (provider options);
     acc_provider := provider_id (provider options);
     acc_providerAccountId := providerAccountId au |}.

(** What the logger receives from the counter update. *)
Definition update_log (r : Result unit) : list LogEntry :=
  match r with
  | Ok _ => []
  | Throw e => [LogError (AdapterError e)]
  end.

(** [options] with another adapter. *)
Definition set_adapter (options : Options S) (a : option (Adapter S)) : Options S :=
  {| adapter := a; provider := provider options; secret := secret options |}.

End Vocabulary.

Section HandlerVocabulary.

Context {S R : Type} {C : Collaborators S R}.

(** The payload the spec has the issuer package into the signed cookie:
    [{challenge, providerAccountId: generatedUserId}] for a registration,
    [{challenge}] for an authentication. *)
Definition issued_cookie_data (r : PasskeyOptionsReturn) : PasskeyOptionsCookieData :=
  match r with
  | AuthenticateReturn authOptions =>
      {| challenge := req_challenge authOptions; cookie_providerAccountId := None |}
  | RegisterReturn regOptions =>
      {| challenge := cre_challenge regOptions;
         cookie_providerAccountId := Some (ue_id (cre_user regOptions)) |}
  end.

(** A response that issues options carries exactly one cookie, the signed
    payload of those options; an error response carries none. *)
Definition carries_challenge (options : Options S) (resp : ResponseInternal) : Prop :=
  match body resp with
  | BodyOptions r =>
      status resp = 200%Z /\
      exists cookie,
        cookies resp = Some [cookie] /\
        signCookie "challenge" (issued_cookie_data r) (secret options) = Ok cookie
  | BodyText _ => cookies resp = None
  end.

(** The 400 response of the handlers. *)
Definition bad_request (msg : string) : ResponseInternal :=
  {| status := 400; body := BodyText msg; cookies := None |}.

(** The register branch of the if/else handler: registration for the
    effective email, or an error when there is none. *)
Definition register_branch (options : Options S) (email : option string)
    : M S R ResponseInternal :=
  if truthy email
  then Types.doRegister options (as_string email)
  else ret (bad_request "email is required for registration").

(** The adapter of [options] is [a], and [a] has the three methods the
    options builders require. *)
Definition capable_of_options (options : Options S) (a : Adapter S)
    (gE : string -> S -> Result (option AdapterUser))
    (lL : string -> S -> Result (option (list Account)))
    (lA : string -> S -> Result (option (list Authenticator))) : Prop :=
  adapter options = Some a /\
  getUserByEmail a = Some gE /\
  listLinkedAccounts a = Some lL /\
  listAuthenticatorsByAccountId a = Some lA.

(** The account of [options]' provider among a user's linked accounts. *)
Definition provider_account (options : Options S) (linked : option (list Account))
    : option Account :=
  find (fun a => String.eqb (acc_provider a) (provider_id (provider options)))
       (match linked with Some l => l | None => [] end).

(** [email] is supplied, belongs to user [u], and [u]'s account with the
    provider has the authenticators [auths] in storage [s]. *)
Definition account_authenticators (options : Options S)
    (gE : string -> S -> Result (option AdapterUser))
    (lL : string -> S -> Result (option (list Account)))
    (lA : string -> S -> Result (option (list Authenticator)))
    (email : option string) (s : S) (u : AdapterUser) (auths : list Authenticator)
    : Prop :=
  exists e linked acct,
    email = Some e /\ e <> "" /\
    gE e s = Ok (Some u) /\
    lL (user_id u) s = Ok linked /\
    provider_account options linked = Some acct /\
    lA (acc_providerAccountId acct) s = Ok (Some auths).

(** An [allowCredentials] that lists no credential leaves the ceremony open
    to any credential. *)
Definition unrestricted (allow : option (list CredentialDescriptor)) : Prop :=
  allow = None \/ allow = Some [].

(** The descriptor [d] names the credential of the authenticator [a]: its
    id, the type "public-key" and its transports. *)
Definition describes (d : CredentialDescriptor) (a : Authenticator) : Prop :=
  desc_id d = credentialID a /\
  desc_type d = "public-key" /\
  desc_transports d = transports a.

(** The credential list [l] handed to the library names the authenticators
    [ao], one descriptor each and in their order; it is absent exactly when
    they are. *)
Definition lists_credentials (l : option (list CredentialDescriptor))
    (ao : option (list Authenticator)) : Prop :=
  match l, ao with
  | Some descs, Some auths => Forall2 describes descs auths
  | None, None => True
  | _, _ => False
  end.

End HandlerVocabulary.

(** ** The decision table of the spec (section 4.1) *)

Inductive Resolution : Type :=
| ResolveAuthenticate
| ResolveRegister
| ResolveError (msg : option string).

Definition is_action (explicit : option string) (a : string) : bool :=
  match explicit with
  | Some x => String.eqb x a
  | None => false
  end.

(** The rows of the table that apply to an input, in the table's order; an
    error row without a fixed message is [ResolveError None]. *)
Definition decision_table (loggedIn given emailExists : bool)
    (explicit : option string) : list Resolution :=
  (if negb loggedIn && negb given
   then [ResolveError (Some "email is required to register")] else [])
  ++ (if negb loggedIn && given
         && negb (is_action explicit "authenticate" && negb emailExists)
         && negb (is_action explicit "register" && emailExists)
      then [if emailExists then ResolveAuthenticate else ResolveRegister] else [])
  ++ (if negb loggedIn && given && is_action explicit "authenticate" && negb emailExists
      then [ResolveError None] else [])
  ++ (if negb loggedIn && given && is_action explicit "register" && emailExists
      then [ResolveError None] else [])
  ++ (if loggedIn && negb given
      then [ResolveError (Some "email is required to register a new passkey")] else [])
  ++ (if loggedIn && given then [ResolveRegister] else [])
  ++ (if loggedIn && is_action explicit "authenticate"
      then [ResolveError None] else []).

(** What a handler did, read off its result. *)
Inductive Outcome : Type :=
| DidAuthenticate
| DidRegister
| DidFail (msg : string)
| DidThrow (e : Thrown).

Definition outcome (r : Result ResponseInternal) : Outcome :=
  match r with
  | Ok resp =>
      match body resp with
      | BodyOptions (AuthenticateReturn _) => DidAuthenticate
      | BodyOptions (RegisterReturn _) => DidRegister
      | BodyText msg => DidFail msg
      end
  | Throw e => DidThrow e
  end.

Definition agrees (o : Outcome) (r : Resolution) : bool :=
  match o, r with
  | DidAuthenticate, ResolveAuthenticate => true
  | DidRegister, ResolveRegister => true
  | DidFail msg, ResolveError (Some expected) => String.eqb msg expected
  | DidFail _, ResolveError None => true
  | _, _ => false
  end.

(** ** Vocabulary of the further properties *)

Section FurtherVocabulary.

Context {S R : Type} {C : Collaborators S R}.

(** The request cookies of a client that sends back the cookies a response
    set. *)
Definition returned_cookies (resp : ResponseInternal) : RequestCookies :=
  match cookies resp with
  | Some l => map (fun c => (cookie_name c, cookie_value c)) l
  | None => []
  end.

(** A computation that leaves storage and the log as they are, whatever it
    returns or throws. *)
Definition reads_only {A : Type} (m : M S R A) : Prop :=
  forall w, storage (snd (m w)) = storage w /\ logged (snd (m w)) = logged w.

(** The two shapes of a handler's response: options with status 200, or a
    message with status 400 and no cookie. *)
Definition response_shape (resp : ResponseInternal) : Prop :=
  match body resp with
  | BodyOptions _ => status resp = 200%Z /\ exists cookie, cookies resp = Some [cookie]
  | BodyText _ => status resp = 400%Z /\ cookies resp = None
  end.

(** The codec reads back the payload [data] from the cookie it signed for
    it. *)
Definition codec_reads_back (options : Options S) (data : PasskeyOptionsCookieData)
    : Prop :=
  forall cookie,
    signCookie "challenge" data (secret options) = Ok cookie ->
    decodeSignedCookie "challenge" [(cookie_name cookie, cookie_value cookie)]
      (secret options) = Ok (Some data).

(** Every response [m] returns satisfies [P]. *)
Definition returns_only (P : ResponseInternal -> Prop) (m : M S R ResponseInternal)
    : Prop :=
  forall w resp w', m w = (Ok resp, w') -> P resp.

End FurtherVocabulary.

(** ** Further fixtures *)

Module Scenario.

Import SpecAdapter.

(** A lookup that fails, as a database that is down would. *)
Definition unreachable (id : Bytes) (s : Storage) : Result (option Authenticator) :=
  Throw (External "database unreachable").

(** The reference adapter over a database whose authenticators cannot be
    read. *)
Definition failing_lookup : Adapter Storage :=
  Build_Adapter
    (Some SpecAdapter.getUserByEmail)
    (Some SpecAdapter.listLinkedAccounts)
    (Some SpecAdapter.listAuthenticatorsByAccountId)
    (Some unreachable)
    (Some SpecAdapter.getUserByAccount)
    (Some SpecAdapter.updateAuthenticatorCounter).

(** An adapter that cannot look a user up by email. *)
Definition no_email_lookup : Adapter Storage :=
  Build_Adapter
    None
    (Some SpecAdapter.listLinkedAccounts)
    (Some SpecAdapter.listAuthenticatorsByAccountId)
    (Some SpecAdapter.getAuthenticator)
    (Some SpecAdapter.getUserByAccount)
    (Some SpecAdapter.updateAuthenticatorCounter).

(** The session store of a caller signed in as Alice. *)
Definition alice_session : SessionStore := [("session", "exists@x.com")].

(** A ceremony library whose options show the credential list it was
    given, as the real one's [allowCredentials] and [excludeCredentials]
    do. *)
Definition credentials_json (l : option (list CredentialDescriptor)) : JsValue :=
  match l with
  | Some descs =>
      JArray (map (fun d => JObject [("id", JString (string_of_list_byte (desc_id d)));
                                     ("type", JString (desc_type d));
                                     ("transports", desc_transports d)]) descs)
  | None => JUndefined
  end.

Definition generateAuthenticationOptions (args : GenerateAuthenticationOptionsArgs)
    (seed : nat) : Result RequestOptionsJSON * nat :=
  (Ok {| req_challenge := "challenge-" ++ Demo.nat_string seed;
         req_rest := JObject [("rpId", JString (ga_rpID args));
                              ("allowCredentials",
                               credentials_json (ga_allowCredentials args));
                              ("userVerification",
                               JString (ga_userVerification args))] |},
   Datatypes.S seed).

Definition generateRegistrationOptions (args : GenerateRegistrationOptionsArgs)
    (seed : nat) : Result CreationOptionsJSON * nat :=
  let selection := gr_authenticatorSelection args in
  (Ok {| cre_challenge := "challenge-" ++ Demo.nat_string seed;
         cre_user := {| ue_id := gr_userID args;
                        ue_name := gr_userName args;
                        ue_displayName := gr_userDisplayName args |};
         cre_rest := JObject [("rpId", JString (gr_rpID args));
                              ("excludeCredentials",
                               credentials_json (gr_excludeCredentials args));
                              ("residentKey", JString (residentKey selection));
                              ("userVerification",
                               JString (userVerification selection));
                              ("requireResidentKey",
                               JBool (requireResidentKey selection))] |},
   Datatypes.S seed).

Definition echoing : Collaborators Storage nat :=
  Build_Collaborators
    Demo.routesSession Demo.signCookie Demo.decodeSignedCookie
    generateAuthenticationOptions generateRegistrationOptions
    Demo.verifyAuthenticationResponse Demo.verifyRegistrationResponse
    Demo.randomString Demo.bufferFromBase64 Demo.errorMessage.

End Scenario.


(** * Properties *)

Section AssertLemmas.

Context {S R : Type} {C : Collaborators S R}.

Lemma filter_missing_nil (a : Adapter S) (ms : list AdapterMethod) :
  forallb (implements a) ms = true ->
  filter (fun m => negb (implements a m)) ms = [].
Proof.
  induction ms as [|m ms IH]; simpl; intros H; [reflexivity|].
  apply andb_true_iff in H as [Hm Hms].
  rewrite Hm; simpl. now apply IH.
Qed.

Lemma filter_missing_cons (a : Adapter S) (ms : list AdapterMethod) :
  forallb (implements a) ms = false ->
  exists m rest, filter (fun m => negb (implements a m)) ms = m :: rest.
Proof.
  induction ms as [|m ms IH]; simpl; intros H; [discriminate|].
  destruct (implements a m) eqn:Hm; simpl in *.
  - now apply IH.
  - eauto.
Qed.

Lemma assert_implemented (prefix : string) (a : Adapter S) (ms : list AdapterMethod)
    (w : World S R) :
  forallb (implements a) ms = true ->
  assertAdapterImplementsMethods prefix a ms w = (Ok tt, w).
Proof.
  intros H. unfold assertAdapterImplementsMethods.
  now rewrite (filter_missing_nil a ms H).
Qed.

Lemma assert_not_implemented (prefix : string) (a : Adapter S)
    (ms : list AdapterMethod) (w : World S R) :
  forallb (implements a) ms = false ->
  exists msg,
    assertAdapterImplementsMethods prefix a ms w = (Throw (MissingAdapterMethods msg), w).
Proof.
  intros H. unfold assertAdapterImplementsMethods.
  destruct (filter_missing_cons a ms H) as (m & rest & ->).
  eexists. reflexivity.
Qed.

End AssertLemmas.

Section VerifyAuthentication.

Context {S R : Type} {C : Collaborators S R}.

Ltac run_world :=
  unfold bind, ret, throw, attempt, lift, log, record_call; simpl;
  rewrite <- ?app_assoc; simpl; rewrite ?app_nil_r; try reflexivity.

Lemma capable_asserted options a gA gU upd prefix (w : World S R) :
  capable options a gA gU upd ->
  assertAdapterImplementsMethods prefix a
    [GetAuthenticator; GetUserByAccount; UpdateAuthenticatorCounter] w = (Ok tt, w).
Proof.
  intros (_ & HA & HU & HP). apply assert_implemented.
  simpl. now rewrite HA, HU, HP.
Qed.

Lemma verifyAuthentication_library_throws
    options reqCookies response w a gA gU upd ck au e :
  capable options a gA gU upd ->
  reaches_library options reqCookies response w gA ck au ->
  verifyAuthenticationResponse (library_authentication_args options response au ck)
    = Throw e ->
  verifyAuthentication options reqCookies response w =
    (Ok (SoftError (errorMessage (WebAuthnVerificationError e))),
     {| storage := storage w; entropy := entropy w;
        logged := logged w ++ [LogError (WebAuthnVerificationError e)];
        calls := calls w ++ [GetAuthenticator] |}).
Proof.
  intros Hcap (rid & Hid & Hck & Hau) Hlib.
  unfold verifyAuthentication.
  pose proof Hcap as (Ha & HA & HU & HP). rewrite Ha.
  unfold bind at 1. rewrite (capable_asserted _ _ Hcap).
  rewrite Hid. unfold bind at 1, lift at 1. rewrite Hck.
  unfold bind at 1. rewrite HA. simpl. rewrite Hau.
  unfold bind at 1, attempt, lift.
  unfold library_authentication_args in Hlib. rewrite Hlib.
  reflexivity.
Qed.

Lemma verifyAuthentication_not_verified
    options reqCookies response w a gA gU upd ck au v :
  capable options a gA gU upd ->
  reaches_library options reqCookies response w gA ck au ->
  verifyAuthenticationResponse (library_authentication_args options response au ck)
    = Ok v ->
  auth_verified v = false ->
  verifyAuthentication options reqCookies response w =
    (Ok (SoftError "Failed to verify response."),
     {| storage := storage w; entropy := entropy w; logged := logged w;
        calls := calls w ++ [GetAuthenticator] |}).
Proof.
  intros Hcap (rid & Hid & Hck & Hau) Hlib Hv.
  unfold verifyAuthentication.
  pose proof Hcap as (Ha & HA & HU & HP). rewrite Ha.
  unfold bind at 1. rewrite (capable_asserted _ _ Hcap).
  rewrite Hid. unfold bind at 1, lift at 1. rewrite Hck.
  unfold bind at 1. rewrite HA. simpl. rewrite Hau.
  unfold bind at 1, attempt, lift.
  unfold library_authentication_args in Hlib. rewrite Hlib, Hv.
  reflexivity.
Qed.

(** After the library reports [verified], the counter update runs, its
    failure is logged, and the owning user is looked up in the storage the
    update left. *)
Lemma verifyAuthentication_verified
    options reqCookies response w a gA gU upd ck au v :
  capable options a gA gU upd ->
  reaches_library options reqCookies response w gA ck au ->
  verifyAuthenticationResponse (library_authentication_args options response au ck)
    = Ok v ->
  auth_verified v = true ->
  let r := fst (upd au (newCounter (authenticationInfo v)) (storage w)) in
  let s' := snd (upd au (newCounter (authenticationInfo v)) (storage w)) in
  let trace := [GetAuthenticator; UpdateAuthenticatorCounter; GetUserByAccount] in
  verifyAuthentication options reqCookies response w =
    match gU (provider_id (provider options)) (providerAccountId au) s' with
    | Ok (Some u) =>
        (Ok (Verified {| user := u; account := account_of options u au;
                         authenticator := None |}),
         {| storage := s'; entropy := entropy w;
            logged := logged w ++ update_log r;
            calls := calls w ++ trace |})
    | Ok None =>
        (Throw (WebAuthnVerificationErrorMsg
                  "User not found. See debug logs for more details."),
         {| storage := s'; entropy := entropy w;
            logged := (logged w ++ update_log r)
                        ++ [LogDebug
                              ("User not found for account "
                                 ++ providerAccountId au
                                 ++ ". This should not happen.")
                              [("provider", provider_id (provider options));
                               ("providerAccountId", providerAccountId au)]];
            calls := calls w ++ trace |})
    | Throw e =>
        (Throw e,
         {| storage := s'; entropy := entropy w;
            logged := logged w ++ update_log r;
            calls := calls w ++ trace |})
    end.
Proof.
  intros Hcap (rid & Hid & Hck & Hau) Hlib Hv.
  unfold verifyAuthentication.
  pose proof Hcap as (Ha & HA & HU & HP). rewrite Ha.
  unfold bind at 1. rewrite (capable_asserted _ _ Hcap).
  rewrite Hid. unfold bind at 1, lift at 1. rewrite Hck.
  unfold bind at 1. rewrite HA. simpl. rewrite Hau.
  unfold bind at 1, attempt, lift.
  unfold library_authentication_args in Hlib. rewrite Hlib, Hv. simpl.
  rewrite HP, HU. simpl. unfold bind, attempt. simpl.
  destruct (upd au (newCounter (authenticationInfo v)) (storage w)) as [r s'].
  simpl.
  destruct r as [[]|e]; simpl;
    destruct (gU _ _ s') as [[u|]|e']; run_world.
Qed.

Lemma response_id_some (response : JsValue) (rid : string) :
  response_id response = Some rid <->
  exists fields,
    response = JObject fields /\ lookup_field "id" fields = Some (JString rid).
Proof.
  unfold response_id. split.
  - destruct response as [| | | | |items|fields]; simpl; try discriminate.
    destruct (lookup_field "id" fields) as [v|] eqn:E; simpl; try discriminate.
    destruct v; try discriminate. intros [= ->]. eauto.
  - intros (fields & -> & E). simpl. now rewrite E.
Qed.

Lemma response_id_none (response : JsValue) :
  response_id response = None <-> ~ object_with_string_id response.
Proof.
  split.
  - intros E (fields & s & -> & L).
    assert (H : response_id (JObject fields) = Some s)
      by (apply response_id_some; eauto).
    congruence.
  - intros N. destruct (response_id response) as [rid|] eqn:E; [|reflexivity].
    exfalso. apply N. apply response_id_some in E as (fields & -> & L).
    exists fields, rid. auto.
Qed.

Lemma verifyAuthentication_no_adapter options reqCookies response (w : World S R) :
  adapter options = None ->
  verifyAuthentication options reqCookies response w =
    (Throw (MissingAdapter "WebaAuthn verifyAuthentication requires an adapter."), w).
Proof. intros H. unfold verifyAuthentication. now rewrite H. Qed.

Lemma verifyAuthentication_incapable options reqCookies response (w : World S R) a m :
  adapter options = Some a ->
  In m [GetAuthenticator; GetUserByAccount; UpdateAuthenticatorCounter] ->
  implements a m = false ->
  exists msg,
    verifyAuthentication options reqCookies response w =
      (Throw (MissingAdapterMethods msg), w).
Proof.
  intros Ha Hin Hm. unfold verifyAuthentication. rewrite Ha. unfold bind at 1.
  destruct (assert_not_implemented
              "WebaAuthn verifyAuthentication requires an adapter that implements"
              a [GetAuthenticator; GetUserByAccount; UpdateAuthenticatorCounter] w)
    as (msg & ->).
  - apply not_true_is_false. intros Hall.
    rewrite forallb_forall in Hall. specialize (Hall m Hin). congruence.
  - eauto.
Qed.

Lemma verifyAuthentication_invalid options reqCookies response (w : World S R)
    a gA gU upd :
  capable options a gA gU upd ->
  response_id response = None ->
  verifyAuthentication options reqCookies response w =
    (Ok (SoftError "Invalid response."), w).
Proof.
  intros Hcap Hid. unfold verifyAuthentication.
  pose proof Hcap as (Ha & _). rewrite Ha.
  unfold bind at 1. rewrite (capable_asserted _ _ Hcap). now rewrite Hid.
Qed.

Lemma verifyAuthentication_no_cookie options reqCookies response (w : World S R)
    a gA gU upd rid :
  capable options a gA gU upd ->
  response_id response = Some rid ->
  decodeSignedCookie "challenge" reqCookies (secret options) = Ok None ->
  verifyAuthentication options reqCookies response w =
    (Ok (SoftError "Missing challenge cookie."), w).
Proof.
  intros Hcap Hid Hck. unfold verifyAuthentication.
  pose proof Hcap as (Ha & _). rewrite Ha.
  unfold bind at 1. rewrite (capable_asserted _ _ Hcap). rewrite Hid.
  unfold bind, lift. now rewrite Hck.
Qed.

Lemma verifyAuthentication_codec_throws options reqCookies response (w : World S R)
    a gA gU upd rid e :
  capable options a gA gU upd ->
  response_id response = Some rid ->
  decodeSignedCookie "challenge" reqCookies (secret options) = Throw e ->
  verifyAuthentication options reqCookies response w = (Throw e, w).
Proof.
  intros Hcap Hid Hck. unfold verifyAuthentication.
  pose proof Hcap as (Ha & _). rewrite Ha.
  unfold bind at 1. rewrite (capable_asserted _ _ Hcap). rewrite Hid.
  unfold bind, lift. now rewrite Hck.
Qed.

Lemma verifyAuthentication_unknown_credential options reqCookies response
    (w : World S R) a gA gU upd rid ck :
  capable options a gA gU upd ->
  response_id response = Some rid ->
  decodeSignedCookie "challenge" reqCookies (secret options) = Ok (Some ck) ->
  gA (bufferFromBase64 rid) (storage w) = Ok None ->
  verifyAuthentication options reqCookies response w =
    (Ok (SoftError "Authenticator not found."),
     {| storage := storage w; entropy := entropy w;
        logged := logged w ++ [LogDebug "Authenticator not found." [("id", rid)]];
        calls := calls w ++ [GetAuthenticator] |}).
Proof.
  intros Hcap Hid Hck Hau. unfold verifyAuthentication.
  pose proof Hcap as (Ha & HA & _). rewrite Ha.
  unfold bind at 1. rewrite (capable_asserted _ _ Hcap). rewrite Hid.
  unfold bind at 1, lift at 1. rewrite Hck.
  unfold bind at 1. rewrite HA. simpl. rewrite Hau. reflexivity.
Qed.

Lemma verifyAuthentication_lookup_throws options reqCookies response
    (w : World S R) a gA gU upd rid ck e :
  capable options a gA gU upd ->
  response_id response = Some rid ->
  decodeSignedCookie "challenge" reqCookies (secret options) = Ok (Some ck) ->
  gA (bufferFromBase64 rid) (storage w) = Throw e ->
  verifyAuthentication options reqCookies response w =
    (Throw e,
     {| storage := storage w; entropy := entropy w; logged := logged w;
        calls := calls w ++ [GetAuthenticator] |}).
Proof.
  intros Hcap Hid Hck Hau. unfold verifyAuthentication.
  pose proof Hcap as (Ha & HA & _). rewrite Ha.
  unfold bind at 1. rewrite (capable_asserted _ _ Hcap). rewrite Hid.
  unfold bind at 1, lift at 1. rewrite Hck.
  unfold bind at 1. rewrite HA. simpl. rewrite Hau. reflexivity.
Qed.

End VerifyAuthentication.

Section VerifyAuthenticationClaims.

Context {S R : Type} {C : Collaborators S R}.

(** Every run of [verifyAuthentication] ends before the adapter is touched,
    or after the authenticator lookup alone, or goes through a ceremony the
    library reported as verified. *)
Lemma verifyAuthentication_paths options reqCookies response (w : World S R) :
  let out := verifyAuthentication options reqCookies response w in
  (snd out = w /\ forall d, fst out <> Ok (Verified d)) \/
  (storage (snd out) = storage w /\
   calls (snd out) = (calls w ++ [GetAuthenticator])%list /\
   forall d, fst out <> Ok (Verified d)) \/
  (exists a gA gU upd ck au v,
      capable options a gA gU upd /\
      reaches_library options reqCookies response w gA ck au /\
      verifyAuthenticationResponse (library_authentication_args options response au ck)
        = Ok v /\
      auth_verified v = true).
Proof.
  intros out. subst out.
  destruct (adapter options) as [a|] eqn:Ha.
  2:{ left. erewrite verifyAuthentication_no_adapter by eassumption.
      split; [reflexivity | discriminate]. }
  assert (Hinc : forall m,
             In m [GetAuthenticator; GetUserByAccount; UpdateAuthenticatorCounter] ->
             implements a m = false ->
             snd (verifyAuthentication options reqCookies response w) = w /\
             forall d, fst (verifyAuthentication options reqCookies response w)
                       <> Ok (Verified d)).
  { intros m Hin Hm.
    destruct (verifyAuthentication_incapable options reqCookies response w Ha Hin Hm)
      as (msg & ->).
    split; [reflexivity | discriminate]. }
  destruct (getAuthenticator a) as [gA|] eqn:HA.
  2:{ left. apply (Hinc GetAuthenticator); simpl; [auto | now rewrite HA]. }
  destruct (getUserByAccount a) as [gU|] eqn:HU.
  2:{ left. apply (Hinc GetUserByAccount); simpl; [auto | now rewrite HU]. }
  destruct (updateAuthenticatorCounter a) as [upd|] eqn:HP.
  2:{ left. apply (Hinc UpdateAuthenticatorCounter); simpl; [auto | now rewrite HP]. }
  clear Hinc.
  assert (Hcap : capable options a gA gU upd) by (repeat split; assumption).
  destruct (response_id response) as [rid|] eqn:Hid.
  2:{ left. erewrite verifyAuthentication_invalid by eassumption.
      split; [reflexivity | discriminate]. }
  destruct (decodeSignedCookie "challenge" reqCookies (secret options))
    as [[ck|]|e] eqn:Hck.
  2:{ left. erewrite verifyAuthentication_no_cookie by eassumption.
      split; [reflexivity | discriminate]. }
  2:{ left. erewrite verifyAuthentication_codec_throws by eassumption.
      split; [reflexivity | discriminate]. }
  destruct (gA (bufferFromBase64 rid) (storage w)) as [[au|]|e] eqn:Hau.
  2:{ right; left.
      erewrite verifyAuthentication_unknown_credential by eassumption.
      simpl. repeat split; discriminate. }
  2:{ right; left.
      erewrite verifyAuthentication_lookup_throws by eassumption.
      simpl. repeat split; discriminate. }
  assert (Hreach : reaches_library options reqCookies response w gA ck au)
    by (exists rid; auto).
  destruct (verifyAuthenticationResponse
              (library_authentication_args options response au ck)) as [v|e] eqn:Hlib.
  2:{ right; left.
      erewrite verifyAuthentication_library_throws by eassumption.
      simpl. repeat split; discriminate. }
  destruct (auth_verified v) eqn:Hv.
  - right; right. exists a, gA, gU, upd, ck, au, v. auto.
  - right; left.
    erewrite verifyAuthentication_not_verified by eassumption.
    simpl. repeat split; discriminate.
Qed.

(** C4: [verifyAuthentication] fails as specified.  Without an adapter, or
    with an adapter that lacks one of [getAuthenticator], [getUserByAccount],
    [updateAuthenticatorCounter], it throws a configuration error and the
    world is untouched (nothing of the request was processed).  With a
    capable adapter the remaining failures are returned, not thrown: a
    response that is not an object with a string [id] gives "Invalid
    response.", a missing or invalid challenge cookie "Missing challenge
    cookie.", an unknown credential id "Authenticator not found.", an
    exception of the ceremony library the message of the wrapping
    [WebAuthnVerificationError], and [verified = false] "Failed to verify
    response.". *)
Theorem verifyAuthentication_failures options reqCookies response (w : World S R) :
  let out := verifyAuthentication options reqCookies response w in
  (adapter options = None ->
   out = (Throw (MissingAdapter "WebaAuthn verifyAuthentication requires an adapter."),
          w)) /\
  (forall a m,
      adapter options = Some a ->
      In m [GetAuthenticator; GetUserByAccount; UpdateAuthenticatorCounter] ->
      implements a m = false ->
      exists msg, out = (Throw (MissingAdapterMethods msg), w)) /\
  (forall a gA gU upd,
      capable options a gA gU upd ->
      (~ object_with_string_id response ->
       fst out = Ok (SoftError "Invalid response.")) /\
      (object_with_string_id response ->
       decodeSignedCookie "challenge" reqCookies (secret options) = Ok None ->
       fst out = Ok (SoftError "Missing challenge cookie.")) /\
      (forall rid ck,
          response_id response = Some rid ->
          decodeSignedCookie "challenge" reqCookies (secret options) = Ok (Some ck) ->
          gA (bufferFromBase64 rid) (storage w) = Ok None ->
          fst out = Ok (SoftError "Authenticator not found.")) /\
      (forall ck au e,
          reaches_library options reqCookies response w gA ck au ->
          verifyAuthenticationResponse
            (library_authentication_args options response au ck) = Throw e ->
          fst out = Ok (SoftError (errorMessage (WebAuthnVerificationError e)))) /\
      (forall ck au v,
          reaches_library options reqCookies response w gA ck au ->
          verifyAuthenticationResponse
            (library_authentication_args options response au ck) = Ok v ->
          auth_verified v = false ->
          fst out = Ok (SoftError "Failed to verify response."))).
Proof.
  intros out. subst out. split; [|split].
  - apply verifyAuthentication_no_adapter.
  - intros a m. apply verifyAuthentication_incapable.
  - intros a gA gU upd Hcap. repeat split.
    + intros N. apply response_id_none in N.
      now erewrite verifyAuthentication_invalid by eassumption.
    + intros (fields & s & -> & L) Hck.
      assert (Hid : response_id (JObject fields) = Some s)
        by (apply response_id_some; eauto).
      now erewrite verifyAuthentication_no_cookie by eassumption.
    + intros rid ck Hid Hck Hau.
      now erewrite verifyAuthentication_unknown_credential by eassumption.
    + intros ck au e Hreach Hlib.
      now erewrite verifyAuthentication_library_throws by eassumption.
    + intros ck au v Hreach Hlib Hv.
      now erewrite verifyAuthentication_not_verified by eassumption.
Qed.

(** C7: when the ceremony verified but no user is found for the matched
    authenticator's (provider, providerAccountId), [verifyAuthentication]
    throws [WebAuthnVerificationError]; it returns neither a soft error nor
    an authenticated user. *)
Theorem verifyAuthentication_orphan_throws options reqCookies response (w : World S R)
    a gA gU upd ck au v :
  capable options a gA gU upd ->
  reaches_library options reqCookies response w gA ck au ->
  verifyAuthenticationResponse (library_authentication_args options response au ck)
    = Ok v ->
  auth_verified v = true ->
  gU (provider_id (provider options)) (providerAccountId au)
     (snd (upd au (newCounter (authenticationInfo v)) (storage w))) = Ok None ->
  let out := fst (verifyAuthentication options reqCookies response w) in
  out = Throw (WebAuthnVerificationErrorMsg
                 "User not found. See debug logs for more details.") /\
  (forall msg, out <> Ok (SoftError msg)) /\
  (forall d, out <> Ok (Verified d)).
Proof.
  intros Hcap Hreach Hlib Hv Hu out. subst out.
  erewrite verifyAuthentication_verified by eassumption.
  rewrite Hu. simpl. repeat split; discriminate.
Qed.

(** X1: [verifyAuthentication] compares no counters itself: once the library
    reports the ceremony verified, the adapter's [updateAuthenticatorCounter]
    is called with the stored authenticator and the library's [newCounter],
    whatever their order, and storage is what that call leaves. *)
Theorem verifyAuthentication_forwards_counter
    options reqCookies response (w : World S R) a gA gU upd ck au v :
  capable options a gA gU upd ->
  reaches_library options reqCookies response w gA ck au ->
  verifyAuthenticationResponse (library_authentication_args options response au ck)
    = Ok v ->
  auth_verified v = true ->
  let out := verifyAuthentication options reqCookies response w in
  storage (snd out) = snd (upd au (newCounter (authenticationInfo v)) (storage w)) /\
  calls (snd out)
    = (calls w ++ [GetAuthenticator; UpdateAuthenticatorCounter; GetUserByAccount])%list.
Proof.
  intros Hcap Hreach Hlib Hv out. subst out.
  erewrite verifyAuthentication_verified by eassumption.
  destruct (gU _ _ _) as [[u|]|e]; split; reflexivity.
Qed.

End VerifyAuthenticationClaims.

Section ReferenceAdapter.

Import SpecAdapter.

Lemma bytes_eqb_eq (a b : Bytes) : bytes_eqb a b = true <-> a = b.
Proof.
  revert b. induction a as [|x a IH]; intros [|y b]; simpl; split;
    try discriminate; try reflexivity.
  - intros [Hx Hab]%andb_true_iff. apply Byte.byte_dec_bl in Hx.
    apply IH in Hab. congruence.
  - intros [= -> ->]. apply andb_true_iff. split.
    + now apply Byte.byte_dec_lb.
    + now apply IH.
Qed.

(** The authenticator [getAuthenticator] finds is the one
    [updateAuthenticatorCounter] compares against. *)
Lemma found_is_stored (credential : Bytes) (s : Storage) (au : Authenticator) :
  getAuthenticator credential s = Ok (Some au) ->
  find (fun x => bytes_eqb (credentialID x) (credentialID au)) (authenticators s)
    = Some au.
Proof.
  unfold getAuthenticator. intros [= H].
  assert (E : credentialID au = credential).
  { apply find_some in H as [_ H]. now apply bytes_eqb_eq. }
  now rewrite E.
Qed.

Lemma stored_counter_set (credential : Bytes) (c : Z) (s : Storage) (au : Authenticator) :
  find (fun x => bytes_eqb (credentialID x) credential) (authenticators s) = Some au ->
  stored_counter credential (set_counter credential c s) = Some c.
Proof.
  unfold stored_counter, set_counter. simpl.
  induction (authenticators s) as [|x l IH]; simpl; [discriminate|].
  destruct (bytes_eqb (credentialID x) credential) eqn:E; simpl.
  - now rewrite E.
  - rewrite E. exact IH.
Qed.

Lemma update_increasing (au : Authenticator) (n : Z) (s : Storage) (credential : Bytes) :
  getAuthenticator credential s = Ok (Some au) ->
  (counter au < n)%Z ->
  updateAuthenticatorCounter au n s = (Ok tt, set_counter (credentialID au) n s).
Proof.
  intros H Hlt. unfold updateAuthenticatorCounter.
  erewrite found_is_stored by eassumption.
  apply Z.ltb_lt in Hlt. now rewrite Hlt.
Qed.

Lemma update_not_increasing (au : Authenticator) (n : Z) (s : Storage)
    (credential : Bytes) :
  getAuthenticator credential s = Ok (Some au) ->
  (n <= counter au)%Z ->
  updateAuthenticatorCounter au n s = (Throw counter_rejected, s).
Proof.
  intros H Hle. unfold updateAuthenticatorCounter.
  erewrite found_is_stored by eassumption.
  apply Z.ltb_ge in Hle. now rewrite Hle.
Qed.

Lemma reference_capable (options : Options Storage) :
  adapter options = Some reference ->
  capable options reference getAuthenticator getUserByAccount updateAuthenticatorCounter.
Proof. intros H. repeat split. exact H. Qed.

End ReferenceAdapter.

(** C2: after a successful authentication verification the counter update
    to the library's [newCounter] goes through the adapter.  With the
    adapter the spec describes (it rejects a counter that does not strictly
    increase) the stored counter becomes [newCounter] exactly when
    [newCounter] exceeds it; otherwise storage keeps the old counter and the
    rejection is logged as an [AdapterError].  With any adapter whatsoever, an
    update that throws is logged and [verifyAuthentication] still returns
    [{user, account}]. *)
Theorem counter_update_monotone_and_nonfatal :
  (forall (R : Type) (C : Collaborators SpecAdapter.Storage R)
          options reqCookies response (w : World SpecAdapter.Storage R) ck au v u,
      adapter options = Some SpecAdapter.reference ->
      reaches_library options reqCookies response w SpecAdapter.getAuthenticator ck au ->
      verifyAuthenticationResponse (library_authentication_args options response au ck)
        = Ok v ->
      auth_verified v = true ->
      SpecAdapter.getUserByAccount (provider_id (provider options))
        (providerAccountId au) (storage w) = Ok (Some u) ->
      let n := newCounter (authenticationInfo v) in
      let out := verifyAuthentication options reqCookies response w in
      fst out = Ok (Verified {| user := u; account := account_of options u au;
                                authenticator := None |}) /\
      ((counter au < n)%Z ->
       storage (snd out) = SpecAdapter.set_counter (credentialID au) n (storage w) /\
       SpecAdapter.stored_counter (credentialID au) (storage (snd out)) = Some n /\
       logged (snd out) = logged w) /\
      ((n <= counter au)%Z ->
       storage (snd out) = storage w /\
       logged (snd out)
         = (logged w ++ [LogError (AdapterError SpecAdapter.counter_rejected)])%list))
  /\
  (forall (S R : Type) (C : Collaborators S R)
          options reqCookies response (w : World S R) a gA gU upd ck au v u e s',
      capable options a gA gU upd ->
      reaches_library options reqCookies response w gA ck au ->
      verifyAuthenticationResponse (library_authentication_args options response au ck)
        = Ok v ->
      auth_verified v = true ->
      upd au (newCounter (authenticationInfo v)) (storage w) = (Throw e, s') ->
      gU (provider_id (provider options)) (providerAccountId au) s' = Ok (Some u) ->
      let out := verifyAuthentication options reqCookies response w in
      fst out = Ok (Verified {| user := u; account := account_of options u au;
                                authenticator := None |}) /\
      logged (snd out) = (logged w ++ [LogError (AdapterError e)])%list).
Proof.
  split.
  - intros R C options reqCookies response w ck au v u Ha Hreach Hlib Hv Hu n out.
    subst out.
    pose proof (reference_capable options Ha) as Hcap.
    erewrite verifyAuthentication_verified by eassumption.
    fold n.
    destruct Hreach as (rid & _ & _ & Hau).
    destruct (Z.lt_ge_cases (counter au) n) as [Hlt | Hge].
    + erewrite update_increasing by eassumption. simpl.
      change (SpecAdapter.getUserByAccount (provider_id (provider options))
                (providerAccountId au)
                (SpecAdapter.set_counter (credentialID au) n (storage w)))
        with (SpecAdapter.getUserByAccount (provider_id (provider options))
                (providerAccountId au) (storage w)).
      rewrite Hu. simpl. split; [reflexivity | split].
      * intros _. split; [reflexivity | split; [| apply app_nil_r]].
        eapply stored_counter_set. eapply found_is_stored. eassumption.
      * lia.
    + erewrite update_not_increasing by eassumption. simpl. rewrite Hu. simpl.
      repeat split; try lia; auto.
  - intros S R C options reqCookies response w a gA gU upd ck au v u e s'
           Hcap Hreach Hlib Hv Hupd Hu out.
    subst out.
    erewrite verifyAuthentication_verified by eassumption.
    rewrite Hupd. simpl. rewrite Hu. simpl. auto.
Qed.

Section VerifyRegistration.

Context {S R : Type} {C : Collaborators S R}.

(** [verifyRegistration] leaves storage, the randomness and the trace of
    adapter calls as they were. *)
Lemma verifyRegistration_frame options reqCookies response email (w : World S R) :
  let out := verifyRegistration options reqCookies response email w in
  storage (snd out) = storage w /\
  entropy (snd out) = entropy w /\
  calls (snd out) = calls w.
Proof.
  unfold verifyRegistration, attempt, lift, bind, ret, log.
  repeat (cbv zeta; simpl;
          match goal with
          | |- context [match ?x with _ => _ end] => destruct x
          end);
    simpl; auto.
Qed.

(** What [verifyRegistration] throws was thrown by the cookie codec, or is
    the [TypeError] of reading [response.response.transports]. *)
Lemma verifyRegistration_throws options reqCookies response email (w : World S R) e :
  fst (verifyRegistration options reqCookies response email w) = Throw e ->
  decodeSignedCookie "challenge" reqCookies (secret options) = Throw e \/
  exists msg, e = TypeError msg.
Proof.
  unfold verifyRegistration, attempt, lift, bind, ret, log.
  destruct (as_email email) as [em|]; simpl; [|discriminate].
  destruct (response_id response) as [rid|] eqn:Hid; simpl; [|discriminate].
  destruct (decodeSignedCookie "challenge" reqCookies (secret options))
    as [[ck|]|err]; simpl; [|discriminate|intros [= ->]; now left].
  destruct (cookie_providerAccountId ck) as [pid|]; simpl; [|discriminate].
  destruct (pid =? ""); simpl; [discriminate|].
  destruct (verifyRegistrationResponse _) as [v|err]; simpl; [|discriminate].
  destruct (reg_verified v); simpl; [|discriminate].
  destruct (registrationInfo v) as [ri|]; simpl; [|discriminate].
  apply response_id_some in Hid as (fields & -> & _). simpl.
  destruct (lookup_field "response" fields) as [[| | | | | |inner]|]; simpl;
    try discriminate;
    try (destruct (lookup_field "transports" inner); discriminate);
    intros H; inversion H; right; eauto.
Qed.

Lemma verifyRegistration_verified options reqCookies response email (w : World S R)
    e rid ck pid v ri inner t :
  as_email email = Some e ->
  response_id response = Some rid ->
  decodeSignedCookie "challenge" reqCookies (secret options) = Ok (Some ck) ->
  cookie_providerAccountId ck = Some pid ->
  pid <> "" ->
  verifyRegistrationResponse (library_registration_args options response ck) = Ok v ->
  reg_verified v = true ->
  registrationInfo v = Some ri ->
  get_property response "response" = Ok inner ->
  get_property inner "transports" = Ok t ->
  verifyRegistration options reqCookies response email w =
    (Ok (Verified
           {| user := {| user_id := e; user_name := None; user_email := e;
                         user_emailVerified := None |};
              account := {| acc_userId := e;
                            acc_type := provider_type (provider options);
                            acc_provider := provider_id (provider options);
                            acc_providerAccountId := pid |};
              authenticator :=
                Some {| providerAccountId := pid;
                        counter := reg_counter ri;
                        credentialID := reg_credentialID ri;
                        credentialBackedUp := reg_credentialBackedUp ri;
                        credentialDeviceType := reg_credentialDeviceType ri;
                        credentialPublicKey := reg_credentialPublicKey ri;
                        transports := t |} |}),
     w).
Proof.
  intros He Hid Hck Hpid Hne Hlib Hv Hri Hinner Ht.
  unfold verifyRegistration, attempt, lift. rewrite He, Hid.
  unfold bind at 1. rewrite Hck, Hpid.
  assert (Htruthy : negb (truthy (Some pid)) = false).
  { simpl. destruct (String.eqb_spec pid ""); [contradiction | reflexivity]. }
  rewrite Htruthy.
  unfold bind at 1.
  unfold library_registration_args in Hlib. rewrite Hlib, Hv, Hri.
  unfold bind at 1. rewrite Hinner.
  unfold bind at 1. rewrite Ht.
  reflexivity.
Qed.

Lemma verifyRegistration_email_required options reqCookies response email
    (w : World S R) :
  as_email email = None ->
  verifyRegistration options reqCookies response email w =
    (Ok (SoftError "Email is required for registration."), w).
Proof. intros H. unfold verifyRegistration. now rewrite H. Qed.

Lemma verifyRegistration_no_account_id options reqCookies response email
    (w : World S R) e rid ck :
  as_email email = Some e ->
  response_id response = Some rid ->
  decodeSignedCookie "challenge" reqCookies (secret options) = Ok (Some ck) ->
  truthy (cookie_providerAccountId ck) = false ->
  verifyRegistration options reqCookies response email w =
    (Ok (SoftError "Missing providerAccountId from challenge cookie."), w).
Proof.
  intros He Hid Hck Hpid. unfold verifyRegistration, attempt, lift. rewrite He, Hid.
  unfold bind at 1. rewrite Hck.
  destruct (cookie_providerAccountId ck) as [pid|]; [|reflexivity].
  now rewrite Hpid.
Qed.

End VerifyRegistration.

Section VerifierClaims.

Context {S R : Type} {C : Collaborators S R}.

(** C5 (amended): for an [email] that is a string, a [response] that is an
    object with a string [id] and a [response] member, a challenge cookie
    with a non-empty [providerAccountId], and a ceremony the library reports
    verified with registration info, [verifyRegistration] returns the user
    [{id: email, email, emailVerified: null}], the account [{userId: email,
    type, provider: options.provider.id, providerAccountId}] and the
    authenticator built from the registration info and the response's
    transports; the provider id is "passkey" for a provider made by
    [Passkey] from a configuration that sets no [id].  An [email] that is not
    a string, or a cookie whose [providerAccountId] is absent or empty,
    gives a soft error. *)
Theorem verifyRegistration_result options reqCookies response email (w : World S R) :
  let out := verifyRegistration options reqCookies response email w in
  (forall e ck pid v ri inner t,
      email = JString e ->
      object_with_string_id response ->
      decodeSignedCookie "challenge" reqCookies (secret options) = Ok (Some ck) ->
      cookie_providerAccountId ck = Some pid ->
      pid <> "" ->
      verifyRegistrationResponse (library_registration_args options response ck)
        = Ok v ->
      reg_verified v = true ->
      registrationInfo v = Some ri ->
      get_property response "response" = Ok inner ->
      get_property inner "transports" = Ok t ->
      out =
        (Ok (Verified
               {| user := {| user_id := e; user_name := None; user_email := e;
                             user_emailVerified := None |};
                  account := {| acc_userId := e;
                                acc_type := provider_type (provider options);
                                acc_provider := provider_id (provider options);
                                acc_providerAccountId := pid |};
                  authenticator :=
                    Some {| providerAccountId := pid;
                            counter := reg_counter ri;
                            credentialID := reg_credentialID ri;
                            credentialBackedUp := reg_credentialBackedUp ri;
                            credentialDeviceType := reg_credentialDeviceType ri;
                            credentialPublicKey := reg_credentialPublicKey ri;
                            transports := t |} |}),
         w)) /\
  ((forall e, email <> JString e) ->
   out = (Ok (SoftError "Email is required for registration."), w)) /\
  (forall e ck,
      email = JString e ->
      object_with_string_id response ->
      decodeSignedCookie "challenge" reqCookies (secret options) = Ok (Some ck) ->
      truthy (cookie_providerAccountId ck) = false ->
      out = (Ok (SoftError "Missing providerAccountId from challenge cookie."), w)) /\
  (forall config,
      provider_type (Passkey config) = "passkey" /\
      (in_id config = None -> provider_id (Passkey config) = "passkey")).
Proof.
  intros out. subst out. split; [|split; [|split]].
  - intros e ck pid v ri inner t -> (fields & s & -> & L) Hck Hpid Hne Hlib Hv Hri Hi Ht.
    assert (Hid : response_id (JObject fields) = Some s)
      by (apply response_id_some; eauto).
    eapply verifyRegistration_verified; solve [eassumption | reflexivity].
  - intros N. apply verifyRegistration_email_required.
    destruct email; try reflexivity. exfalso. now apply (N s).
  - intros e ck -> (fields & s & -> & L) Hck Hpid.
    assert (Hid : response_id (JObject fields) = Some s)
      by (apply response_id_some; eauto).
    eapply verifyRegistration_no_account_id; solve [eassumption | reflexivity].
  - intros config. split; [reflexivity|].
    intros H. unfold Passkey. simpl. now rewrite H.
Qed.

(** C6: neither verifier writes to storage before verification succeeds.
    [verifyRegistration] never calls the adapter and leaves storage as it is.
    The adapter calls of [verifyAuthentication] are a prefix of
    [getAuthenticator; updateAuthenticatorCounter; getUserByAccount]; the
    counter update is among them only when the library reported the ceremony
    verified, and then storage is what that one update left; without it
    storage is unchanged; and no run that ends in a soft error contains it. *)
Theorem verifiers_write_only_after_verification
    options reqCookies response email (w : World S R) :
  (let out := verifyRegistration options reqCookies response email w in
   storage (snd out) = storage w /\ calls (snd out) = calls w) /\
  (let out := verifyAuthentication options reqCookies response w in
   exists trace,
     calls (snd out) = (calls w ++ trace)%list /\
     (In UpdateAuthenticatorCounter trace ->
      exists a gA gU upd ck au v,
        capable options a gA gU upd /\
        reaches_library options reqCookies response w gA ck au /\
        verifyAuthenticationResponse
          (library_authentication_args options response au ck) = Ok v /\
        auth_verified v = true /\
        storage (snd out) = snd (upd au (newCounter (authenticationInfo v)) (storage w))) /\
     (~ In UpdateAuthenticatorCounter trace -> storage (snd out) = storage w) /\
     (exists rest,
         [GetAuthenticator; UpdateAuthenticatorCounter; GetUserByAccount]
         = (trace ++ rest)%list) /\
     (forall msg, fst out = Ok (SoftError msg) ->
                  ~ In UpdateAuthenticatorCounter trace)).
Proof.
  split.
  - pose proof (verifyRegistration_frame options reqCookies response email w) as H.
    simpl in *. tauto.
  - intros out.
    destruct (verifyAuthentication_paths options reqCookies response w)
      as [[Hw _] | [(Hs & Hc & _) | H]]; fold out in Hw || fold out in Hs, Hc || idtac.
    + exists []. rewrite Hw, app_nil_r. simpl.
      split; [reflexivity | split; [tauto | split; [reflexivity | split]]].
      * eexists. reflexivity.
      * intros msg _ [].
    + exists [GetAuthenticator]. simpl.
      split; [assumption | split; [|split; [auto | split]]].
      * intros [H|[]]; discriminate.
      * eexists. reflexivity.
      * intros msg _ [H|[]]; discriminate.
    + destruct H as (a & gA & gU & upd & ck & au & v & Hcap & Hreach & Hlib & Hv).
      exists [GetAuthenticator; UpdateAuthenticatorCounter; GetUserByAccount].
      pose proof (verifyAuthentication_verified Hcap Hreach Hlib Hv) as E.
      simpl in E. fold out in E.
      assert (Hout : calls (snd out)
                     = (calls w ++ [GetAuthenticator; UpdateAuthenticatorCounter;
                                    GetUserByAccount])%list /\
                     storage (snd out)
                     = snd (upd au (newCounter (authenticationInfo v)) (storage w)) /\
                     forall msg, fst out <> Ok (SoftError msg)).
      { rewrite E.
        destruct (gU _ _ _) as [[u|]|e]; simpl; repeat split; discriminate. }
      destruct Hout as (Hc & Hs & Hsoft).
      split; [assumption | split; [|split; [|split]]].
      * intros _. exists a, gA, gU, upd, ck, au, v. auto.
      * intros N. exfalso. apply N. simpl. auto.
      * exists []. reflexivity.
      * intros msg Hmsg. exfalso. eapply Hsoft; eauto.
Qed.

(** C10: [verifyRegistration] never accesses the adapter.  Its outcome is
    the same with any adapter and with none, it makes no adapter call, and
    what it throws was thrown by the cookie codec or is the [TypeError] of
    reading the response; whereas without an adapter [verifyAuthentication]
    and the options builders throw [MissingAdapter] at once. *)
Theorem verifyRegistration_ignores_adapter
    options (a : option (Adapter S)) reqCookies response email (w : World S R) :
  verifyRegistration (set_adapter options a) reqCookies response email w
    = verifyRegistration (set_adapter options None) reqCookies response email w /\
  calls (snd (verifyRegistration options reqCookies response email w)) = calls w /\
  match fst (verifyRegistration options reqCookies response email w) with
  | Throw e =>
      decodeSignedCookie "challenge" reqCookies (secret options) = Throw e \/
      exists msg, e = TypeError msg
  | Ok _ => True
  end /\
  (exists msg,
      verifyAuthentication (set_adapter options None) reqCookies response w
        = (Throw (MissingAdapter msg), w)) /\
  (forall em, exists msg,
      getUserAndAuthenticators (set_adapter options None) em w
        = (Throw (MissingAdapter msg), w)).
Proof.
  split; [reflexivity|]. split; [|split; [|split]].
  - apply verifyRegistration_frame.
  - destruct (fst (verifyRegistration options reqCookies response email w)) as [r|e] eqn:E;
      [exact I | now apply verifyRegistration_throws in E].
  - eexists. apply verifyAuthentication_no_adapter. reflexivity.
  - intros em. eexists. reflexivity.
Qed.

End VerifierClaims.

Section Issuance.

Context {S R : Type} {C : Collaborators S R}.

Lemma bind_ok {A B : Type} (m : M S R A) (k : A -> M S R B) (w w' : World S R) (b : B) :
  bind m k w = (Ok b, w') ->
  exists a w1, m w = (Ok a, w1) /\ k a w1 = (Ok b, w').
Proof.
  unfold bind. destruct (m w) as [[a|e] w1]; [eauto | discriminate].
Qed.

Lemma bind_ret {A : Type} (m : M S R A) (w : World S R) :
  bind m (fun a => ret a) w = m w.
Proof. unfold bind, ret. now destruct (m w) as [[a|e] w1]. Qed.

Lemma bind_ext {A B : Type} (m : M S R A) (k1 k2 : A -> M S R B) (w : World S R) :
  (forall a w1, k1 a w1 = k2 a w1) -> bind m k1 w = bind m k2 w.
Proof.
  intros H. unfold bind. destruct (m w) as [[a|e] w1]; [apply H | reflexivity].
Qed.

Lemma bind_assoc {A B D : Type} (m : M S R A) (f : A -> M S R B) (g : B -> M S R D)
    (w : World S R) :
  bind (bind m f) g w = bind m (fun a => bind (f a) g) w.
Proof. unfold bind. now destruct (m w) as [[a|e] w1]. Qed.

Lemma doRegister_carries options email (w w' : World S R) resp :
  Types.doRegister options email w = (Ok resp, w') ->
  exists regOptions,
    body resp = BodyOptions (RegisterReturn regOptions) /\
    carries_challenge options resp.
Proof.
  unfold Types.doRegister. intros H.
  apply bind_ok in H as (ro & w1 & _ & H).
  apply bind_ok in H as (cookie & w2 & Hsign & H).
  unfold lift in Hsign. injection Hsign as Hsign _.
  unfold ret in H. injection H as <- _.
  exists ro. unfold carries_challenge. simpl. eauto.
Qed.

Lemma doAuthenticate_carries options email (w w' : World S R) resp :
  Types.doAuthenticate options email w = (Ok resp, w') ->
  exists authOptions,
    body resp = BodyOptions (AuthenticateReturn authOptions) /\
    carries_challenge options resp.
Proof.
  unfold Types.doAuthenticate. intros H.
  apply bind_ok in H as (ao & w1 & _ & H).
  apply bind_ok in H as (cookie & w2 & Hsign & H).
  unfold lift in Hsign. injection Hsign as Hsign _.
  unfold ret in H. injection H as <- _.
  exists ao. unfold carries_challenge. simpl. eauto.
Qed.

Lemma bad_request_carries options msg (w w' : World S R) resp :
  ret (bad_request msg) w = (Ok resp, w') -> carries_challenge options resp.
Proof. unfold ret. intros [= <- _]. reflexivity. Qed.

(** The two branches of the if/else handler's [switch] are [doAuthenticate]
    and the register branch. *)
Lemma routes_dispatch options sessionStore action queryEmail (w : World S R) :
  Routes.passkeyOptions options sessionStore action queryEmail w =
  (currentSession <- routesSession options sessionStore ;;
   let sessionUserEmail := session_user_email currentSession in
   let email := nullish sessionUserEmail queryEmail in
   if negb (truthy action) then
     if negb (truthy sessionUserEmail) then
       if truthy queryEmail then
         user <- optional_getUserByEmail options (as_string queryEmail) ;;
         if defined user
         then Types.doAuthenticate options email
         else register_branch options email
       else ret (bad_request "email is required to register")
     else
       if truthy queryEmail
       then register_branch options email
       else ret (bad_request "email is required to register a new passkey")
   else
     if String.eqb (as_string action) "authenticate"
     then Types.doAuthenticate options email
     else if String.eqb (as_string action) "register"
          then register_branch options email
          else ret (bad_request "invalid action")) w.
Proof.
  unfold Routes.passkeyOptions. apply bind_ext. intros currentSession w1. cbv zeta.
  set (email := nullish (session_user_email currentSession) queryEmail).
  assert (Hreg : forall w2,
             (if negb (truthy email)
              then ret (bad_request "email is required for registration")
              else Types.doRegister options (as_string email)) w2
             = register_branch options email w2).
  { intros w2. unfold register_branch. now destruct (truthy email). }
  destruct (negb (truthy action)).
  - destruct (negb (truthy (session_user_email currentSession))).
    + destruct (truthy queryEmail); [|reflexivity].
      rewrite bind_assoc. apply bind_ext. intros user w2.
      destruct (defined user); [reflexivity|]. apply Hreg.
    + destruct (truthy queryEmail); [|reflexivity]. apply Hreg.
  - change (bind (ret (inl (as_string action))) ?k w1) with (k (inl (as_string action)) w1).
    cbv beta iota.
    destruct (as_string action =? "authenticate"); [reflexivity|].
    destruct (as_string action =? "register"); [|reflexivity]. apply Hreg.
Qed.

End Issuance.

Section HandlerClaims.

Context {S R : Type} {C : Collaborators S R}.

Lemma register_branch_carries options email (w w' : World S R) resp :
  register_branch options email w = (Ok resp, w') -> carries_challenge options resp.
Proof.
  unfold register_branch. destruct (truthy email); intros H.
  - now apply doRegister_carries in H as (ro & _ & H).
  - now apply (bad_request_carries options) in H.
Qed.

Lemma routes_carries options sessionStore action queryEmail (w w' : World S R) resp :
  Routes.passkeyOptions options sessionStore action queryEmail w = (Ok resp, w') ->
  carries_challenge options resp.
Proof.
  rewrite routes_dispatch. intros H.
  apply bind_ok in H as (currentSession & w1 & _ & H). cbv zeta in H.
  destruct (negb (truthy action)).
  - destruct (negb (truthy (session_user_email currentSession))).
    + destruct (truthy queryEmail).
      * apply bind_ok in H as (user & w2 & _ & H).
        destruct (defined user).
        -- now apply doAuthenticate_carries in H as (ao & _ & H).
        -- now apply register_branch_carries in H.
      * now apply (bad_request_carries options) in H.
    + destruct (truthy queryEmail).
      * now apply register_branch_carries in H.
      * now apply (bad_request_carries options) in H.
  - destruct (as_string action =? "authenticate").
    + now apply doAuthenticate_carries in H as (ao & _ & H).
    + destruct (as_string action =? "register").
      * now apply register_branch_carries in H.
      * now apply (bad_request_carries options) in H.
Qed.

Lemma types_carries options sessionStore action queryEmail (w w' : World S R) resp :
  Types.passkeyOptions options sessionStore action queryEmail w = (Ok resp, w') ->
  carries_challenge options resp.
Proof.
  unfold Types.passkeyOptions. intros H.
  apply bind_ok in H as (currentSession & w1 & _ & H). cbv zeta in H.
  apply bind_ok in H as (userExists & w2 & _ & H).
  assert (Hbad : forall w3, ret Types.invalid_combination w3 = (Ok resp, w') ->
                            carries_challenge options resp).
  { intros w3. apply (bad_request_carries options). }
  destruct action as [a|].
  - destruct (a =? "authenticate").
    + destruct (negb (truthy (session_user_email currentSession))).
      * now apply doAuthenticate_carries in H as (ao & _ & H).
      * now apply Hbad in H.
    + destruct (a =? "register").
      * destruct (_ && _).
        -- now apply doRegister_carries in H as (ro & _ & H).
        -- now apply Hbad in H.
      * now apply Hbad in H.
  - destruct (negb (truthy (session_user_email currentSession))).
    + destruct (Bool.eqb _ _).
      * now apply doAuthenticate_carries in H as (ao & _ & H).
      * now apply doRegister_carries in H as (ro & _ & H).
    + now apply Hbad in H.
Qed.

(** C3: on every successful issuance the signed cookie is made from the
    challenge of the very options returned to the client; a registration
    also stores the [user.id] of the registration options as
    [providerAccountId], an authentication stores no [providerAccountId].
    This holds for [doRegister], [doAuthenticate] and both handlers. *)
Theorem issuance_cookie_matches_options
    options sessionStore action queryEmail email (w : World S R) :
  (forall resp w',
      Types.doRegister options email w = (Ok resp, w') ->
      exists regOptions cookie,
        body resp = BodyOptions (RegisterReturn regOptions) /\
        cookies resp = Some [cookie] /\
        signCookie "challenge"
          {| challenge := cre_challenge regOptions;
             cookie_providerAccountId := Some (ue_id (cre_user regOptions)) |}
          (secret options) = Ok cookie) /\
  (forall resp w',
      Types.doAuthenticate options queryEmail w = (Ok resp, w') ->
      exists authOptions cookie,
        body resp = BodyOptions (AuthenticateReturn authOptions) /\
        cookies resp = Some [cookie] /\
        signCookie "challenge"
          {| challenge := req_challenge authOptions;
             cookie_providerAccountId := None |}
          (secret options) = Ok cookie) /\
  (forall resp w',
      Routes.passkeyOptions options sessionStore action queryEmail w = (Ok resp, w') ->
      carries_challenge options resp) /\
  (forall resp w',
      Types.passkeyOptions options sessionStore action queryEmail w = (Ok resp, w') ->
      carries_challenge options resp).
Proof.
  split; [|split; [|split]].
  - intros resp w' H. apply doRegister_carries in H as (ro & Hb & H).
    unfold carries_challenge in H. rewrite Hb in H.
    destruct H as (_ & cookie & Hc & Hs). exists ro, cookie. auto.
  - intros resp w' H. apply doAuthenticate_carries in H as (ao & Hb & H).
    unfold carries_challenge in H. rewrite Hb in H.
    destruct H as (_ & cookie & Hc & Hs). exists ao, cookie. auto.
  - intros resp w'. apply routes_carries.
  - intros resp w'. apply types_carries.
Qed.

End HandlerClaims.

Section OptionBuilders.

Context {S R : Type} {C : Collaborators S R}.

Lemma capable_of_options_asserted options a gE lL lA prefix (w : World S R) :
  capable_of_options options a gE lL lA ->
  assertAdapterImplementsMethods prefix a
    [GetUserByEmail; ListLinkedAccounts; ListAuthenticatorsByAccountId] w = (Ok tt, w).
Proof.
  intros (_ & HE & HL & HA). apply assert_implemented.
  simpl. now rewrite HE, HL, HA.
Qed.

(** What [getUserAndAuthenticators] returns: the user of a supplied email,
    and the authenticators of that user's account with the provider. *)
Lemma getUserAndAuthenticators_ok options a gE lL lA email (w w1 : World S R) ao uo :
  capable_of_options options a gE lL lA ->
  getUserAndAuthenticators options email w = (Ok (ao, uo), w1) ->
  storage w1 = storage w /\ entropy w1 = entropy w /\ logged w1 = logged w /\
  (forall u, uo = Some u <->
             exists e, email = Some e /\ e <> "" /\ gE e (storage w) = Ok (Some u)) /\
  (forall auths, ao = Some auths <->
                 exists u, account_authenticators options gE lL lA email
                             (storage w) u auths).
Proof.
  intros Hcap. pose proof Hcap as (Ha & HE & HL & HA).
  unfold getUserAndAuthenticators. rewrite Ha.
  unfold bind at 1. erewrite capable_of_options_asserted by eassumption.
  rewrite HE, HL, HA. unfold account_authenticators, provider_account.
  unfold bind, ret, adapter_read, record_call.
  destruct email as [e|]; simpl.
  2:{ intros [= <- <- <-]. repeat split; try discriminate.
      - intros (e & He & _). discriminate He.
      - intros (u & e & l & acct & He & _). discriminate He. }
  destruct (String.eqb_spec e "") as [->|Hne]; simpl.
  { intros [= <- <- <-]. repeat split; try discriminate.
    - intros (e & [= <-] & N & _). now elim N.
    - intros (u & e & l & acct & [= <-] & N & _). now elim N. }
  destruct (gE e (storage w)) as [[u|]|err] eqn:Hu; simpl; [| |discriminate].
  2:{ intros [= <- <- <-]. simpl. repeat split; try discriminate.
      - intros (e' & [= <-] & _ & H). congruence.
      - intros (u & e' & l & acct & [= <-] & _ & H & _). congruence. }
  destruct (lL (user_id u) (storage w)) as [linked|err] eqn:Hl; simpl; [|discriminate].
  destruct (find _ (match linked with Some l => l | None => [] end)) as [acct|] eqn:Hf;
    simpl.
  2:{ intros [= <- <- <-]. simpl. repeat split; try discriminate.
      - intros [= <-]. eauto.
      - intros (e' & [= <-] & _ & H). congruence.
      - intros (u' & e' & l & acct & [= <-] & _ & H1 & H2 & H3 & _).
        rewrite Hu in H1. injection H1 as <-. rewrite Hl in H2. injection H2 as <-.
        congruence. }
  destruct (lA (acc_providerAccountId acct) (storage w)) as [auths|err] eqn:Hauths;
    simpl; [|discriminate].
  intros [= <- <- <-]. simpl. repeat split.
  - intros [= <-]. eauto.
  - intros (e' & [= <-] & _ & H). congruence.
  - intros ->. exists u, e, linked, acct. auto 10.
  - intros (u' & e' & l & acct' & [= <-] & _ & H1 & H2 & H3 & H4).
    rewrite Hu in H1. injection H1 as <-. rewrite Hl in H2. injection H2 as <-.
    rewrite Hf in H3. injection H3 as <-. congruence.
Qed.

Lemma descriptor_lists (ao : option (list Authenticator)) :
  lists_credentials (option_map (map descriptor) ao) ao.
Proof.
  destruct ao as [auths|]; simpl; [|exact I].
  induction auths as [|x l IH]; simpl; constructor; [|exact IH].
  repeat split.
Qed.

(** C8: [registrationOptions] asks the library for creation options that
    exclude the credentials already registered for the email's account, with
    the existing user's id, or a fresh [randomString(32)] when there is no
    such user, and with [residentKey = "preferred"], [userVerification =
    "preferred"], [requireResidentKey = true].  [authenticationOptions] lists
    in [allowCredentials] the authenticators of the email's account when an
    email is supplied and its account has some, and otherwise leaves
    [allowCredentials] unrestricted.  Either list names each authenticator
    of the account once, in order, by its credential id, the type
    "public-key" and its transports. *)
Theorem option_builders_request options a gE lL lA (w : World S R) :
  capable_of_options options a gE lL lA ->
  (forall email ao uo w1,
      getUserAndAuthenticators options (Some email) w = (Ok (ao, uo), w1) ->
      (forall u, uo = Some u <-> email <> "" /\ gE email (storage w) = Ok (Some u)) /\
      (forall auths,
          ao = Some auths <->
          exists u, account_authenticators options gE lL lA (Some email)
                      (storage w) u auths) /\
      exists userID w2 userName userDisplayName exclude,
        match uo with
        | Some u => userID = user_id u /\ w2 = w1
        | None =>
            userID = fst (randomString 32 (entropy w1)) /\
            w2 = {| storage := storage w1;
                    entropy := snd (randomString 32 (entropy w1));
                    logged := logged w1; calls := calls w1 |}
        end /\
        registrationOptions options email w =
          draw (generateRegistrationOptions
                  {| gr_userID := userID;
                     gr_userName := userName;
                     gr_userDisplayName := userDisplayName;
                     gr_rpID := rp_id (relayingParty (provider options));
                     gr_rpName := rp_name (relayingParty (provider options));
                     gr_excludeCredentials := exclude;
                     gr_authenticatorSelection :=
                       {| residentKey := "preferred";
                          userVerification := "preferred";
                          requireResidentKey := true |} |}) w2 /\
        lists_credentials exclude ao) /\
  (forall email ao uo w1,
      getUserAndAuthenticators options email w = (Ok (ao, uo), w1) ->
      exists allow,
        authenticationOptions options email w =
          draw (generateAuthenticationOptions
                  {| ga_rpID := rp_id (relayingParty (provider options));
                     ga_allowCredentials := allow;
                     ga_userVerification := "preferred" |}) w1 /\
        lists_credentials allow ao /\
        (forall u auths,
            account_authenticators options gE lL lA email (storage w) u auths ->
            exists descs, allow = Some descs /\ Forall2 describes descs auths) /\
        (~ (exists u auths,
               account_authenticators options gE lL lA email (storage w) u auths /\
               auths <> []) ->
         unrestricted allow)).
Proof.
  intros Hcap. split.
  - intros email ao uo w1 Hrun.
    pose proof Hrun as Hk. eapply getUserAndAuthenticators_ok in Hk; [|exact Hcap].
    destruct Hk as (_ & _ & _ & Hu & Hao).
    split; [|split; [exact Hao|]].
    + intros u. rewrite Hu. split.
      * intros (e & [= <-] & Hne & Hg). auto.
      * intros (Hne & Hg). eauto.
    + unfold registrationOptions. unfold bind at 1. rewrite Hrun. simpl.
      destruct uo as [u|].
      * exists (user_id u), w1. do 2 eexists. exists (option_map (map descriptor) ao).
        split; [split; reflexivity|]. split; [|apply descriptor_lists].
        unfold bind at 1, ret at 1. apply bind_ret.
      * exists (fst (randomString 32 (entropy w1))).
        eexists. do 2 eexists. exists (option_map (map descriptor) ao).
        split; [split; reflexivity|]. split; [|apply descriptor_lists].
        unfold bind at 1, draw at 1.
        destruct (randomString 32 (entropy w1)) as [rs e']. simpl.
        apply bind_ret.
  - intros email ao uo w1 Hrun.
    pose proof Hrun as Hk. eapply getUserAndAuthenticators_ok in Hk; [|exact Hcap].
    destruct Hk as (_ & _ & _ & _ & Hao).
    exists (option_map (map descriptor) ao).
    split; [|split; [apply descriptor_lists|split]].
    + unfold authenticationOptions. unfold bind at 1. rewrite Hrun. simpl.
      apply bind_ret.
    + intros u auths H.
      assert (E : ao = Some auths) by (apply Hao; eauto).
      subst ao. exists (map descriptor auths). split; [reflexivity|].
      exact (descriptor_lists (Some auths)).
    + intros N. destruct ao as [[|x l]|]; simpl.
      * now right.
      * exfalso. apply N.
        destruct (proj1 (Hao (x :: l)) eq_refl) as (u & H).
        exists u, (x :: l). split; [assumption | discriminate].
      * now left.
Qed.

End OptionBuilders.

(** * Examples on the concrete collaborators *)

Section Examples.

#[local] Existing Instance Demo.collaborators.

Ltac run_as E t :=
  let r := eval vm_compute in t in
  assert (E : t = r) by (vm_compute; reflexivity).

Ltac by_running := vm_compute; reflexivity.

Lemma demo_capable (a : Adapter SpecAdapter.Storage) (c : PasskeyInputConfig)
    gA gU upd :
  getAuthenticator a = Some gA ->
  getUserByAccount a = Some gU ->
  updateAuthenticatorCounter a = Some upd ->
  capable (Demo.options_with (Some a) c) a gA gU upd.
Proof. intros HA HU HP. repeat split; assumption. Defined.

Lemma demo_reaches (o : Options SpecAdapter.Storage) (response : JsValue)
    (s : SpecAdapter.Storage) (c : Z) :
  secret o = "s3cret" ->
  response_id response = Some "cred-C" ->
  SpecAdapter.getAuthenticator Demo.credential_C s = Ok (Some (Demo.authenticator_C c)) ->
  reaches_library o (Demo.challenge_cookie "c1" "") response (Demo.world_of s)
    SpecAdapter.getAuthenticator Demo.cookie_c1 (Demo.authenticator_C c).
Proof.
  intros Hs Hid Hau. exists "cred-C". split; [exact Hid | split; [|exact Hau]].
  rewrite Hs. by_running.
Defined.

(** C4, on concrete requests: each failure in turn. *)
Lemma verifyAuthentication_failures_witness :
  verifyAuthentication (Demo.options_with None Demo.default_config)
    (Demo.challenge_cookie "c1" "") (Demo.assertion "c1" Demo.origin 6) Demo.world0
    = (Throw (MissingAdapter "WebaAuthn verifyAuthentication requires an adapter."),
       Demo.world0) /\
  (exists msg,
      verifyAuthentication (Demo.options_with (Some Demo.read_only) Demo.default_config)
        (Demo.challenge_cookie "c1" "") (Demo.assertion "c1" Demo.origin 6) Demo.world0
        = (Throw (MissingAdapterMethods msg), Demo.world0)) /\
  fst (verifyAuthentication Demo.options0 (Demo.challenge_cookie "c1" "")
         (JString "cred-C") Demo.world0)
    = Ok (SoftError "Invalid response.") /\
  fst (verifyAuthentication Demo.options0 [] (Demo.assertion "c1" Demo.origin 6)
         Demo.world0)
    = Ok (SoftError "Missing challenge cookie.") /\
  fst (verifyAuthentication Demo.options0 (Demo.challenge_cookie "c1" "")
         (JObject [("id", JString "cred-X")]) Demo.world0)
    = Ok (SoftError "Authenticator not found.") /\
  fst (verifyAuthentication Demo.options0 (Demo.challenge_cookie "c1" "")
         (JObject [("id", JString "cred-C")]) Demo.world0)
    = Ok (SoftError "missing authenticator response") /\
  fst (verifyAuthentication Demo.options0 (Demo.challenge_cookie "c1" "")
         (Demo.assertion "stale" Demo.origin 6) Demo.world0)
    = Ok (SoftError "Failed to verify response.").
Proof.
  assert (Hcap : capable Demo.options0 SpecAdapter.reference
                   SpecAdapter.getAuthenticator SpecAdapter.getUserByAccount
                   SpecAdapter.updateAuthenticatorCounter)
    by (apply demo_capable; reflexivity).
  split; [|split; [|split; [|split; [|split; [|split]]]]].
  - apply (verifyAuthentication_failures
             (Demo.options_with None Demo.default_config)
             (Demo.challenge_cookie "c1" "") (Demo.assertion "c1" Demo.origin 6)
             Demo.world0).
    reflexivity.
  - apply (proj1 (proj2 (verifyAuthentication_failures
             (Demo.options_with (Some Demo.read_only) Demo.default_config)
             (Demo.challenge_cookie "c1" "") (Demo.assertion "c1" Demo.origin 6)
             Demo.world0))
             Demo.read_only UpdateAuthenticatorCounter).
    + reflexivity.
    + simpl. auto.
    + reflexivity.
  - pose proof (verifyAuthentication_failures Demo.options0 (Demo.challenge_cookie "c1" "")
      (JString "cred-C") Demo.world0) as K.
    cbv zeta in K. destruct K as (_ & _ & K). specialize (K _ _ _ _ Hcap).
    apply K. intros (fields & s & H & _). discriminate H.
  - pose proof (verifyAuthentication_failures Demo.options0 (@nil (string * string))
      (Demo.assertion "c1" Demo.origin 6) Demo.world0) as K.
    cbv zeta in K. destruct K as (_ & _ & K). specialize (K _ _ _ _ Hcap).
    apply K.
    + eexists. eexists. split; reflexivity.
    + reflexivity.
  - pose proof (verifyAuthentication_failures Demo.options0 (Demo.challenge_cookie "c1" "")
      (JObject [("id", JString "cred-X")]) Demo.world0) as K.
    cbv zeta in K. destruct K as (_ & _ & K). specialize (K _ _ _ _ Hcap).
    destruct K as (_ & _ & K & _).
    apply K with (rid := "cred-X") (ck := Demo.cookie_c1); by_running.
  - pose proof (verifyAuthentication_failures Demo.options0 (Demo.challenge_cookie "c1" "")
      (JObject [("id", JString "cred-C")]) Demo.world0) as K.
    cbv zeta in K. destruct K as (_ & _ & K). specialize (K _ _ _ _ Hcap).
    destruct K as (_ & _ & _ & K & _).
    apply K with (ck := Demo.cookie_c1) (au := Demo.authenticator_C 5)
                 (e := External "missing authenticator response").
    + apply demo_reaches; reflexivity.
    + reflexivity.
  - pose proof (verifyAuthentication_failures Demo.options0 (Demo.challenge_cookie "c1" "")
      (Demo.assertion "stale" Demo.origin 6) Demo.world0) as K.
    cbv zeta in K. destruct K as (_ & _ & K). specialize (K _ _ _ _ Hcap).
    destruct K as (_ & _ & _ & _ & K).
    apply K with (ck := Demo.cookie_c1) (au := Demo.authenticator_C 5)
                 (v := {| auth_verified := false;
                          authenticationInfo := {| newCounter := 6 |} |}).
    + apply demo_reaches; reflexivity.
    + reflexivity.
    + reflexivity.
Defined.

(** C2, on the stored counter 5: a reported counter of 6 is stored and
    nothing is logged; a reported counter of 4 leaves 5 in storage and is
    logged; both requests return Alice and her account. *)
Lemma counter_update_witness :
  (fst (verifyAuthentication Demo.options0 (Demo.challenge_cookie "c1" "")
          (Demo.assertion "c1" Demo.origin 6) Demo.world0)
     = Ok (Verified {| user := Demo.alice; account := Demo.alice_account;
                       authenticator := None |}) /\
   SpecAdapter.stored_counter Demo.credential_C
     (storage (snd (verifyAuthentication Demo.options0 (Demo.challenge_cookie "c1" "")
                      (Demo.assertion "c1" Demo.origin 6) Demo.world0))) = Some 6%Z /\
   logged (snd (verifyAuthentication Demo.options0 (Demo.challenge_cookie "c1" "")
                  (Demo.assertion "c1" Demo.origin 6) Demo.world0)) = []) /\
  (fst (verifyAuthentication Demo.options0 (Demo.challenge_cookie "c1" "")
          (Demo.assertion "c1" Demo.origin 4) Demo.world0)
     = Ok (Verified {| user := Demo.alice; account := Demo.alice_account;
                       authenticator := None |}) /\
   storage (snd (verifyAuthentication Demo.options0 (Demo.challenge_cookie "c1" "")
                   (Demo.assertion "c1" Demo.origin 4) Demo.world0))
     = Demo.storage_with_counter 5 /\
   logged (snd (verifyAuthentication Demo.options0 (Demo.challenge_cookie "c1" "")
                  (Demo.assertion "c1" Demo.origin 4) Demo.world0))
     = [LogError (AdapterError SpecAdapter.counter_rejected)]).
Proof.
  pose proof (proj1 counter_update_monotone_and_nonfatal nat Demo.collaborators
                Demo.options0 (Demo.challenge_cookie "c1" "")) as H.
  split.
  - destruct (H (Demo.assertion "c1" Demo.origin 6) Demo.world0 Demo.cookie_c1
                (Demo.authenticator_C 5) (Demo.verified_with 6) Demo.alice)
      as (Hr & Hup & _); try reflexivity.
    { apply demo_reaches; reflexivity. }
    destruct Hup as (_ & Hc & Hl); [reflexivity|].
    split; [exact Hr | split; [exact Hc | exact Hl]].
  - destruct (H (Demo.assertion "c1" Demo.origin 4) Demo.world0 Demo.cookie_c1
                (Demo.authenticator_C 5) (Demo.verified_with 4) Demo.alice)
      as (Hr & _ & Hdown); try reflexivity.
    { apply demo_reaches; reflexivity. }
    destruct Hdown as (Hs & Hl); [discriminate|].
    split; [exact Hr | split; [exact Hs | exact Hl]].
Defined.

(** X1, with an adapter that stores the counter it is given: a reported
    counter of 4 replaces the stored 5. *)
Lemma verifyAuthentication_forwards_counter_witness :
  SpecAdapter.stored_counter Demo.credential_C
    (storage (snd (verifyAuthentication
                     (Demo.options_with (Some Demo.unchecked) Demo.default_config)
                     (Demo.challenge_cookie "c1" "")
                     (Demo.assertion "c1" Demo.origin 4) Demo.world0)))
    = Some 4%Z.
Proof.
  destruct (verifyAuthentication_forwards_counter
              (options := Demo.options_with (Some Demo.unchecked) Demo.default_config)
              (reqCookies := Demo.challenge_cookie "c1" "")
              (response := Demo.assertion "c1" Demo.origin 4)
              (w := Demo.world0)
              (a := Demo.unchecked) (gA := SpecAdapter.getAuthenticator)
              (gU := SpecAdapter.getUserByAccount) (upd := Demo.overwrite_counter)
              (ck := Demo.cookie_c1) (au := Demo.authenticator_C 5)
              (v := Demo.verified_with 4)) as (Hs & _).
  - apply demo_capable; reflexivity.
  - apply demo_reaches; reflexivity.
  - reflexivity.
  - reflexivity.
  - rewrite Hs. reflexivity.
Defined.

(** C7, on storage whose authenticator lost its account and user. *)
Lemma verifyAuthentication_orphan_witness :
  fst (verifyAuthentication Demo.options0 (Demo.challenge_cookie "c1" "")
         (Demo.assertion "c1" Demo.origin 6) (Demo.world_of Demo.orphan_storage))
    = Throw (WebAuthnVerificationErrorMsg
               "User not found. See debug logs for more details.").
Proof.
  apply (verifyAuthentication_orphan_throws
           (options := Demo.options0) (reqCookies := Demo.challenge_cookie "c1" "")
           (response := Demo.assertion "c1" Demo.origin 6)
           (w := Demo.world_of Demo.orphan_storage)
           (a := SpecAdapter.reference) (gA := SpecAdapter.getAuthenticator)
           (gU := SpecAdapter.getUserByAccount)
           (upd := SpecAdapter.updateAuthenticatorCounter)
           (ck := Demo.cookie_c1) (au := Demo.authenticator_C 5)
           (v := Demo.verified_with 6)).
  - apply demo_capable; reflexivity.
  - apply demo_reaches; reflexivity.
  - reflexivity.
  - reflexivity.
  - reflexivity.
Defined.

(** C6, on a response made for another Demo.origin: the library does not verify
    it, a soft error is returned, and storage is untouched. *)
Lemma verifiers_write_witness :
  fst (verifyAuthentication Demo.options0 (Demo.challenge_cookie "c1" "")
         (Demo.assertion "c1" "https://b.example" 6) Demo.world0)
    = Ok (SoftError "Failed to verify response.") /\
  storage (snd (verifyAuthentication Demo.options0 (Demo.challenge_cookie "c1" "")
                  (Demo.assertion "c1" "https://b.example" 6) Demo.world0))
    = storage Demo.world0.
Proof.
  split; [reflexivity|].
  destruct (proj2 (verifiers_write_only_after_verification Demo.options0
                     (Demo.challenge_cookie "c1" "")
                     (Demo.assertion "c1" "https://b.example" 6)
                     (JString "new@x.com") Demo.world0))
    as (trace & _ & _ & Hkeep & _ & Hsoft).
  apply Hkeep. apply (Hsoft "Failed to verify response."). reflexivity.
Defined.

(** C5 as stated fails: with a provider configured under the id "webauthn",
    a string email, a well-formed response, a cookie that carries a
    [providerAccountId] and a verified ceremony, the returned account's
    provider is "webauthn", not "passkey". *)
Lemma registration_account_provider_not_passkey :
  as_email (JString "new@x.com") = Some "new@x.com" /\
  response_id (Demo.attestation "c1" Demo.origin) = Some "cred-N" /\
  Demo.decodeSignedCookie "challenge" (Demo.challenge_cookie "c1" "gen-1") "s3cret"
    = Ok (Some {| challenge := "c1"; cookie_providerAccountId := Some "gen-1" |}) /\
  fst (verifyRegistration
         (Demo.options_with (Some SpecAdapter.reference) Demo.renamed_config)
         (Demo.challenge_cookie "c1" "gen-1") (Demo.attestation "c1" Demo.origin)
         (JString "new@x.com") Demo.world0)
    = Ok (Verified
            {| user := {| user_id := "new@x.com"; user_name := None;
                          user_email := "new@x.com"; user_emailVerified := None |};
               account := {| acc_userId := "new@x.com"; acc_type := "passkey";
                             acc_provider := "webauthn";
                             acc_providerAccountId := "gen-1" |};
               authenticator := Some Demo.new_authenticator |}) /\
  String.eqb "webauthn" "passkey" = false.
Proof. repeat split. Qed.

(** C5 (amended), on the default provider: the account's provider is
    "passkey". *)
Lemma verifyRegistration_result_witness :
  verifyRegistration Demo.options0 (Demo.challenge_cookie "c1" "gen-1")
    (Demo.attestation "c1" Demo.origin) (JString "new@x.com") Demo.world0
    = (Ok (Verified
             {| user := {| user_id := "new@x.com"; user_name := None;
                           user_email := "new@x.com"; user_emailVerified := None |};
                account := {| acc_userId := "new@x.com"; acc_type := "passkey";
                              acc_provider := "passkey";
                              acc_providerAccountId := "gen-1" |};
                authenticator := Some Demo.new_authenticator |}),
       Demo.world0) /\
  verifyRegistration Demo.options0 (Demo.challenge_cookie "c1" "gen-1")
    (Demo.attestation "c1" Demo.origin) JNull Demo.world0
    = (Ok (SoftError "Email is required for registration."), Demo.world0) /\
  verifyRegistration Demo.options0 (Demo.challenge_cookie "c1" "")
    (Demo.attestation "c1" Demo.origin) (JString "new@x.com") Demo.world0
    = (Ok (SoftError "Missing providerAccountId from challenge cookie."), Demo.world0).
Proof.
  assert (Hobj : object_with_string_id (Demo.attestation "c1" Demo.origin))
    by (eexists; eexists; split; reflexivity).
  split; [|split].
  - pose proof (verifyRegistration_result Demo.options0
                  (Demo.challenge_cookie "c1" "gen-1") (Demo.attestation "c1" Demo.origin)
                  (JString "new@x.com") Demo.world0) as H.
    cbv zeta in H. destruct H as (H & _).
    apply (H "new@x.com"
             {| challenge := "c1"; cookie_providerAccountId := Some "gen-1" |}
             "gen-1"
             {| reg_verified := true;
                registrationInfo :=
                  Some {| reg_counter := 0;
                          reg_credentialID := Demo.bufferFromBase64 "cred-N";
                          reg_credentialBackedUp := false;
                          reg_credentialDeviceType := "singleDevice";
                          reg_credentialPublicKey := [x01; x02; x03] |} |}
             {| reg_counter := 0;
                reg_credentialID := Demo.bufferFromBase64 "cred-N";
                reg_credentialBackedUp := false;
                reg_credentialDeviceType := "singleDevice";
                reg_credentialPublicKey := [x01; x02; x03] |}
             (JObject [("challenge", JString "c1"); ("origin", JString Demo.origin);
                       ("transports", JArray [JString "usb"])])
             (JArray [JString "usb"]));
      try reflexivity; try exact Hobj; discriminate.
  - pose proof (verifyRegistration_result Demo.options0
                  (Demo.challenge_cookie "c1" "gen-1") (Demo.attestation "c1" Demo.origin)
                  JNull Demo.world0) as H.
    cbv zeta in H. destruct H as (_ & H & _). apply H. discriminate.
  - pose proof (verifyRegistration_result Demo.options0
                  (Demo.challenge_cookie "c1" "") (Demo.attestation "c1" Demo.origin)
                  (JString "new@x.com") Demo.world0) as H.
    cbv zeta in H. destruct H as (_ & _ & H & _).
    apply (H "new@x.com" Demo.cookie_c1); try reflexivity. exact Hobj.
Defined.

(** C1 as stated fails: for an anonymous caller asking to "authenticate"
    with an email that no user has, the table demands an error, and both
    handlers issue authentication options. *)
Lemma decision_table_violated :
  Demo.routesSession Demo.options0 [] Demo.world0 = (Ok None, Demo.world0) /\
  SpecAdapter.getUserByEmail "ghost@x.com" (storage Demo.world0) = Ok None /\
  decision_table false true false (Some "authenticate") = [ResolveError None] /\
  outcome (fst (Routes.passkeyOptions Demo.options0 [] (Some "authenticate")
                  (Some "ghost@x.com") Demo.world0)) = DidAuthenticate /\
  outcome (fst (Types.passkeyOptions Demo.options0 [] (Some "authenticate")
                  (Some "ghost@x.com") Demo.world0)) = DidAuthenticate /\
  forallb (agrees DidAuthenticate)
          (decision_table false true false (Some "authenticate")) = false.
Proof. repeat split. Qed.

(** C3, on a registration for a new email and an authentication for
    Alice: the cookie is signed from the challenge of the returned options,
    with the generated user id for the registration and without a
    [providerAccountId] for the authentication. *)
Lemma issuance_cookie_witness :
  (exists resp w' regOptions,
      Types.doRegister Demo.options0 "new@x.com" Demo.world0 = (Ok resp, w') /\
      body resp = BodyOptions (RegisterReturn regOptions) /\
      ue_id (cre_user regOptions) = "generated-0" /\
      cookies resp
        = Some [{| cookie_name := "challenge";
                   cookie_value := "s3cret|" ++ cre_challenge regOptions
                                     ++ "|generated-0" |}]) /\
  (exists resp w' authOptions,
      Types.doAuthenticate Demo.options0 (Some "exists@x.com") Demo.world0
        = (Ok resp, w') /\
      body resp = BodyOptions (AuthenticateReturn authOptions) /\
      cookies resp
        = Some [{| cookie_name := "challenge";
                   cookie_value := "s3cret|" ++ req_challenge authOptions ++ "|" |}]).
Proof.
  pose proof (issuance_cookie_matches_options Demo.options0 [] None
                (Some "exists@x.com") "new@x.com" Demo.world0) as (Hreg & Hauth & _).
  split.
  - run_as E (Types.doRegister Demo.options0 "new@x.com" Demo.world0).
    destruct (Hreg _ _ E) as (ro & cookie & Hb & Hc & Hs).
    do 3 eexists. split; [exact E|]. split; [exact Hb|].
    simpl in Hb. injection Hb as <-. split; [reflexivity|].
    rewrite Hc. simpl in Hs. injection Hs as <-. reflexivity.
  - run_as E (Types.doAuthenticate Demo.options0 (Some "exists@x.com") Demo.world0).
    destruct (Hauth _ _ E) as (ao & cookie & Hb & Hc & Hs).
    do 3 eexists. split; [exact E|]. split; [exact Hb|].
    simpl in Hb. injection Hb as <-.
    rewrite Hc. simpl in Hs. injection Hs as <-. reflexivity.
Defined.

Lemma demo_capable_of_options :
  capable_of_options Demo.options0 SpecAdapter.reference
    SpecAdapter.getUserByEmail SpecAdapter.listLinkedAccounts
    SpecAdapter.listAuthenticatorsByAccountId.
Proof. repeat split. Defined.

Lemma described_by_C (l : option (list CredentialDescriptor)) :
  lists_credentials l (Some [Demo.authenticator_C 5]) ->
  l = Some [Demo.descriptor_C].
Proof.
  destruct l as [descs|]; simpl; [|contradiction].
  intros H. inversion H as [|d a0 rest l0 (Hi & Ht & Hr) Hrest]; subst.
  inversion Hrest; subst.
  destruct d as [i t r]. simpl in Hi, Ht, Hr. subst. reflexivity.
Defined.

Lemma described_by_none (l : option (list CredentialDescriptor)) :
  lists_credentials l None -> l = None.
Proof. destruct l; simpl; [contradiction | reflexivity]. Defined.

(** C8, with a library whose options show the credential list it was
    given: for Alice, who has credential C, both builders hand it that
    credential with the type "public-key" and its transports, and for no
    email, or an email nobody has, no list at all. *)
Lemma option_builders_witness :
  fst (@authenticationOptions _ _ Scenario.echoing Demo.options0
         (Some "exists@x.com") Demo.world0)
    = Ok {| req_challenge := "challenge-0";
            req_rest :=
              JObject [("rpId", JString "example.com");
                       ("allowCredentials",
                        JArray [JObject [("id", JString "cred-C");
                                         ("type", JString "public-key");
                                         ("transports", JArray [JString "internal"])]]);
                       ("userVerification", JString "preferred")] |} /\
  fst (@authenticationOptions _ _ Scenario.echoing Demo.options0 None Demo.world0)
    = Ok {| req_challenge := "challenge-0";
            req_rest :=
              JObject [("rpId", JString "example.com");
                       ("allowCredentials", JUndefined);
                       ("userVerification", JString "preferred")] |} /\
  (exists opts w2,
      @registrationOptions _ _ Scenario.echoing Demo.options0 "exists@x.com"
        Demo.world0 = (Ok opts, w2) /\
      ue_id (cre_user opts) = "user-1" /\
      cre_rest opts
        = JObject [("rpId", JString "example.com");
                   ("excludeCredentials",
                    JArray [JObject [("id", JString "cred-C");
                                     ("type", JString "public-key");
                                     ("transports", JArray [JString "internal"])]]);
                   ("residentKey", JString "preferred");
                   ("userVerification", JString "preferred");
                   ("requireResidentKey", JBool true)]) /\
  (exists opts w2,
      @registrationOptions _ _ Scenario.echoing Demo.options0 "new@x.com"
        Demo.world0 = (Ok opts, w2) /\
      ue_id (cre_user opts) = "generated-0" /\
      cre_rest opts
        = JObject [("rpId", JString "example.com");
                   ("excludeCredentials", JUndefined);
                   ("residentKey", JString "preferred");
                   ("userVerification", JString "preferred");
                   ("requireResidentKey", JBool true)]).
Proof.
  pose proof (@option_builders_request _ _ Scenario.echoing _ _ _ _ _
                Demo.world0 demo_capable_of_options) as (Hreg & Hauth).
  split; [|split; [|split]].
  - run_as E (getUserAndAuthenticators Demo.options0 (Some "exists@x.com") Demo.world0).
    destruct (Hauth _ _ _ _ E) as (allow & H & Hl & _).
    apply described_by_C in Hl. subst allow. rewrite H. reflexivity.
  - run_as E (getUserAndAuthenticators Demo.options0 None Demo.world0).
    destruct (Hauth _ _ _ _ E) as (allow & H & Hl & _).
    apply described_by_none in Hl. subst allow. rewrite H. reflexivity.
  - run_as E (getUserAndAuthenticators Demo.options0 (Some "exists@x.com") Demo.world0).
    destruct (Hreg _ _ _ _ E)
      as (_ & _ & userID & w2 & un & ud & exclude & (-> & ->) & H & Hl).
    apply described_by_C in Hl. subst exclude. rewrite H.
    do 2 eexists. split; [reflexivity|]. split; reflexivity.
  - run_as E (getUserAndAuthenticators Demo.options0 (Some "new@x.com") Demo.world0).
    destruct (Hreg _ _ _ _ E)
      as (_ & _ & userID & w2 & un & ud & exclude & (-> & ->) & H & Hl).
    apply described_by_none in Hl. subst exclude. rewrite H.
    do 2 eexists. split; [reflexivity|]. split; reflexivity.
Defined.

(** C9: the two handlers are not extensionally equal.  For a user logged in
    as Alice who asks to "register" and passes another email, the if/else
    handler issues registration options and the switch-based handler
    answers 400 "Invalid action/email combination". *)
Theorem handlers_differ :
  exists (options : Options SpecAdapter.Storage) (sessionStore : SessionStore)
         (action queryEmail : option string) (w : World SpecAdapter.Storage nat),
    Demo.routesSession options sessionStore w
      = (Ok (Some {| session_user :=
                       Some {| session_email := Some "exists@x.com" |} |}), w) /\
    action = Some "register" /\
    queryEmail = Some "other@x.com" /\
    SpecAdapter.getUserByEmail "other@x.com" (storage w) = Ok None /\
    outcome (fst (Routes.passkeyOptions options sessionStore action queryEmail w))
      = DidRegister /\
    outcome (fst (Types.passkeyOptions options sessionStore action queryEmail w))
      = DidFail "Invalid action/email combination" /\
    Routes.passkeyOptions options sessionStore action queryEmail w
      <> Types.passkeyOptions options sessionStore action queryEmail w.
Proof.
  exists Demo.options0, [("session", "exists@x.com")], (Some "register"),
         (Some "other@x.com"), Demo.world0.
  repeat split. intros H.
  apply (f_equal (fun r => outcome (fst r))) in H. vm_compute in H. discriminate H.
Qed.

End Examples.

(** * Further properties of the verifiers *)

Section VerifierExtras.

Context {S R : Type} {C : Collaborators S R}.

(** X2: a verified authentication returns the user the adapter resolves for
    [(provider.id, authenticator.providerAccountId)] of the stored
    authenticator, with an account that links the two, and no
    authenticator. *)
Theorem verifyAuthentication_success
    options reqCookies response (w : World S R) a gA gU upd ck au v u :
  capable options a gA gU upd ->
  reaches_library options reqCookies response w gA ck au ->
  verifyAuthenticationResponse (library_authentication_args options response au ck)
    = Ok v ->
  auth_verified v = true ->
  gU (provider_id (provider options)) (providerAccountId au)
     (snd (upd au (newCounter (authenticationInfo v)) (storage w))) = Ok (Some u) ->
  fst (verifyAuthentication options reqCookies response w)
    = Ok (Verified
            {| user := u;
               account := {| acc_userId := user_id u;
                             acc_type := provider_type (provider options);
                             acc_provider := provider_id (provider options);
                             acc_providerAccountId := providerAccountId au |};
               authenticator := None |}).
Proof.
  intros Hcap Hreach Hlib Hv Hu.
  erewrite verifyAuthentication_verified by eassumption.
  now rewrite Hu.
Qed.

(** X3: [verifyAuthentication] reads nothing of the challenge cookie but its
    challenge: two requests whose cookies decode to payloads with the same
    challenge are treated alike, whatever [providerAccountId] they carry. *)
Theorem verifyAuthentication_cookie_challenge_only
    options reqCookies1 reqCookies2 response (w : World S R) ck1 ck2 :
  decodeSignedCookie "challenge" reqCookies1 (secret options) = Ok (Some ck1) ->
  decodeSignedCookie "challenge" reqCookies2 (secret options) = Ok (Some ck2) ->
  challenge ck1 = challenge ck2 ->
  verifyAuthentication options reqCookies1 response w
    = verifyAuthentication options reqCookies2 response w.
Proof.
  intros H1 H2 Hc. unfold verifyAuthentication.
  destruct (adapter options) as [a|]; [|reflexivity].
  apply bind_ext. intros _ w1.
  destruct (response_id response) as [rid|]; [|reflexivity].
  unfold bind at 1 3, lift. rewrite H1, H2, Hc. reflexivity.
Qed.

(** X4: a challenge cookie without a (non-empty) [providerAccountId], such
    as the one an authentication issuance sets, cannot complete a
    registration: [verifyRegistration] answers one of its soft errors and
    leaves the world as it is. *)
Theorem verifyRegistration_needs_registration_cookie
    options reqCookies response email (w : World S R) ck :
  decodeSignedCookie "challenge" reqCookies (secret options) = Ok (Some ck) ->
  truthy (cookie_providerAccountId ck) = false ->
  let out := verifyRegistration options reqCookies response email w in
  snd out = w /\
  (fst out = Ok (SoftError "Email is required for registration.") \/
   fst out = Ok (SoftError "Invalid response.") \/
   fst out = Ok (SoftError "Missing providerAccountId from challenge cookie.")).
Proof.
  intros Hck Hpid out. subst out.
  destruct (as_email email) as [e|] eqn:He.
  2:{ rewrite verifyRegistration_email_required by assumption. auto. }
  destruct (response_id response) as [rid|] eqn:Hid.
  2:{ unfold verifyRegistration. rewrite He, Hid. auto. }
  erewrite verifyRegistration_no_account_id by eassumption. auto.
Qed.

(** X7: [verifyRegistration] changes nothing but the log, and the log only
    when the ceremony library throws: then the wrapped error is logged once
    and its message is the soft error returned. *)
Theorem verifyRegistration_world
    options reqCookies response email (w : World S R) :
  let out := verifyRegistration options reqCookies response email w in
  snd out = w \/
  exists ck e,
    decodeSignedCookie "challenge" reqCookies (secret options) = Ok (Some ck) /\
    verifyRegistrationResponse (library_registration_args options response ck)
      = Throw e /\
    fst out = Ok (SoftError (errorMessage (WebAuthnVerificationError e))) /\
    snd out = {| storage := storage w; entropy := entropy w;
                 logged := logged w ++ [LogError (WebAuthnVerificationError e)];
                 calls := calls w |}.
Proof.
  intros out. subst out.
  unfold verifyRegistration, attempt, lift, bind, ret, log, library_registration_args.
  destruct (as_email email) as [em|]; [|now left].
  destruct (response_id response) as [rid|]; [|now left].
  destruct (decodeSignedCookie "challenge" reqCookies (secret options))
    as [[ck|]|err]; simpl; [|now left|now left].
  destruct (cookie_providerAccountId ck) as [pid|]; [|now left].
  destruct (pid =? ""); simpl; [now left|].
  destruct (verifyRegistrationResponse _) as [v|err] eqn:Hlib; simpl.
  - left. destruct (reg_verified v); [|reflexivity].
    destruct (registrationInfo v) as [ri|]; [|reflexivity].
    destruct (get_property response "response") as [inner|e1]; [|reflexivity].
    destruct (get_property inner "transports") as [t|e2]; reflexivity.
  - right. exists ck, err. auto.
Qed.

(** X8: only the ceremony library's exceptions are softened by
    [verifyAuthentication].  What the cookie codec throws, what
    [getAuthenticator] throws, and what [getUserByAccount] throws after a
    verified ceremony, is thrown on to the caller. *)
Theorem verifyAuthentication_rethrows
    options reqCookies response (w : World S R) a gA gU upd e :
  capable options a gA gU upd ->
  let out := verifyAuthentication options reqCookies response w in
  (forall rid,
      response_id response = Some rid ->
      decodeSignedCookie "challenge" reqCookies (secret options) = Throw e ->
      out = (Throw e, w)) /\
  (forall rid ck,
      response_id response = Some rid ->
      decodeSignedCookie "challenge" reqCookies (secret options) = Ok (Some ck) ->
      gA (bufferFromBase64 rid) (storage w) = Throw e ->
      fst out = Throw e /\ storage (snd out) = storage w) /\
  (forall ck au v,
      reaches_library options reqCookies response w gA ck au ->
      verifyAuthenticationResponse
        (library_authentication_args options response au ck) = Ok v ->
      auth_verified v = true ->
      gU (provider_id (provider options)) (providerAccountId au)
         (snd (upd au (newCounter (authenticationInfo v)) (storage w))) = Throw e ->
      fst out = Throw e).
Proof.
  intros Hcap out. subst out. split; [|split].
  - intros rid Hid Hck. eapply verifyAuthentication_codec_throws; eassumption.
  - intros rid ck Hid Hck Hau.
    erewrite verifyAuthentication_lookup_throws by eassumption. auto.
  - intros ck au v Hreach Hlib Hv Hu.
    erewrite verifyAuthentication_verified by eassumption. now rewrite Hu.
Qed.

End VerifierExtras.

(** * From issuance to verification *)

Section Ceremony.

Context {S R : Type} {C : Collaborators S R}.

(** A client that returns the cookie of an issuing response presents the
    payload of the issued options, when the codec reads back what it
    signed. *)
Lemma returned_cookie_decodes options resp r :
  carries_challenge options resp ->
  body resp = BodyOptions r ->
  codec_reads_back options (issued_cookie_data r) ->
  decodeSignedCookie "challenge" (returned_cookies resp) (secret options)
    = Ok (Some (issued_cookie_data r)).
Proof.
  unfold carries_challenge. intros Hc Hb Hrt. rewrite Hb in Hc.
  destruct Hc as (_ & cookie & Hcs & Hsign).
  unfold returned_cookies. rewrite Hcs. simpl. now apply Hrt.
Qed.

Lemma handler_carries options sessionStore action queryEmail (w w1 : World S R) resp :
  Routes.passkeyOptions options sessionStore action queryEmail w = (Ok resp, w1) \/
  Types.passkeyOptions options sessionStore action queryEmail w = (Ok resp, w1) ->
  carries_challenge options resp.
Proof. intros [H|H]; [eapply routes_carries | eapply types_carries]; eassumption. Qed.

(** X5: a registration completes against the options it was issued for.
    When either handler answered with registration options and the client
    returns the cookie it was given, [verifyRegistration] has the library
    check the response against the issued challenge, and on success the
    account and the authenticator carry the [user.id] of the issued options
    as [providerAccountId]. *)
Theorem issued_registration_verifies
    options sessionStore action queryEmail (w w1 w2 : World S R)
    resp regOptions response e v ri inner t :
  Routes.passkeyOptions options sessionStore action queryEmail w = (Ok resp, w1) \/
  Types.passkeyOptions options sessionStore action queryEmail w = (Ok resp, w1) ->
  body resp = BodyOptions (RegisterReturn regOptions) ->
  codec_reads_back options (issued_cookie_data (RegisterReturn regOptions)) ->
  ue_id (cre_user regOptions) <> "" ->
  object_with_string_id response ->
  verifyRegistrationResponse
    {| vr_response := response;
       vr_expectedChallenge := cre_challenge regOptions;
       vr_expectedOrigin := rp_origin (relayingParty (provider options));
       vr_expectedRPID := rp_id (relayingParty (provider options));
       vr_requireUserVerification := true |} = Ok v ->
  reg_verified v = true ->
  registrationInfo v = Some ri ->
  get_property response "response" = Ok inner ->
  get_property inner "transports" = Ok t ->
  verifyRegistration options (returned_cookies resp) response (JString e) w2
    = (Ok (Verified
             {| user := {| user_id := e; user_name := None; user_email := e;
                           user_emailVerified := None |};
                account := {| acc_userId := e;
                              acc_type := provider_type (provider options);
                              acc_provider := provider_id (provider options);
                              acc_providerAccountId := ue_id (cre_user regOptions) |};
                authenticator :=
                  Some {| providerAccountId := ue_id (cre_user regOptions);
                          counter := reg_counter ri;
                          credentialID := reg_credentialID ri;
                          credentialBackedUp := reg_credentialBackedUp ri;
                          credentialDeviceType := reg_credentialDeviceType ri;
                          credentialPublicKey := reg_credentialPublicKey ri;
                          transports := t |} |}),
       w2).
Proof.
  intros Hissued Hb Hrt Hne (fields & s & -> & L) Hlib Hv Hri Hinner Ht.
  assert (Hc : carries_challenge options resp)
    by (eapply handler_carries; eassumption).
  assert (Hck : decodeSignedCookie "challenge" (returned_cookies resp) (secret options)
                = Ok (Some (issued_cookie_data (RegisterReturn regOptions))))
    by (eapply returned_cookie_decodes; eassumption).
  assert (Hid : response_id (JObject fields) = Some s)
    by (apply response_id_some; eauto).
  eapply verifyRegistration_verified;
    solve [eassumption | reflexivity].
Qed.

(** X6: an authentication is checked against the challenge that was issued.
    When either handler answered with authentication options and the client
    returns the cookie it was given, [verifyAuthentication] hands the
    library the issued challenge: a response the library does not verify
    against it is refused, and one it verifies signs the owner in. *)
Theorem issued_authentication_verifies
    options sessionStore action queryEmail (w w1 w2 : World S R)
    resp authOptions response a gA gU upd rid au v :
  Routes.passkeyOptions options sessionStore action queryEmail w = (Ok resp, w1) \/
  Types.passkeyOptions options sessionStore action queryEmail w = (Ok resp, w1) ->
  body resp = BodyOptions (AuthenticateReturn authOptions) ->
  codec_reads_back options (issued_cookie_data (AuthenticateReturn authOptions)) ->
  capable options a gA gU upd ->
  response_id response = Some rid ->
  gA (bufferFromBase64 rid) (storage w2) = Ok (Some au) ->
  verifyAuthenticationResponse
    {| va_response := response;
       va_authenticator := au;
       va_expectedChallenge := req_challenge authOptions;
       va_expectedOrigin := rp_origin (relayingParty (provider options));
       va_expectedRPID := rp_id (relayingParty (provider options));
       va_requireUserVerification := true |} = Ok v ->
  let out := verifyAuthentication options (returned_cookies resp) response w2 in
  (auth_verified v = false ->
   fst out = Ok (SoftError "Failed to verify response.") /\
   storage (snd out) = storage w2) /\
  (auth_verified v = true ->
   forall u,
     gU (provider_id (provider options)) (providerAccountId au)
        (snd (upd au (newCounter (authenticationInfo v)) (storage w2))) = Ok (Some u) ->
     fst out = Ok (Verified {| user := u; account := account_of options u au;
                               authenticator := None |})).
Proof.
  intros Hissued Hb Hrt Hcap Hid Hau Hlib out. subst out.
  assert (Hc : carries_challenge options resp)
    by (eapply handler_carries; eassumption).
  assert (Hck : decodeSignedCookie "challenge" (returned_cookies resp) (secret options)
                = Ok (Some (issued_cookie_data (AuthenticateReturn authOptions))))
    by (eapply returned_cookie_decodes; eassumption).
  assert (Hreach : reaches_library options (returned_cookies resp) response w2 gA
                     (issued_cookie_data (AuthenticateReturn authOptions)) au)
    by (exists rid; auto).
  split.
  - intros Hv. erewrite verifyAuthentication_not_verified by eassumption. auto.
  - intros Hv u Hu. erewrite verifyAuthentication_verified by eassumption.
    now rewrite Hu.
Qed.

End Ceremony.

(** * Further properties of the options builders and handlers *)

Section ReadsOnly.

Context {S R : Type} {C : Collaborators S R}.

Lemma reads_only_ret {A : Type} (a : A) : reads_only (S := S) (R := R) (ret a).
Proof. intros w. split; reflexivity. Qed.

Lemma reads_only_throw {A : Type} (e : Thrown) :
  reads_only (S := S) (R := R) (throw (A := A) e).
Proof. intros w. split; reflexivity. Qed.

Lemma reads_only_lift {A : Type} (r : Result A) : reads_only (S := S) (R := R) (lift r).
Proof. intros w. split; reflexivity. Qed.

Lemma reads_only_draw {A : Type} (f : R -> Result A * R) :
  reads_only (S := S) (draw f).
Proof. intros w. unfold draw. destruct (f (entropy w)). split; reflexivity. Qed.

Lemma reads_only_adapter_read {A : Type} (m : AdapterMethod)
    (f : option (S -> Result A)) :
  reads_only (R := R) (adapter_read m f).
Proof. intros w. destruct f; split; reflexivity. Qed.

Lemma reads_only_bind {A B : Type} (m : M S R A) (k : A -> M S R B) :
  reads_only m -> (forall a, reads_only (k a)) -> reads_only (bind m k).
Proof.
  intros Hm Hk w. unfold bind. specialize (Hm w).
  destruct (m w) as [[a|e] w1]; simpl in Hm.
  - destruct (Hk a w1) as (Hs & Hl). destruct Hm as (Hs1 & Hl1). split; congruence.
  - exact Hm.
Qed.

Lemma reads_only_assert prefix (a : Adapter S) ms :
  reads_only (R := R) (assertAdapterImplementsMethods prefix a ms).
Proof.
  unfold assertAdapterImplementsMethods.
  destruct (filter _ ms); [apply reads_only_ret | apply reads_only_throw].
Qed.

Ltac reads :=
  repeat first
    [ apply reads_only_ret | apply reads_only_throw | apply reads_only_lift
    | apply reads_only_draw | apply reads_only_adapter_read
    | apply reads_only_assert
    | apply reads_only_bind; [|intros ?]
    | match goal with
      | |- reads_only (match ?x with _ => _ end) => destruct x
      | |- reads_only (let (_, _) := ?x in _) => destruct x
      end ].

Lemma reads_only_getUserAndAuthenticators options email :
  reads_only (S := S) (R := R) (getUserAndAuthenticators options email).
Proof. unfold getUserAndAuthenticators. reads. Qed.

Lemma reads_only_authenticationOptions options email :
  reads_only (S := S) (R := R) (authenticationOptions options email).
Proof.
  unfold authenticationOptions.
  apply reads_only_bind; [apply reads_only_getUserAndAuthenticators | intros got].
  reads.
Qed.

Lemma reads_only_registrationOptions options email :
  reads_only (S := S) (R := R) (registrationOptions options email).
Proof.
  unfold registrationOptions.
  apply reads_only_bind; [apply reads_only_getUserAndAuthenticators | intros got].
  cbv zeta. reads.
Qed.

Lemma reads_only_doRegister options email :
  reads_only (S := S) (R := R) (Types.doRegister options email).
Proof.
  unfold Types.doRegister.
  apply reads_only_bind; [apply reads_only_registrationOptions | intros ro].
  reads.
Qed.

Lemma reads_only_doAuthenticate options email :
  reads_only (S := S) (R := R) (Types.doAuthenticate options email).
Proof.
  unfold Types.doAuthenticate.
  apply reads_only_bind; [apply reads_only_authenticationOptions | intros ao].
  reads.
Qed.

Lemma reads_only_lookup options email :
  reads_only (S := S) (R := R) (optional_getUserByEmail options email).
Proof. unfold optional_getUserByEmail. reads. Qed.

Lemma reads_only_register_branch options email :
  reads_only (S := S) (R := R) (register_branch options email).
Proof.
  unfold register_branch.
  destruct (truthy email); [apply reads_only_doRegister | apply reads_only_ret].
Qed.

(** After [m], a computation that only reads leaves what [m] left. *)
Lemma after_reads_only {A B : Type} (m : M S R A) (k : A -> M S R B) (w : World S R) :
  (forall a, reads_only (k a)) ->
  storage (snd (bind m k w)) = storage (snd (m w)) /\
  logged (snd (bind m k w)) = logged (snd (m w)).
Proof.
  intros Hk. unfold bind. destruct (m w) as [[a|e] w1]; simpl.
  - apply Hk.
  - auto.
Qed.

(** X9: issuing options never writes to storage and never logs.  The
    builders and [doRegister] / [doAuthenticate] leave both as they are in
    every run, failing ones included, and what a handler leaves is what its
    session lookup left. *)
Theorem issuance_reads_only options sessionStore action queryEmail email
    (w : World S R) :
  reads_only (S := S) (R := R) (getUserAndAuthenticators options queryEmail) /\
  reads_only (S := S) (R := R) (authenticationOptions options queryEmail) /\
  reads_only (S := S) (R := R) (registrationOptions options email) /\
  reads_only (S := S) (R := R) (Types.doRegister options email) /\
  reads_only (S := S) (R := R) (Types.doAuthenticate options queryEmail) /\
  (storage (snd (Routes.passkeyOptions options sessionStore action queryEmail w))
     = storage (snd (routesSession options sessionStore w)) /\
   logged (snd (Routes.passkeyOptions options sessionStore action queryEmail w))
     = logged (snd (routesSession options sessionStore w))) /\
  (storage (snd (Types.passkeyOptions options sessionStore action queryEmail w))
     = storage (snd (routesSession options sessionStore w)) /\
   logged (snd (Types.passkeyOptions options sessionStore action queryEmail w))
     = logged (snd (routesSession options sessionStore w))).
Proof.
  split; [apply reads_only_getUserAndAuthenticators|].
  split; [apply reads_only_authenticationOptions|].
  split; [apply reads_only_registrationOptions|].
  split; [apply reads_only_doRegister|].
  split; [apply reads_only_doAuthenticate|].
  split.
  - rewrite routes_dispatch. apply after_reads_only. intros cs. cbv zeta.
    repeat first
      [ apply reads_only_ret | apply reads_only_doAuthenticate
      | apply reads_only_register_branch | apply reads_only_lookup
      | apply reads_only_bind; [|intros ?]
      | match goal with
        | |- reads_only (if ?x then _ else _) => destruct x
        end ].
  - unfold Types.passkeyOptions. apply after_reads_only. intros cs. cbv zeta.
    repeat first
      [ apply reads_only_ret | apply reads_only_doAuthenticate
      | apply reads_only_doRegister | apply reads_only_lookup
      | apply reads_only_bind; [|intros ?]
      | match goal with
        | |- reads_only (if ?x then _ else _) => destruct x
        | |- reads_only (match ?x with _ => _ end) => destruct x
        end ].
Qed.

End ReadsOnly.

Section BuilderExtras.

Context {S R : Type} {C : Collaborators S R}.

(** X10: [getUserAndAuthenticators] stops at the first lookup that finds
    nothing.  Without an email, or with an empty one, it calls no adapter
    method; when no user has the email it calls [getUserByEmail] alone; and
    for a user without an account of the provider (a missing list of linked
    accounts counting as empty) it returns the user, no authenticators, and
    never calls [listAuthenticatorsByAccountId]. *)
Theorem getUserAndAuthenticators_short_circuits
    options a gE lL lA email (w : World S R) :
  capable_of_options options a gE lL lA ->
  let out := getUserAndAuthenticators options email w in
  (truthy email = false -> out = (Ok (None, None), w)) /\
  (forall e,
      email = Some e -> e <> "" ->
      gE e (storage w) = Ok None ->
      out = (Ok (None, None),
             {| storage := storage w; entropy := entropy w; logged := logged w;
                calls := calls w ++ [GetUserByEmail] |})) /\
  (forall e u linked,
      email = Some e -> e <> "" ->
      gE e (storage w) = Ok (Some u) ->
      lL (user_id u) (storage w) = Ok linked ->
      provider_account options linked = None ->
      out = (Ok (None, Some u),
             {| storage := storage w; entropy := entropy w; logged := logged w;
                calls := calls w ++ [GetUserByEmail; ListLinkedAccounts] |})).
Proof.
  intros Hcap out. subst out. pose proof Hcap as (Ha & HE & HL & HA).
  unfold getUserAndAuthenticators. rewrite Ha.
  unfold bind, ret, adapter_read, record_call, provider_account.
  erewrite capable_of_options_asserted by eassumption.
  rewrite HE, HL, HA.
  split; [|split].
  - intros Ht. destruct email as [e|]; [|reflexivity]. now rewrite Ht.
  - intros e -> Hne Hu. simpl.
    destruct (String.eqb_spec e ""); [contradiction|]. simpl. now rewrite Hu.
  - intros e u linked -> Hne Hu Hl Hf. simpl.
    destruct (String.eqb_spec e ""); [contradiction|]. simpl.
    rewrite Hu. simpl. rewrite Hl. simpl. rewrite Hf. simpl.
    rewrite <- app_assoc. reflexivity.
Qed.

(** X11: the names [registrationOptions] hands to the library.  The user
    name is the existing user's name, else that user's stored email, else
    the email given; and the display name is always the same string. *)
Theorem registrationOptions_names options email (w w1 : World S R) ao uo :
  getUserAndAuthenticators options (Some email) w = (Ok (ao, uo), w1) ->
  exists args w2,
    registrationOptions options email w = draw (generateRegistrationOptions args) w2 /\
    gr_userName args
      = match uo with
        | Some u => match user_name u with Some n => n | None => user_email u end
        | None => email
        end /\
    gr_userDisplayName args = gr_userName args /\
    gr_rpID args = rp_id (relayingParty (provider options)) /\
    gr_rpName args = rp_name (relayingParty (provider options)).
Proof.
  intros Hrun. unfold registrationOptions. unfold bind at 1. rewrite Hrun. simpl.
  destruct uo as [u|].
  - unfold bind at 1, ret at 1. eexists. eexists. split; [apply bind_ret|].
    simpl. destruct (user_name u); auto.
  - unfold bind at 1, draw at 1.
    destruct (randomString 32 (entropy w1)) as [rs e']. simpl.
    eexists. eexists. split; [apply bind_ret|]. simpl. auto.
Qed.

End BuilderExtras.

Section HandlerExtras.

Context {S R : Type} {C : Collaborators S R}.

Lemma returns_only_bind {A : Type} P (m : M S R A) (k : A -> M S R ResponseInternal) :
  (forall a, returns_only P (k a)) -> returns_only P (bind m k).
Proof.
  intros Hk w resp w' H. apply bind_ok in H as (a & w1 & _ & H). eapply Hk; eassumption.
Qed.

Lemma returns_only_ret (P : ResponseInternal -> Prop) resp :
  P resp -> returns_only (S := S) (R := R) P (ret resp).
Proof. intros H w r w' [= <- _]. exact H. Qed.

(** What holds of the responses of [doAuthenticate], [doRegister] and of
    the 400 responses holds of every response of the if/else handler. *)
Lemma routes_returns_only P options sessionStore action queryEmail :
  (forall email, returns_only P (Types.doAuthenticate options email)) ->
  (forall email, returns_only P (Types.doRegister options email)) ->
  (forall msg, P (bad_request msg)) ->
  returns_only P (Routes.passkeyOptions options sessionStore action queryEmail).
Proof.
  intros Hauth Hreg Hbad w resp w'. rewrite routes_dispatch. revert w resp w'.
  assert (Hbranch : forall email, returns_only P (register_branch options email)).
  { intros email. unfold register_branch.
    destruct (truthy email); [apply Hreg | apply returns_only_ret, Hbad]. }
  apply returns_only_bind. intros cs. cbv zeta.
  repeat first
    [ apply Hauth | apply Hbranch | apply returns_only_ret, Hbad
    | apply returns_only_bind; intros ?
    | match goal with
      | |- returns_only _ (if ?x then _ else _) => destruct x
      end ].
Qed.

(** The same for the switch-based handler. *)
Lemma types_returns_only P options sessionStore action queryEmail :
  (forall email, returns_only P (Types.doAuthenticate options email)) ->
  (forall email, returns_only P (Types.doRegister options email)) ->
  (forall msg, P (bad_request msg)) ->
  returns_only P (Types.passkeyOptions options sessionStore action queryEmail).
Proof.
  intros Hauth Hreg Hbad. unfold Types.passkeyOptions.
  apply returns_only_bind. intros cs. cbv zeta.
  apply returns_only_bind. intros userExists.
  repeat first
    [ apply Hauth | apply Hreg
    | apply (returns_only_ret P), (Hbad "Invalid action/email combination")
    | match goal with
      | |- returns_only _ (if ?x then _ else _) => destruct x
      | |- returns_only _ (match ?x with _ => _ end) => destruct x
      end ].
Qed.

Lemma doRegister_shape options email :
  returns_only response_shape (Types.doRegister options email).
Proof.
  intros w resp w' H. unfold Types.doRegister in H.
  apply bind_ok in H as (ro & w1 & _ & H).
  apply bind_ok in H as (cookie & w2 & _ & H).
  unfold ret in H. injection H as <- _.
  unfold response_shape. simpl. eauto.
Qed.

Lemma doAuthenticate_shape options email :
  returns_only response_shape (Types.doAuthenticate options email).
Proof.
  intros w resp w' H. unfold Types.doAuthenticate in H.
  apply bind_ok in H as (ao & w1 & _ & H).
  apply bind_ok in H as (cookie & w2 & _ & H).
  unfold ret in H. injection H as <- _.
  unfold response_shape. simpl. eauto.
Qed.

(** X12: every response a handler returns is either options with status 200
    and exactly one cookie, or a message with status 400 and no cookie. *)
Theorem handlers_response_shape options sessionStore action queryEmail
    (w w' : World S R) resp :
  Routes.passkeyOptions options sessionStore action queryEmail w = (Ok resp, w') \/
  Types.passkeyOptions options sessionStore action queryEmail w = (Ok resp, w') ->
  response_shape resp.
Proof.
  intros [H|H]; revert H;
    [apply routes_returns_only | apply types_returns_only];
    first [ intros email; apply doAuthenticate_shape
          | intros email; apply doRegister_shape
          | intros msg; split; reflexivity ].
Qed.

Lemma builders_need_adapter options email (w : World S R) :
  adapter options = None ->
  getUserAndAuthenticators options email w
    = (Throw (MissingAdapter "WebaAuthn getUserAndAuthenticators requires an adapter."),
       w).
Proof. intros H. unfold getUserAndAuthenticators. now rewrite H. Qed.

(** X13: without an adapter nothing is issued.  [doRegister] and
    [doAuthenticate] throw [MissingAdapter] with the world untouched, and a
    handler that returns at all returns one of its 400 responses. *)
Theorem no_adapter_no_issuance options sessionStore action queryEmail email
    (w : World S R) :
  adapter options = None ->
  (exists msg, Types.doRegister options email w = (Throw (MissingAdapter msg), w)) /\
  (exists msg,
      Types.doAuthenticate options queryEmail w = (Throw (MissingAdapter msg), w)) /\
  (forall resp w',
      Routes.passkeyOptions options sessionStore action queryEmail w = (Ok resp, w') \/
      Types.passkeyOptions options sessionStore action queryEmail w = (Ok resp, w') ->
      exists msg, resp = bad_request msg).
Proof.
  intros Ha.
  assert (Hreg : forall e w0, Types.doRegister options e w0
            = (Throw (MissingAdapter
                        "WebaAuthn getUserAndAuthenticators requires an adapter."), w0)).
  { intros e w0. unfold Types.doRegister, registrationOptions, bind.
    now rewrite builders_need_adapter. }
  assert (Hauth : forall e w0, Types.doAuthenticate options e w0
            = (Throw (MissingAdapter
                        "WebaAuthn getUserAndAuthenticators requires an adapter."), w0)).
  { intros e w0. unfold Types.doAuthenticate, authenticationOptions, bind.
    now rewrite builders_need_adapter. }
  split; [eexists; apply Hreg|]. split; [eexists; apply Hauth|].
  intros resp w' [H|H]; revert H;
    [apply (routes_returns_only (P := fun r => exists msg, r = bad_request msg))
    |apply (types_returns_only (P := fun r => exists msg, r = bad_request msg))];
    first [ intros e w0 r w1; rewrite Hauth; discriminate
          | intros e w0 r w1; rewrite Hreg; discriminate
          | intros msg; eexists; reflexivity ].
Qed.

End HandlerExtras.

Section SwitchHandler.

Context {S R : Type} {C : Collaborators S R}.

Lemma doAuthenticate_outcome options email (w : World S R) :
  outcome (fst (Types.doAuthenticate options email w)) = DidAuthenticate \/
  exists e, outcome (fst (Types.doAuthenticate options email w)) = DidThrow e.
Proof.
  destruct (Types.doAuthenticate options email w) as [[resp|e] w'] eqn:E.
  - left. apply doAuthenticate_carries in E as (ao & Hb & _). simpl. now rewrite Hb.
  - right. eexists. reflexivity.
Qed.

Lemma doRegister_outcome options email (w : World S R) :
  outcome (fst (Types.doRegister options email w)) = DidRegister \/
  exists e, outcome (fst (Types.doRegister options email w)) = DidThrow e.
Proof.
  destruct (Types.doRegister options email w) as [[resp|e] w'] eqn:E.
  - left. apply doRegister_carries in E as (ro & Hb & _). simpl. now rewrite Hb.
  - right. eexists. reflexivity.
Qed.

(** The switch-based handler after its two lookups. *)
Lemma types_dispatch options sessionStore action queryEmail (w w1 w2 : World S R)
    cs found :
  routesSession options sessionStore w = (Ok cs, w1) ->
  (if truthy queryEmail
   then optional_getUserByEmail options (as_string queryEmail) w1
   else (Ok None, w1)) = (Ok found, w2) ->
  let loggedIn := truthy (session_user_email cs) in
  let given := truthy queryEmail in
  let emailExists := given && defined found in
  Types.passkeyOptions options sessionStore action queryEmail w =
    match action with
    | Some a =>
        if a =? "authenticate" then
          if negb loggedIn
          then Types.doAuthenticate options queryEmail w2
          else (Ok Types.invalid_combination, w2)
        else if a =? "register" then
          if negb (Bool.eqb loggedIn given) && negb emailExists
          then Types.doRegister options
                 (as_string (nullish (session_user_email cs) queryEmail)) w2
          else (Ok Types.invalid_combination, w2)
        else (Ok Types.invalid_combination, w2)
    | None =>
        if negb loggedIn then
          if Bool.eqb given emailExists
          then Types.doAuthenticate options queryEmail w2
          else Types.doRegister options (as_string queryEmail) w2
        else (Ok Types.invalid_combination, w2)
    end.
Proof.
  intros Hs Hl. cbv zeta. unfold Types.passkeyOptions.
  unfold bind at 1. rewrite Hs. cbv zeta. unfold bind at 1.
  set (loggedIn := truthy (session_user_email cs)).
  assert (Hgo : forall emailExists,
    match action with
    | Some a =>
        if a =? "authenticate" then
          if negb loggedIn
          then Types.doAuthenticate options queryEmail
          else ret Types.invalid_combination
        else if a =? "register" then
          if negb (Bool.eqb loggedIn (truthy queryEmail)) && negb emailExists
          then Types.doRegister options
                 (as_string (nullish (session_user_email cs) queryEmail))
          else ret Types.invalid_combination
        else ret Types.invalid_combination
    | None =>
        if negb loggedIn then
          if Bool.eqb (truthy queryEmail) emailExists
          then Types.doAuthenticate options queryEmail
          else Types.doRegister options (as_string queryEmail)
        else ret Types.invalid_combination
    end w2 =
    match action with
    | Some a =>
        if a =? "authenticate" then
          if negb loggedIn
          then Types.doAuthenticate options queryEmail w2
          else (Ok Types.invalid_combination, w2)
        else if a =? "register" then
          if negb (Bool.eqb loggedIn (truthy queryEmail)) && negb emailExists
          then Types.doRegister options
                 (as_string (nullish (session_user_email cs) queryEmail)) w2
          else (Ok Types.invalid_combination, w2)
        else (Ok Types.invalid_combination, w2)
    | None =>
        if negb loggedIn then
          if Bool.eqb (truthy queryEmail) emailExists
          then Types.doAuthenticate options queryEmail w2
          else Types.doRegister options (as_string queryEmail) w2
        else (Ok Types.invalid_combination, w2)
    end).
  { intros emailExists. destruct action as [a|].
    - destruct (a =? "authenticate"); [destruct (negb loggedIn); reflexivity|].
      destruct (a =? "register"); [|reflexivity].
      destruct (negb (Bool.eqb loggedIn (truthy queryEmail)) && negb emailExists);
        reflexivity.
    - destruct (negb loggedIn); [|reflexivity].
      destruct (Bool.eqb (truthy queryEmail) emailExists); reflexivity. }
  destruct (truthy queryEmail) eqn:Hg.
  - unfold bind at 1. rewrite Hl. unfold ret at 1. cbv beta iota.
    rewrite Hgo. reflexivity.
  - injection Hl as <- <-. unfold ret at 1. cbv beta iota.
    rewrite Hgo. reflexivity.
Qed.

(** X14: what the switch-based handler never does.  It issues no
    authentication options to a caller who is logged in; it issues no
    registration options when the query email already belongs to a user;
    a logged-in caller gets registration options only for an explicit
    "register" without a query email; and an action that is neither
    "authenticate" nor "register" (the empty string included) gets none. *)
Theorem switch_handler_guards options sessionStore action queryEmail
    (w w1 w2 : World S R) cs found :
  routesSession options sessionStore w = (Ok cs, w1) ->
  (if truthy queryEmail
   then optional_getUserByEmail options (as_string queryEmail) w1
   else (Ok None, w1)) = (Ok found, w2) ->
  let loggedIn := truthy (session_user_email cs) in
  let out := outcome (fst (Types.passkeyOptions options sessionStore action queryEmail w)) in
  (loggedIn = true -> out <> DidAuthenticate) /\
  (truthy queryEmail = true -> defined found = true -> out <> DidRegister) /\
  (loggedIn = true ->
   action <> Some "register" \/ truthy queryEmail = true ->
   out = DidFail "Invalid action/email combination") /\
  (forall a, action = Some a -> a <> "authenticate" -> a <> "register" ->
             out = DidFail "Invalid action/email combination").
Proof.
  intros Hs Hl loggedIn out. subst out.
  erewrite types_dispatch by eassumption. cbv zeta. fold loggedIn.
  pose proof (fun e w => doAuthenticate_outcome options e w) as HA.
  pose proof (fun e w => doRegister_outcome options e w) as HR.
  repeat split.
  - intros Hli. rewrite Hli. simpl.
    destruct action as [a|]; [|discriminate].
    destruct (a =? "authenticate"); [discriminate|].
    destruct (a =? "register"); [|discriminate].
    destruct (_ && _); [|discriminate].
    destruct (HR (as_string (nullish (session_user_email cs) queryEmail)) w2)
      as [E|(e & E)]; rewrite E; discriminate.
  - intros Hg Hd. rewrite Hg, Hd. simpl. rewrite andb_false_r.
    destruct action as [a|].
    + destruct (a =? "authenticate").
      * destruct (negb loggedIn); [|discriminate].
        destruct (HA queryEmail w2) as [E|(e & E)]; rewrite E; discriminate.
      * destruct (a =? "register"); discriminate.
    + destruct (negb loggedIn); [|discriminate].
      destruct (HA queryEmail w2) as [E|(e & E)]; rewrite E; discriminate.
  - intros Hli Hor. rewrite Hli. simpl.
    destruct action as [a|]; [|reflexivity].
    destruct (a =? "authenticate"); [reflexivity|].
    destruct (String.eqb_spec a "register") as [->|]; [|reflexivity].
    destruct Hor as [N|Hg]; [now elim N|]. rewrite Hg. reflexivity.
  - intros a -> Hna Hnr.
    destruct (String.eqb_spec a "authenticate"); [contradiction|].
    destruct (String.eqb_spec a "register"); [contradiction|]. reflexivity.
Qed.

(** X15: the handlers look a query email up without asserting that the
    adapter can: with an adapter that has no [getUserByEmail] the lookup
    throws a [TypeError], not the configuration error, in the switch-based
    handler for every action, and in the if/else handler for an anonymous
    caller who gives no action. *)
Theorem handler_lookup_unguarded options a sessionStore action queryEmail
    (w w1 : World S R) cs :
  adapter options = Some a ->
  getUserByEmail a = None ->
  routesSession options sessionStore w = (Ok cs, w1) ->
  truthy queryEmail = true ->
  (exists msg,
      Types.passkeyOptions options sessionStore action queryEmail w
        = (Throw (TypeError msg), w1)) /\
  (truthy action = false ->
   truthy (session_user_email cs) = false ->
   exists msg,
     Routes.passkeyOptions options sessionStore action queryEmail w
       = (Throw (TypeError msg), w1)).
Proof.
  intros Ha HE Hs Hg.
  assert (Hl : forall e, optional_getUserByEmail options e w1
                         = (Throw (TypeError "adapter.getUserByEmail is not a function"),
                            w1)).
  { intros e. unfold optional_getUserByEmail. now rewrite Ha, HE. }
  split.
  - eexists. unfold Types.passkeyOptions. unfold bind at 1. rewrite Hs. cbv zeta.
    rewrite Hg. unfold bind. rewrite Hl. reflexivity.
  - intros Hact Hanon. eexists. rewrite routes_dispatch.
    unfold bind at 1. rewrite Hs. cbv zeta. rewrite Hact, Hanon, Hg. simpl.
    unfold bind. rewrite Hl. reflexivity.
Qed.

(** X16: the two handlers agree on the form's request.  For a caller
    without a session email who gives a non-empty email and no action, the
    if/else handler and the switch-based handler return the same result in
    the same world. *)
Theorem handlers_agree_on_form_request options sessionStore queryEmail
    (w w1 : World S R) cs :
  routesSession options sessionStore w = (Ok cs, w1) ->
  session_user_email cs = None ->
  truthy queryEmail = true ->
  Routes.passkeyOptions options sessionStore None queryEmail w
    = Types.passkeyOptions options sessionStore None queryEmail w.
Proof.
  intros Hs Hanon Hg. rewrite routes_dispatch. unfold Types.passkeyOptions.
  unfold bind at 1 3. rewrite Hs. cbv zeta. rewrite Hanon, Hg. simpl.
  rewrite bind_assoc. apply bind_ext. intros user w2.
  change (bind (ret (defined user)) ?k w2) with (k (defined user) w2). cbv beta.
  unfold register_branch. rewrite Hg.
  destruct (defined user); reflexivity.
Qed.

End SwitchHandler.

(** * The decision table on both handlers *)

Section Resolution.

Context {S R : Type} {C : Collaborators S R}.

Lemma not_logged_in (sessionUserEmail : option string) :
  sessionUserEmail <> Some "" ->
  truthy sessionUserEmail = false -> sessionUserEmail = None.
Proof.
  intros Hne Ht. destruct sessionUserEmail as [s|]; [|reflexivity].
  simpl in Ht. destruct (String.eqb_spec s ""); [congruence | discriminate].
Qed.

Lemma logged_in (sessionUserEmail queryEmail : option string) :
  truthy sessionUserEmail = true ->
  nullish sessionUserEmail queryEmail = sessionUserEmail.
Proof. destruct sessionUserEmail; [reflexivity | discriminate]. Qed.

(** C1 (amended): the decision table on the two handlers, for a session
    whose email, when present, is not empty.

    Without an explicit action: an anonymous caller without email gets
    "email is required to register" from the if/else handler; an anonymous
    caller with an email gets, from both handlers and with equal results,
    authentication options when the email exists and registration options
    otherwise; a logged-in caller without email gets an error from both,
    with the message "email is required to register a new passkey" from the
    if/else handler; a logged-in caller with an email gets registration
    options for the session email from the if/else handler.

    With an explicit "authenticate": an anonymous caller gets authentication
    options for the query email from both handlers, whether or not it
    belongs to a user; a logged-in caller gets an error from the
    switch-based handler.

    With an explicit "register": an anonymous caller without email gets an
    error from both handlers; an anonymous caller whose email belongs to
    nobody gets registration options for it from both, and one whose email
    belongs to a user gets an error from the switch-based handler; a
    logged-in caller without query email gets registration options for the
    session email from both, and with one from the if/else handler.

    Any other non-empty action gets an error from both handlers.

    Where the two handlers answer differently, only the one that follows
    the table is stated. *)
Theorem passkeyOptions_resolution
    options sessionStore action queryEmail (w w1 : World S R) cs :
  routesSession options sessionStore w = (Ok cs, w1) ->
  session_user_email cs <> Some "" ->
  let sessionUserEmail := session_user_email cs in
  let loggedIn := truthy sessionUserEmail in
  let given := truthy queryEmail in
  let lookup :=
    if given then optional_getUserByEmail options (as_string queryEmail) w1
    else (Ok None, w1) in
  let routes := Routes.passkeyOptions options sessionStore action queryEmail w in
  let types := Types.passkeyOptions options sessionStore action queryEmail w in
  let refused := bad_request "Invalid action/email combination" in
  (action = None ->
   (loggedIn = false -> given = false ->
    routes = (Ok (bad_request "email is required to register"), w1)) /\
   (loggedIn = false -> given = true ->
    forall found w2,
      lookup = (Ok found, w2) ->
      routes = types /\
      types = if defined found
              then Types.doAuthenticate options queryEmail w2
              else Types.doRegister options (as_string queryEmail) w2) /\
   (loggedIn = true -> given = false ->
    routes = (Ok (bad_request "email is required to register a new passkey"), w1) /\
    types = (Ok refused, w1)) /\
   (loggedIn = true -> given = true ->
    routes = Types.doRegister options (as_string sessionUserEmail) w1)) /\
  (action = Some "authenticate" ->
   (loggedIn = false ->
    routes = Types.doAuthenticate options queryEmail w1 /\
    forall found w2,
      lookup = (Ok found, w2) ->
      types = Types.doAuthenticate options queryEmail w2) /\
   (loggedIn = true ->
    forall found w2, lookup = (Ok found, w2) -> types = (Ok refused, w2))) /\
  (action = Some "register" ->
   (loggedIn = false -> given = false ->
    routes = (Ok (bad_request "email is required for registration"), w1) /\
    types = (Ok refused, w1)) /\
   (loggedIn = false -> given = true ->
    forall found w2,
      lookup = (Ok found, w2) ->
      if defined found
      then types = (Ok refused, w2)
      else routes = Types.doRegister options (as_string queryEmail) w1 /\
           types = Types.doRegister options (as_string queryEmail) w2) /\
   (loggedIn = true -> given = false ->
    routes = Types.doRegister options (as_string sessionUserEmail) w1 /\
    types = Types.doRegister options (as_string sessionUserEmail) w1) /\
   (loggedIn = true -> given = true ->
    routes = Types.doRegister options (as_string sessionUserEmail) w1)) /\
  (forall a,
      action = Some a -> a <> "" -> a <> "authenticate" -> a <> "register" ->
      routes = (Ok (bad_request "invalid action"), w1) /\
      forall found w2, lookup = (Ok found, w2) -> types = (Ok refused, w2)).
Proof.
  intros Hs Hne sessionUserEmail loggedIn given lookup routes types refused.
  assert (Hr : routes
    = (let email := nullish sessionUserEmail queryEmail in
       if negb (truthy action) then
         if negb loggedIn then
           if given then
             bind (optional_getUserByEmail options (as_string queryEmail))
               (fun user => if defined user
                            then Types.doAuthenticate options email
                            else register_branch options email)
           else ret (bad_request "email is required to register")
         else
           if given
           then register_branch options email
           else ret (bad_request "email is required to register a new passkey")
       else
         if String.eqb (as_string action) "authenticate"
         then Types.doAuthenticate options email
         else if String.eqb (as_string action) "register"
              then register_branch options email
              else ret (bad_request "invalid action")) w1).
  { unfold routes. rewrite routes_dispatch. unfold bind at 1. rewrite Hs. reflexivity. }
  assert (Ht : forall found w2,
    lookup = (Ok found, w2) ->
    types
    = match action with
      | Some a =>
          if a =? "authenticate" then
            if negb loggedIn
            then Types.doAuthenticate options queryEmail w2
            else (Ok Types.invalid_combination, w2)
          else if a =? "register" then
            if negb (Bool.eqb loggedIn given) && negb (given && defined found)
            then Types.doRegister options
                   (as_string (nullish sessionUserEmail queryEmail)) w2
            else (Ok Types.invalid_combination, w2)
          else (Ok Types.invalid_combination, w2)
      | None =>
          if negb loggedIn then
            if Bool.eqb given (given && defined found)
            then Types.doAuthenticate options queryEmail w2
            else Types.doRegister options (as_string queryEmail) w2
          else (Ok Types.invalid_combination, w2)
      end).
  { intros found w2 Hl. unfold types. eapply types_dispatch; eassumption. }
  assert (Hanon : loggedIn = false -> nullish sessionUserEmail queryEmail = queryEmail).
  { intros Hl. unfold sessionUserEmail. rewrite (not_logged_in Hne Hl). reflexivity. }
  assert (Hin : loggedIn = true ->
                nullish sessionUserEmail queryEmail = sessionUserEmail /\
                truthy sessionUserEmail = true).
  { intros Hl. split; [now apply logged_in | exact Hl]. }
  assert (Hnone : given = false -> lookup = (Ok None, w1)).
  { intros Hg. unfold lookup. now rewrite Hg. }
  assert (Hsome : given = true ->
                  lookup = optional_getUserByEmail options (as_string queryEmail) w1).
  { intros Hg. unfold lookup. now rewrite Hg. }
  assert (Hreg : forall e w0, truthy e = true ->
                 register_branch options e w0 = Types.doRegister options (as_string e) w0).
  { intros e w0 He. unfold register_branch. now rewrite He. }
  assert (Hnoreg : forall e w0, truthy e = false ->
                   register_branch options e w0
                   = (Ok (bad_request "email is required for registration"), w0)).
  { intros e w0 He. unfold register_branch. now rewrite He. }
  clearbody routes types lookup. cbv zeta in Hr.
  change Types.invalid_combination with refused in Ht.
  split; [|split; [|split]].
  - intros ->. simpl in Hr. split; [|split; [|split]].
    + intros Hl Hg. rewrite Hr, Hl, Hg. reflexivity.
    + intros Hl Hg found w2 Hlook.
      rewrite (Ht _ _ Hlook), Hr, Hl, Hg, (Hanon Hl). simpl.
      rewrite (Hsome Hg) in Hlook. unfold bind. rewrite Hlook.
      destruct (defined found); simpl.
      * split; reflexivity.
      * split; [|reflexivity]. apply Hreg. exact Hg.
    + intros Hl Hg. rewrite Hr, (Ht _ _ (Hnone Hg)), Hl, Hg. split; reflexivity.
    + intros Hl Hg. rewrite Hr, Hl, Hg. simpl.
      destruct (Hin Hl) as [-> Htr]. now apply Hreg.
  - intros ->. simpl in Hr. split.
    + intros Hl. rewrite Hr, (Hanon Hl). split; [reflexivity|].
      intros found w2 Hlook. rewrite (Ht _ _ Hlook), Hl. reflexivity.
    + intros Hl found w2 Hlook. rewrite (Ht _ _ Hlook), Hl. reflexivity.
  - intros ->. simpl in Hr. split; [|split; [|split]].
    + intros Hl Hg. rewrite Hr, (Ht _ _ (Hnone Hg)), Hl, Hg, (Hanon Hl). simpl.
      split; [|reflexivity]. apply Hnoreg. exact Hg.
    + intros Hl Hg found w2 Hlook.
      rewrite (Ht _ _ Hlook), Hr, Hl, Hg, (Hanon Hl). simpl.
      destruct (defined found); simpl; [reflexivity|].
      split; [|reflexivity]. apply Hreg. exact Hg.
    + intros Hl Hg. rewrite Hr, (Ht _ _ (Hnone Hg)), Hl, Hg. simpl.
      destruct (Hin Hl) as [-> Htr]. split; [|reflexivity]. now apply Hreg.
    + intros Hl Hg. rewrite Hr. destruct (Hin Hl) as [-> Htr]. now apply Hreg.
  - intros a -> Hne' Hna Hnr. simpl in Hr.
    destruct (String.eqb_spec a ""); [contradiction|].
    destruct (String.eqb_spec a "authenticate"); [contradiction|].
    destruct (String.eqb_spec a "register"); [contradiction|].
    split; [exact Hr|].
    intros found w2 Hlook. rewrite (Ht _ _ Hlook).
    destruct (String.eqb_spec a "authenticate"); [contradiction|].
    destruct (String.eqb_spec a "register"); [contradiction|]. reflexivity.
Qed.

End Resolution.

(** * Properties of the browser script *)

Module BrowserFacts.

Import Browser.

Lemma property_set_same k v o : property k (set_property k v o) = Some v.
Proof.
  induction o as [|[k' v'] o IH]; simpl.
  - now rewrite String.eqb_refl.
  - destruct (String.eqb_spec k k') as [->|N]; simpl.
    + now rewrite String.eqb_refl.
    + destruct (String.eqb_spec k k'); [contradiction | exact IH].
Qed.

Lemma property_set_other k k' v o :
  k <> k' -> property k (set_property k' v o) = property k o.
Proof.
  intros N. induction o as [|[k2 v2] o IH]; simpl.
  - destruct (String.eqb_spec k k'); [contradiction | reflexivity].
  - destruct (String.eqb_spec k' k2) as [->|N2]; simpl.
    + destruct (String.eqb_spec k k2); [contradiction | reflexivity].
    + destruct (String.eqb_spec k k2); [reflexivity | exact IH].
Qed.

Lemma find_in_app {A : Type} (f : A -> bool) (l1 l2 : list A) :
  find f (l1 ++ l2)
    = match find f l1 with Some x => Some x | None => find f l2 end.
Proof.
  induction l1 as [|x l1 IH]; simpl; [reflexivity|]. now destruct (f x).
Qed.

Lemma property_fold k entries o :
  property k (fold_left (fun o kv => set_property (fst kv) (FromForm (snd kv)) o)
                entries o)
    = match last_value k entries with
      | Some v => Some (FromForm v)
      | None => property k o
      end.
Proof.
  unfold last_value. revert o.
  induction entries as [|[k' v'] entries IH]; intros o; simpl; [reflexivity|].
  rewrite IH. rewrite find_in_app.
  destruct (find _ (rev entries)) as [[k2 v2]|]; simpl; [reflexivity|].
  rewrite (String.eqb_sym k' k).
  destruct (String.eqb_spec k k') as [->|N]; simpl.
  - apply property_set_same.
  - now apply property_set_other.
Qed.

(** A property of [Object.fromEntries(entries)] holds the last entry of
    that name. *)
Lemma property_fromEntries k entries :
  property k (fromEntries entries) = option_map FromForm (last_value k entries).
Proof.
  unfold fromEntries. rewrite property_fold. simpl. now destruct (last_value k entries).
Qed.

Lemma last_value_appended k entries v :
  last_value k (entries ++ [(k, v)]) = Some v.
Proof.
  unfold last_value. rewrite rev_app_distr. simpl. now rewrite String.eqb_refl.
Qed.

Lemma last_value_appended_other k k' entries v :
  k <> k' -> last_value k (entries ++ [(k', v)]) = last_value k entries.
Proof.
  intros N. unfold last_value. rewrite rev_app_distr. simpl.
  destruct (String.eqb_spec k' k); [congruence | reflexivity].
Qed.

Section ScriptFacts.

Context {api : Api}.

(** The request of a [submitForm] with a body. *)
Lemma submitForm_post form method action data (t : list Event) :
  parses (form_action form) = true ->
  method <> "GET" ->
  exists payload,
    submitForm (Some form) method action data t
      = (fetch {| rq_method := method; rq_url := form_action form;
                  rq_query := []; rq_body := Some payload |} t,
         (t ++ [Fetched {| rq_method := method; rq_url := form_action form;
                           rq_query := []; rq_body := Some payload |}])%list) /\
    property "action" payload = Some (FromForm (FormString action)) /\
    (js_truthy data = true -> property "data" payload = Some (FromData data)) /\
    (forall k, k <> "action" ->
               k <> "data" \/ js_truthy data = false ->
               property k payload
               = option_map FromForm (last_value k (form_entries form))).
Proof.
  intros Hp Hm. unfold submitForm, getForm, new_URL, bind, ret, call_fetch.
  rewrite Hp.
  destruct (String.eqb_spec method "GET"); [contradiction|].
  eexists. split; [reflexivity|].
  assert (Hact : property "action"
                   (fromEntries (form_entries form ++ [("action", FormString action)]))
                 = Some (FromForm (FormString action))).
  { rewrite property_fromEntries, last_value_appended. reflexivity. }
  assert (Hother : forall k, k <> "action" ->
             property k
               (fromEntries (form_entries form ++ [("action", FormString action)]))
             = option_map FromForm (last_value k (form_entries form))).
  { intros k N. rewrite property_fromEntries.
    now rewrite last_value_appended_other. }
  destruct (js_truthy data); repeat split.
  - rewrite property_set_other by discriminate. exact Hact.
  - intros _. apply property_set_same.
  - intros k Ha [Hd|Hd]; [|discriminate].
    rewrite property_set_other by assumption. now apply Hother.
  - exact Hact.
  - discriminate.
  - intros k Ha _. now apply Hother.
Qed.

(** X17: what [submitForm] sends.  Without a form it throws "Form not
    found", and with a form whose action does not parse as a URL a
    TypeError, and sends nothing.  With "GET" it sends one request whose
    query carries the form's string entries in order, then the action, then
    the stringified data when there is some; files are left out.  With any
    other method it sends one request whose JSON payload has the given
    action under "action" whatever the form holds under that name, the data
    under "data" when there is some, and for every other name the form's
    last entry of that name. *)
Theorem submitForm_request form method action data (t : list Event) :
  submitForm None method action data t = (Raise (JsError "Form not found"), t) /\
  (parses (form_action form) = false ->
   exists msg,
     submitForm (Some form) method action data t = (Raise (Foreign (TypeError msg)), t)) /\
  (parses (form_action form) = true ->
   method = "GET" ->
   let request :=
     {| rq_method := "GET"; rq_url := form_action form;
        rq_query := (string_entries (form_entries form) ++ [("action", action)]
                       ++ (if js_truthy data then [("data", stringify data)] else []))%list;
        rq_body := None |} in
   submitForm (Some form) method action data t
     = (fetch request t, (t ++ [Fetched request])%list)) /\
  (parses (form_action form) = true ->
   method <> "GET" ->
   exists payload,
     submitForm (Some form) method action data t
       = (fetch {| rq_method := method; rq_url := form_action form;
                   rq_query := []; rq_body := Some payload |} t,
          (t ++ [Fetched {| rq_method := method; rq_url := form_action form;
                            rq_query := []; rq_body := Some payload |}])%list) /\
     property "action" payload = Some (FromForm (FormString action)) /\
     (js_truthy data = true -> property "data" payload = Some (FromData data)) /\
     (forall k, k <> "action" ->
                k <> "data" \/ js_truthy data = false ->
                property k payload
                = option_map FromForm (last_value k (form_entries form)))).
Proof.
  split; [reflexivity | split; [|split]].
  - intros Hp. eexists.
    unfold submitForm, getForm, new_URL, bind, ret, raise. rewrite Hp. reflexivity.
  - intros Hp ->. cbv zeta.
    unfold submitForm, getForm, new_URL, bind, ret, call_fetch. rewrite Hp. simpl.
    unfold string_entries. rewrite flat_map_app. simpl.
    rewrite <- app_assoc. reflexivity.
  - apply submitForm_post.
Qed.

Lemma submitForm_unparsed form method action data (t : list Event) :
  parses (form_action form) = false ->
  submitForm (Some form) method action data t
    = (Raise (Foreign (TypeError "Invalid URL")), t).
Proof.
  intros Hp. unfold submitForm, getForm, new_URL, bind, ret, raise.
  rewrite Hp. reflexivity.
Qed.

Lemma guarded_returns (flow : B unit) (t : list Event) :
  fst (guarded flow t) = Returned tt /\
  snd (guarded flow t)
    = match fst (flow t) with
      | Returned _ => snd (flow t)
      | Raise e => (snd (flow t) ++ [ConsoleError (inr e)])%list
      end.
Proof.
  unfold guarded, bind, attempt, emit, displayError, ret.
  destruct (flow t) as [[[]|e] t']; split; reflexivity.
Qed.

Lemma read_truthy (v : JsValue) (k : string) (t : list Event) :
  js_truthy v = true -> exists x, get_property v k = Ok x /\ read v k t = (Returned x, t).
Proof.
  intros H. unfold read.
  destruct v; try discriminate; simpl; try (eexists; split; reflexivity).
  destruct (lookup_field k fields); eexists; split; reflexivity.
Qed.

(** X18: [registrationFlow] asks for the email first.  Without a form, or
    with a form whose email is missing or empty, it throws before any
    ceremony or request.  Otherwise it starts the registration ceremony;
    when that fails nothing is sent to the server, and neither when the
    form's action does not parse as a URL; else exactly one request
    follows, a POST to the form's action whose payload has the action
    "register" and the ceremony's answer as data, and the flow throws
    exactly when that request fails or is not answered with [ok]. *)
Theorem registrationFlow_behaviour form options (t : list Event) :
  let out := registrationFlow (Some form) options t in
  let t1 := (t ++ [StartedRegistration options])%list in
  registrationFlow None options t = (Raise (JsError "Form not found"), t) /\
  (truthy (form_email form) = false ->
   out = (Raise (JsError "Register email not provided"), t)) /\
  (truthy (form_email form) = true ->
   (forall e, startRegistration options t = Raise e -> out = (Raise e, t1)) /\
   (forall regResp,
       startRegistration options t = Returned regResp ->
       parses (form_action form) = false ->
       exists msg, out = (Raise (Foreign (TypeError msg)), t1)) /\
   (forall regResp,
       startRegistration options t = Returned regResp ->
       parses (form_action form) = true ->
       exists payload,
         let request := {| rq_method := "POST"; rq_url := form_action form;
                           rq_query := []; rq_body := Some payload |} in
         snd out = (t1 ++ [Fetched request])%list /\
         property "action" payload = Some (FromForm (FormString "register")) /\
         (js_truthy regResp = true ->
          property "data" payload = Some (FromData regResp)) /\
         match fetch request t1 with
         | Returned res =>
             if rs_ok res then fst out = Returned tt
             else exists msg, fst out = Raise (JsError msg)
         | Raise e => fst out = Raise e
         end)).
Proof.
  cbv zeta. split; [reflexivity | split].
  - intros He. unfold registrationFlow, getForm, bind, ret. now rewrite He.
  - intros He. split; [|split].
    + intros e Hs. unfold registrationFlow, getForm, bind, ret, call_startRegistration.
      rewrite He. cbn [negb]. now rewrite Hs.
    + intros regResp Hs Hp. eexists.
      unfold registrationFlow, getForm, bind, ret, call_startRegistration.
      rewrite He. cbn [negb]. rewrite Hs, submitForm_unparsed by assumption.
      reflexivity.
    + intros regResp Hs Hp.
      destruct (submitForm_post form (method := "POST") "register" regResp
                  (t ++ [StartedRegistration options])%list)
        as (payload & Hsub & Hact & Hdata & _); [assumption|discriminate|].
      exists payload. cbv zeta.
      unfold registrationFlow, getForm, bind, ret, call_startRegistration.
      rewrite He. cbn [negb]. rewrite Hs, Hsub.
      repeat split; try assumption.
      * destruct (fetch _ _) as [res|e]; [destruct (rs_ok res)|]; reflexivity.
      * destruct (fetch _ _) as [res|e]; [|reflexivity].
        destruct (rs_ok res); simpl; [reflexivity | eexists; reflexivity].
Qed.

(** X19: [authenticationFlow] needs a form but no email.  It starts the
    authentication ceremony; when that fails nothing is sent to the server,
    and neither when the form's action does not parse as a URL; else
    exactly one request follows, a POST to the form's action whose payload
    has the action "authenticate" and the ceremony's answer as data, and
    the flow throws exactly when that request fails or is not answered with
    [ok]. *)
Theorem authenticationFlow_behaviour form options autofill (t : list Event) :
  let out := authenticationFlow (Some form) options autofill t in
  let t1 := (t ++ [StartedAuthentication options autofill])%list in
  authenticationFlow None options autofill t = (Raise (JsError "Form not found"), t) /\
  (forall e, startAuthentication options autofill t = Raise e -> out = (Raise e, t1)) /\
  (forall authResp,
      startAuthentication options autofill t = Returned authResp ->
      parses (form_action form) = false ->
      exists msg, out = (Raise (Foreign (TypeError msg)), t1)) /\
  (forall authResp,
      startAuthentication options autofill t = Returned authResp ->
      parses (form_action form) = true ->
      exists payload,
        let request := {| rq_method := "POST"; rq_url := form_action form;
                          rq_query := []; rq_body := Some payload |} in
        snd out = (t1 ++ [Fetched request])%list /\
        property "action" payload = Some (FromForm (FormString "authenticate")) /\
        (js_truthy authResp = true ->
         property "data" payload = Some (FromData authResp)) /\
        match fetch request t1 with
        | Returned res =>
            if rs_ok res then fst out = Returned tt
            else exists msg, fst out = Raise (JsError msg)
        | Raise e => fst out = Raise e
        end).
Proof.
  cbv zeta. split; [reflexivity | split; [|split]].
  - intros e Hs.
    unfold authenticationFlow, getForm, bind, ret, call_startAuthentication.
    now rewrite Hs.
  - intros authResp Hs Hp. eexists.
    unfold authenticationFlow, getForm, bind, ret, call_startAuthentication.
    rewrite Hs, submitForm_unparsed by assumption. reflexivity.
  - intros authResp Hs Hp.
    destruct (submitForm_post form (method := "POST") "authenticate" authResp
                (t ++ [StartedAuthentication options autofill])%list)
      as (payload & Hsub & Hact & Hdata & _); [assumption|discriminate|].
    exists payload. cbv zeta.
    unfold authenticationFlow, getForm, bind, ret, call_startAuthentication.
    rewrite Hs, Hsub.
    repeat split; try assumption.
    + destruct (fetch _ _) as [res|e]; [destruct (rs_ok res)|]; reflexivity.
    + destruct (fetch _ _) as [res|e]; [|reflexivity].
      destruct (rs_ok res); simpl; [reflexivity | eexists; reflexivity].
Qed.

Lemma bind_run {A A' : Type} (m : B A) (k : A -> B A') (t : list Event) :
  bind m k t
  = match m t with
    | (Returned a, t') => k a t'
    | (Raise e, t') => (Raise e, t')
    end.
Proof. reflexivity. Qed.

Lemma bind_ret_run {A A' : Type} (a : A) (k : A -> B A') (t : list Event) :
  bind (ret a) k t = k a t.
Proof. reflexivity. Qed.

Lemma fetchOptions_unparsed baseURL action email (t : list Event) :
  parses (baseURL ++ "/options") = false ->
  fetchOptions baseURL action email t = (Raise (Foreign (TypeError "Invalid URL")), t).
Proof.
  intros Hp. unfold fetchOptions, new_URL, bind, raise. rewrite Hp. reflexivity.
Qed.

Lemma fetchOptions_run baseURL action email (t : list Event) :
  parses (baseURL ++ "/options") = true ->
  let request :=
    {| rq_method := "GET"; rq_url := baseURL ++ "/options";
       rq_query := ((if truthy action then [("action", as_string action)] else [])
                      ++ (if truthy email then [("email", as_string email)] else []))%list;
       rq_body := None |} in
  fetchOptions baseURL action email t
  = (match fetch request t with
     | Returned res => if rs_ok res then rs_json res else Returned JUndefined
     | Raise e => Raise e
     end, (t ++ [Fetched request])%list).
Proof.
  intros Hp. cbv zeta.
  unfold fetchOptions, new_URL, bind, call_fetch, displayError, settle, ret.
  rewrite Hp.
  destruct (fetch _ t) as [res|e]; [|reflexivity].
  destruct (rs_ok res); reflexivity.
Qed.

Lemma guarded_read (json : JsValue) (k : string) (flow : JsValue -> B unit)
    (t : list Event) :
  js_truthy json = true ->
  exists options,
    get_property json k = Ok options /\
    guarded (bind (read json k) flow) t = guarded (flow options) t.
Proof.
  intros H. destruct (read_truthy json k t H) as (x & Hx & _).
  exists x. split; [exact Hx|].
  unfold guarded, bind, attempt, read. rewrite Hx. reflexivity.
Qed.

(** X20: [autofillAuthentication] first asks the server for options with
    the action "authenticate" and no email; when the options URL does not
    parse, a TypeError leaves the function before any request.  When the
    request fails, or its body cannot be read as JSON, the error leaves the
    function.  When the answer is not [ok], or its JSON is falsy, one line
    goes to the console and no ceremony starts.  Otherwise the function
    runs the authentication flow with the answer's [options] and autofill
    on, never throws, and logs the flow's error when it fails. *)
Theorem autofillAuthentication_behaviour baseURL document (t : list Event) :
  let request := {| rq_method := "GET"; rq_url := baseURL ++ "/options";
                    rq_query := [("action", "authenticate")]; rq_body := None |} in
  let t1 := (t ++ [Fetched request])%list in
  let out := autofillAuthentication baseURL document t in
  let failed := ConsoleError (inl "Failed to fetch option for autofill authentication") in
  if negb (parses (baseURL ++ "/options"))
  then exists msg, out = (Raise (Foreign (TypeError msg)), t)
  else
  match fetch request t with
  | Raise e => out = (Raise e, t1)
  | Returned res =>
      if rs_ok res then
        match rs_json res with
        | Raise e => out = (Raise e, t1)
        | Returned json =>
            if js_truthy json then
              exists options,
                get_property json "options" = Ok options /\
                fst out = Returned tt /\
                snd out
                = match authenticationFlow document options true t1 with
                  | (Returned _, t2) => t2
                  | (Raise e, t2) => (t2 ++ [ConsoleError (inr e)])%list
                  end
            else out = (Returned tt, (t1 ++ [failed])%list)
        end
      else out = (Returned tt, (t1 ++ [failed])%list)
  end.
Proof.
  cbv zeta. unfold autofillAuthentication.
  destruct (parses (baseURL ++ "/options")) eqn:Hp; cbn [negb].
  2:{ eexists. rewrite bind_run, fetchOptions_unparsed by assumption. reflexivity. }
  rewrite bind_run, fetchOptions_run by assumption.
  change ((if truthy (Some "authenticate")
           then [("action", as_string (Some "authenticate"))] else [])
            ++ (if truthy (@None string) then [("email", as_string (@None string))]
                else []))%list
    with [("action", "authenticate")].
  destruct (fetch _ t) as [res|e]; [|reflexivity].
  destruct (rs_ok res); [|reflexivity].
  destruct (rs_json res) as [json|e]; [|reflexivity].
  destruct (js_truthy json) eqn:Hj; [|reflexivity].
  cbn [negb].
  destruct (guarded_read json "options"
              (fun options => authenticationFlow document options true)
              (t ++ [Fetched {| rq_method := "GET"; rq_url := baseURL ++ "/options";
                                rq_query := [("action", "authenticate")];
                                rq_body := None |}])%list Hj)
    as (options & Hget & Hrun).
  exists options. split; [exact Hget|].
  rewrite Hrun.
  destruct (guarded_returns (authenticationFlow document options true)
              (t ++ [Fetched {| rq_method := "GET"; rq_url := baseURL ++ "/options";
                                rq_query := [("action", "authenticate")];
                                rq_body := None |}])%list) as [Hfst Hsnd].
  split; [exact Hfst|]. rewrite Hsnd.
  destruct (authenticationFlow _ _ _ _) as [[[]|e] t2]; reflexivity.
Qed.

(** X21: the submit handler.  It reads the email control first, and a form
    without one makes it throw a TypeError before any request.  Otherwise
    it asks the server for options with no action, and with the email only
    when it is not empty; when the options URL does not parse, a TypeError
    leaves the handler before any request.  When the request fails, or its
    body cannot be read as JSON, the error leaves the handler.  When the
    answer is not [ok], or its JSON is falsy, one line goes to the console
    and no ceremony starts.  Otherwise the handler never throws: for the
    action "authenticate" it runs the authentication flow with autofill
    off, for "register" the registration flow, each with the answer's
    [options] and with the flow's error logged, and for any other action it
    does nothing more. *)
Theorem onSubmit_behaviour baseURL form document (t : list Event) :
  let out := onSubmit baseURL form document t in
  let failed := ConsoleError (inl "Failed to fetch options for form submission") in
  let logged (r : Outcome unit * list Event) :=
    match r with
    | (Returned _, t2) => t2
    | (Raise e, t2) => (t2 ++ [ConsoleError (inr e)])%list
    end in
  match form_email form with
  | None => exists msg, out = (Raise (Foreign (TypeError msg)), t)
  | Some email =>
      let request :=
        {| rq_method := "GET"; rq_url := baseURL ++ "/options";
           rq_query := if String.eqb email "" then [] else [("email", email)];
           rq_body := None |} in
      let t1 := (t ++ [Fetched request])%list in
      if negb (parses (baseURL ++ "/options"))
      then exists msg, out = (Raise (Foreign (TypeError msg)), t)
      else
      match fetch request t with
      | Raise e => out = (Raise e, t1)
      | Returned res =>
          if rs_ok res then
            match rs_json res with
            | Raise e => out = (Raise e, t1)
            | Returned json =>
                if js_truthy json then
                  exists action options,
                    get_property json "action" = Ok action /\
                    get_property json "options" = Ok options /\
                    fst out = Returned tt /\
                    (action = JString "authenticate" ->
                     snd out = logged (authenticationFlow document options false t1)) /\
                    (action = JString "register" ->
                     snd out = logged (registrationFlow document options t1)) /\
                    (action <> JString "authenticate" ->
                     action <> JString "register" -> snd out = t1)
                else out = (Returned tt, (t1 ++ [failed])%list)
            end
          else out = (Returned tt, (t1 ++ [failed])%list)
      end
  end.
Proof.
  cbv zeta. unfold onSubmit.
  destruct (form_email form) as [email|]; [|eexists; reflexivity].
  destruct (parses (baseURL ++ "/options")) eqn:Hp; cbn [negb].
  2:{ eexists. rewrite bind_ret_run, bind_run, fetchOptions_unparsed by assumption.
      reflexivity. }
  rewrite bind_ret_run, bind_run, fetchOptions_run by assumption.
  assert (Hq : ((if truthy (@None string) then [("action", as_string (@None string))]
                 else [])
                  ++ (if truthy (Some email) then [("email", as_string (Some email))]
                      else []))%list
               = if String.eqb email "" then [] else [("email", email)]).
  { unfold truthy, as_string. destruct (String.eqb email ""); reflexivity. }
  rewrite Hq. clear Hq.
  set (request := {| rq_method := "GET"; rq_url := baseURL ++ "/options";
                     rq_query := if String.eqb email "" then [] else [("email", email)];
                     rq_body := None |}).
  destruct (fetch request t) as [res|e]; [|reflexivity].
  destruct (rs_ok res); [|reflexivity].
  destruct (rs_json res) as [json|e]; [|reflexivity].
  destruct (js_truthy json) eqn:Hj; [|reflexivity].
  cbn [negb].
  destruct (read_truthy json "action" (t ++ [Fetched request])%list Hj)
    as (action & Hact & Hread).
  destruct (guarded_read json "options"
              (fun options => authenticationFlow document options false)
              (t ++ [Fetched request])%list Hj) as (options & Hget & Hauth).
  destruct (guarded_read json "options"
              (fun options => registrationFlow document options)
              (t ++ [Fetched request])%list Hj) as (options' & Hget' & Hreg).
  assert (options' = options) by congruence. subst options'.
  exists action, options. split; [exact Hact|]. split; [exact Hget|].
  rewrite bind_run, Hread.
  pose proof (guarded_returns (authenticationFlow document options false)
                (t ++ [Fetched request])%list) as [Ha1 Ha2].
  pose proof (guarded_returns (registrationFlow document options)
                (t ++ [Fetched request])%list) as [Hr1 Hr2].
  assert (La : forall r : Outcome unit * list Event,
             match fst r with
             | Returned _ => snd r
             | Raise e => (snd r ++ [ConsoleError (inr e)])%list
             end
             = match r with
               | (Returned _, t2) => t2
               | (Raise e, t2) => (t2 ++ [ConsoleError (inr e)])%list
               end).
  { intros [[[]|e] t2]; reflexivity. }
  destruct action as [| |b|n|a|l|fs];
    try (split; [reflexivity|];
         split; [discriminate|]; split; [discriminate|]; reflexivity).
  destruct (String.eqb_spec a "authenticate") as [->|Na].
  { rewrite Hauth. split; [exact Ha1|]. split; [|split].
    - intros _. rewrite Ha2. apply La.
    - discriminate.
    - intros N. now contradiction N. }
  destruct (String.eqb_spec a "register") as [->|Nr].
  { rewrite Hreg. split; [exact Hr1|]. split; [|split].
    - discriminate.
    - intros _. rewrite Hr2. apply La.
    - intros _ N. now contradiction N. }
  split; [reflexivity|]. split; [|split].
  - intros E. injection E as ->. now contradiction Na.
  - intros E. injection E as ->. now contradiction Nr.
  - reflexivity.
Qed.

End ScriptFacts.

End BrowserFacts.

(** * The further properties on concrete requests *)

Section FurtherExamples.

#[local] Existing Instance Demo.collaborators.

Ltac run_as E t :=
  let r := eval vm_compute in t in
  assert (E : t = r) by (vm_compute; reflexivity).

Lemma demo_codec_reads_back (o : Options SpecAdapter.Storage)
    (data : PasskeyOptionsCookieData) :
  decodeSignedCookie "challenge"
    [("challenge",
      secret o ++ "|" ++ challenge data ++ "|"
        ++ match cookie_providerAccountId data with Some p => p | None => "" end)]
    (secret o) = Ok (Some data) ->
  codec_reads_back o data.
Proof. intros H cookie Hs. injection Hs as <-. exact H. Defined.

(** X2, on Alice's credential: a verified assertion returns Alice and the
    account that links her to the authenticator. *)
Lemma verifyAuthentication_success_witness :
  fst (verifyAuthentication Demo.options0 (Demo.challenge_cookie "c1" "")
         (Demo.assertion "c1" Demo.origin 6) Demo.world0)
    = Ok (Verified {| user := Demo.alice; account := Demo.alice_account;
                      authenticator := None |}).
Proof.
  apply (@verifyAuthentication_success _ _ Demo.collaborators
           Demo.options0 (Demo.challenge_cookie "c1" "")
           (Demo.assertion "c1" Demo.origin 6) Demo.world0
           SpecAdapter.reference SpecAdapter.getAuthenticator
           SpecAdapter.getUserByAccount SpecAdapter.updateAuthenticatorCounter
           Demo.cookie_c1 (Demo.authenticator_C 5) (Demo.verified_with 6) Demo.alice).
  - apply demo_capable; reflexivity.
  - apply demo_reaches; reflexivity.
  - reflexivity.
  - reflexivity.
  - reflexivity.
Defined.

(** X3, on the cookies of an authentication and of a registration issued
    for the same challenge: both are treated alike. *)
Lemma verifyAuthentication_cookie_challenge_only_witness :
  verifyAuthentication Demo.options0 (Demo.challenge_cookie "c1" "")
    (Demo.assertion "c1" Demo.origin 6) Demo.world0
  = verifyAuthentication Demo.options0 (Demo.challenge_cookie "c1" "gen-1")
      (Demo.assertion "c1" Demo.origin 6) Demo.world0.
Proof.
  apply (@verifyAuthentication_cookie_challenge_only _ _ Demo.collaborators
           Demo.options0 (Demo.challenge_cookie "c1" "")
           (Demo.challenge_cookie "c1" "gen-1")
           (Demo.assertion "c1" Demo.origin 6) Demo.world0 Demo.cookie_c1
           {| challenge := "c1"; cookie_providerAccountId := Some "gen-1" |});
    reflexivity.
Defined.

(** X4, on the cookie of an authentication ceremony: the registration is
    refused and the world is unchanged. *)
Lemma verifyRegistration_needs_registration_cookie_witness :
  snd (verifyRegistration Demo.options0 (Demo.challenge_cookie "c1" "")
         (Demo.attestation "c1" Demo.origin) (JString "new@x.com") Demo.world0)
    = Demo.world0 /\
  (fst (verifyRegistration Demo.options0 (Demo.challenge_cookie "c1" "")
          (Demo.attestation "c1" Demo.origin) (JString "new@x.com") Demo.world0)
     = Ok (SoftError "Email is required for registration.") \/
   fst (verifyRegistration Demo.options0 (Demo.challenge_cookie "c1" "")
          (Demo.attestation "c1" Demo.origin) (JString "new@x.com") Demo.world0)
     = Ok (SoftError "Invalid response.") \/
   fst (verifyRegistration Demo.options0 (Demo.challenge_cookie "c1" "")
          (Demo.attestation "c1" Demo.origin) (JString "new@x.com") Demo.world0)
     = Ok (SoftError "Missing providerAccountId from challenge cookie.")).
Proof.
  apply (@verifyRegistration_needs_registration_cookie _ _ Demo.collaborators
           Demo.options0 (Demo.challenge_cookie "c1" "")
           (Demo.attestation "c1" Demo.origin) (JString "new@x.com") Demo.world0
           Demo.cookie_c1); reflexivity.
Defined.

(** X5, on a new email: the if/else handler issues registration options,
    the client answers them with the cookie it was given, and the
    registration is verified for the generated user id. *)
Lemma issued_registration_verifies_witness :
  exists resp w1,
    Routes.passkeyOptions Demo.options0 [] None (Some "new@x.com") Demo.world0
      = (Ok resp, w1) /\
    verifyRegistration Demo.options0 (returned_cookies resp)
      (Demo.attestation "challenge-1" Demo.origin) (JString "new@x.com") w1
    = (Ok (Verified
             {| user := {| user_id := "new@x.com"; user_name := None;
                           user_email := "new@x.com"; user_emailVerified := None |};
                account := {| acc_userId := "new@x.com"; acc_type := "passkey";
                              acc_provider := "passkey";
                              acc_providerAccountId := "generated-0" |};
                authenticator :=
                  Some {| providerAccountId := "generated-0";
                          counter := 0;
                          credentialID := Demo.bufferFromBase64 "cred-N";
                          credentialBackedUp := false;
                          credentialDeviceType := "singleDevice";
                          credentialPublicKey := [x01; x02; x03];
                          transports := JArray [JString "usb"] |} |}),
       w1).
Proof.
  run_as E (Routes.passkeyOptions Demo.options0 [] None (Some "new@x.com") Demo.world0).
  do 2 eexists. split; [exact E|].
  eapply (@issued_registration_verifies _ _ Demo.collaborators
            Demo.options0 [] None (Some "new@x.com") Demo.world0 _ _ _
            {| cre_challenge := "challenge-1";
               cre_user := {| ue_id := "generated-0"; ue_name := "new@x.com";
                              ue_displayName := "new@x.com" |};
               cre_rest := JObject [("rpId", JString "example.com")] |}
            (Demo.attestation "challenge-1" Demo.origin) "new@x.com" _
            {| reg_counter := 0;
               reg_credentialID := Demo.bufferFromBase64 "cred-N";
               reg_credentialBackedUp := false;
               reg_credentialDeviceType := "singleDevice";
               reg_credentialPublicKey := [x01; x02; x03] |}
            _ _ (or_introl E)).
  - reflexivity.
  - apply demo_codec_reads_back. reflexivity.
  - discriminate.
  - eexists. eexists. split; reflexivity.
  - reflexivity.
  - reflexivity.
  - reflexivity.
  - reflexivity.
  - reflexivity.
Defined.

(** X6, on Alice's email: the switch-based handler issues authentication
    options, and with the cookie it set an assertion for the issued
    challenge signs Alice in, while one for another challenge is refused. *)
Lemma issued_authentication_verifies_witness :
  exists resp w1,
    Types.passkeyOptions Demo.options0 [] None (Some "exists@x.com") Demo.world0
      = (Ok resp, w1) /\
    fst (verifyAuthentication Demo.options0 (returned_cookies resp)
           (Demo.assertion "challenge-0" Demo.origin 6) Demo.world0)
      = Ok (Verified {| user := Demo.alice; account := Demo.alice_account;
                        authenticator := None |}) /\
    fst (verifyAuthentication Demo.options0 (returned_cookies resp)
           (Demo.assertion "c1" Demo.origin 6) Demo.world0)
      = Ok (SoftError "Failed to verify response.").
Proof.
  run_as E (Types.passkeyOptions Demo.options0 [] None (Some "exists@x.com") Demo.world0).
  do 2 eexists. split; [exact E|]. split.
  - refine (proj2 (@issued_authentication_verifies _ _ Demo.collaborators
                     Demo.options0 [] None (Some "exists@x.com")
                     Demo.world0 _ Demo.world0 _ _
                     (Demo.assertion "challenge-0" Demo.origin 6)
                     SpecAdapter.reference SpecAdapter.getAuthenticator
                     SpecAdapter.getUserByAccount
                     SpecAdapter.updateAuthenticatorCounter
                     "cred-C" (Demo.authenticator_C 5) (Demo.verified_with 6)
                     (or_intror E) eq_refl _ _ eq_refl eq_refl eq_refl)
                  eq_refl Demo.alice eq_refl).
    + apply demo_codec_reads_back. reflexivity.
    + apply demo_capable; reflexivity.
  - refine (proj1 (proj1 (@issued_authentication_verifies _ _ Demo.collaborators
                     Demo.options0 [] None (Some "exists@x.com")
                     Demo.world0 _ Demo.world0 _ _
                     (Demo.assertion "c1" Demo.origin 6)
                     SpecAdapter.reference SpecAdapter.getAuthenticator
                     SpecAdapter.getUserByAccount
                     SpecAdapter.updateAuthenticatorCounter
                     "cred-C" (Demo.authenticator_C 5)
                     {| auth_verified := false;
                        authenticationInfo := {| newCounter := 6 |} |}
                     (or_intror E) eq_refl _ _ eq_refl eq_refl eq_refl)
                  eq_refl)).
    + apply demo_codec_reads_back. reflexivity.
    + apply demo_capable; reflexivity.
Defined.

(** X8, on a database whose authenticators cannot be read: the error of
    [getAuthenticator] reaches the caller and storage is unchanged. *)
Lemma verifyAuthentication_rethrows_witness :
  fst (verifyAuthentication
         (Demo.options_with (Some Scenario.failing_lookup) Demo.default_config)
         (Demo.challenge_cookie "c1" "") (Demo.assertion "c1" Demo.origin 6)
         Demo.world0)
    = Throw (External "database unreachable") /\
  storage (snd (verifyAuthentication
                  (Demo.options_with (Some Scenario.failing_lookup) Demo.default_config)
                  (Demo.challenge_cookie "c1" "") (Demo.assertion "c1" Demo.origin 6)
                  Demo.world0))
    = storage Demo.world0.
Proof.
  refine (proj1 (proj2 (@verifyAuthentication_rethrows _ _ Demo.collaborators
                   (Demo.options_with (Some Scenario.failing_lookup)
                      Demo.default_config)
                   (Demo.challenge_cookie "c1" "") (Demo.assertion "c1" Demo.origin 6)
                   Demo.world0
                   Scenario.failing_lookup Scenario.unreachable
                   SpecAdapter.getUserByAccount
                   SpecAdapter.updateAuthenticatorCounter
                   (External "database unreachable") _))
            "cred-C" Demo.cookie_c1 eq_refl eq_refl eq_refl).
  apply demo_capable; reflexivity.
Defined.

(** X10, on an email nobody has: [getUserByEmail] is the only adapter call. *)
Lemma getUserAndAuthenticators_short_circuits_witness :
  getUserAndAuthenticators Demo.options0 (Some "ghost@x.com") Demo.world0
    = (Ok (None, None),
       {| storage := Demo.storage_with_counter 5; entropy := 0; logged := [];
          calls := [GetUserByEmail] |}).
Proof.
  refine (proj1 (proj2 (@getUserAndAuthenticators_short_circuits
                          _ _ Demo.options0 _ _ _ _
                          (Some "ghost@x.com") Demo.world0
                          demo_capable_of_options))
            "ghost@x.com" eq_refl _ eq_refl).
  discriminate.
Defined.

(** X11, on Alice, who has no name: the library is given her email as user
    name and as display name. *)
Lemma registrationOptions_names_witness :
  exists args w2,
    registrationOptions Demo.options0 "exists@x.com" Demo.world0
      = draw (generateRegistrationOptions args) w2 /\
    gr_userName args = "exists@x.com" /\
    gr_userDisplayName args = "exists@x.com".
Proof.
  run_as E (getUserAndAuthenticators Demo.options0 (Some "exists@x.com") Demo.world0).
  destruct (@registrationOptions_names _ _ Demo.collaborators
              Demo.options0 "exists@x.com" Demo.world0 _ _ _ E)
    as (args & w2 & H & Hn & Hd & _).
  exists args, w2. split; [exact H|]. split; [exact Hn | now rewrite Hd].
Defined.

(** X12, on a request without session and email: the response has one of
    the two shapes. *)
Lemma handlers_response_shape_witness :
  exists resp w1,
    Routes.passkeyOptions Demo.options0 [] None None Demo.world0 = (Ok resp, w1) /\
    response_shape resp.
Proof.
  run_as E (Routes.passkeyOptions Demo.options0 [] None None Demo.world0).
  do 2 eexists. split; [exact E|].
  exact (@handlers_response_shape _ _ Demo.collaborators
           Demo.options0 [] None None Demo.world0 _ _ (or_introl E)).
Defined.

(** X13, without an adapter: [doRegister] throws [MissingAdapter] and the
    world is unchanged. *)
Lemma no_adapter_no_issuance_witness :
  exists msg,
    Types.doRegister (Demo.options_with None Demo.default_config) "new@x.com"
      Demo.world0
    = (Throw (MissingAdapter msg), Demo.world0).
Proof.
  exact (proj1 (@no_adapter_no_issuance _ _ Demo.collaborators
                  (Demo.options_with None Demo.default_config) [] None None
                  "new@x.com" Demo.world0 eq_refl)).
Defined.

(** X14, on Alice signed in and asking to "authenticate": the switch-based
    handler refuses. *)
Lemma switch_handler_guards_witness :
  outcome (fst (Types.passkeyOptions Demo.options0 Scenario.alice_session
                  (Some "authenticate") None Demo.world0))
    = DidFail "Invalid action/email combination".
Proof.
  refine (proj1 (proj2 (proj2 (@switch_handler_guards _ _ Demo.collaborators
            Demo.options0 Scenario.alice_session (Some "authenticate") None
            Demo.world0 Demo.world0 Demo.world0
            (Some {| session_user :=
                       Some {| session_email := Some "exists@x.com" |} |})
            None eq_refl eq_refl))) eq_refl _).
  left. discriminate.
Defined.

(** X15, on an adapter without [getUserByEmail]: the switch-based handler
    throws a TypeError. *)
Lemma handler_lookup_unguarded_witness :
  exists msg,
    Types.passkeyOptions
      (Demo.options_with (Some Scenario.no_email_lookup) Demo.default_config)
      [] None (Some "exists@x.com") Demo.world0
    = (Throw (TypeError msg), Demo.world0).
Proof.
  exact (proj1 (@handler_lookup_unguarded _ _ Demo.collaborators
                  (Demo.options_with (Some Scenario.no_email_lookup)
                     Demo.default_config)
                  Scenario.no_email_lookup [] None (Some "exists@x.com")
                  Demo.world0 Demo.world0 None
                  eq_refl eq_refl eq_refl eq_refl)).
Defined.

(** X16, on Alice's email sent from the form: both handlers return the
    same. *)
Lemma handlers_agree_on_form_request_witness :
  Routes.passkeyOptions Demo.options0 [] None (Some "exists@x.com") Demo.world0
    = Types.passkeyOptions Demo.options0 [] None (Some "exists@x.com") Demo.world0.
Proof.
  exact (@handlers_agree_on_form_request _ _ Demo.collaborators
           Demo.options0 [] (Some "exists@x.com") Demo.world0 Demo.world0 None
           eq_refl eq_refl eq_refl).
Defined.

(** C1 (amended), on four requests.  An anonymous caller who gives Alice's
    email and no action gets authentication options, the same from both
    handlers.  An anonymous caller who asks to "authenticate" with an email
    nobody has gets authentication options from both.  An anonymous caller
    who asks to "register" Alice's email, and Alice asking to
    "authenticate" while signed in, are refused by the switch-based
    handler. *)
Lemma passkeyOptions_resolution_witness :
  (Routes.passkeyOptions Demo.options0 [] None (Some "exists@x.com") Demo.world0
     = Types.passkeyOptions Demo.options0 [] None (Some "exists@x.com") Demo.world0 /\
   outcome (fst (Types.passkeyOptions Demo.options0 [] None (Some "exists@x.com")
                   Demo.world0)) = DidAuthenticate) /\
  (outcome (fst (Routes.passkeyOptions Demo.options0 [] (Some "authenticate")
                   (Some "ghost@x.com") Demo.world0)) = DidAuthenticate /\
   outcome (fst (Types.passkeyOptions Demo.options0 [] (Some "authenticate")
                   (Some "ghost@x.com") Demo.world0)) = DidAuthenticate) /\
  fst (Types.passkeyOptions Demo.options0 [] (Some "register") (Some "exists@x.com")
         Demo.world0)
    = Ok (bad_request "Invalid action/email combination") /\
  fst (Types.passkeyOptions Demo.options0 Scenario.alice_session (Some "authenticate")
         None Demo.world0)
    = Ok (bad_request "Invalid action/email combination").
Proof.
  assert (Hanon : session_user_email (@None Session) <> Some "") by discriminate.
  assert (Halice : session_user_email
                     (Some {| session_user :=
                                Some {| session_email := Some "exists@x.com" |} |})
                   <> Some "") by discriminate.
  split; [|split; [|split]].
  - pose proof (@passkeyOptions_resolution _ _ Demo.collaborators
                  Demo.options0 [] None (Some "exists@x.com") Demo.world0 Demo.world0
                  None eq_refl Hanon) as H.
    cbv zeta in H. destruct H as (H & _).
    destruct (H eq_refl) as (_ & H2 & _).
    destruct (H2 eq_refl eq_refl (Some Demo.alice)
                {| storage := Demo.storage_with_counter 5; entropy := 0; logged := [];
                   calls := [GetUserByEmail] |} eq_refl) as (Heq & Hty).
    split; [exact Heq|]. rewrite Hty. reflexivity.
  - pose proof (@passkeyOptions_resolution _ _ Demo.collaborators
                  Demo.options0 [] (Some "authenticate") (Some "ghost@x.com")
                  Demo.world0 Demo.world0 None eq_refl Hanon) as H.
    cbv zeta in H. destruct H as (_ & H & _).
    destruct (H eq_refl) as (H1 & _).
    destruct (H1 eq_refl) as (Hro & Hty).
    split; [rewrite Hro; reflexivity|].
    rewrite (Hty None
               {| storage := Demo.storage_with_counter 5; entropy := 0; logged := [];
                  calls := [GetUserByEmail] |} eq_refl).
    reflexivity.
  - pose proof (@passkeyOptions_resolution _ _ Demo.collaborators
                  Demo.options0 [] (Some "register") (Some "exists@x.com")
                  Demo.world0 Demo.world0 None eq_refl Hanon) as H.
    cbv zeta in H. destruct H as (_ & _ & H & _).
    destruct (H eq_refl) as (_ & H2 & _).
    pose proof (H2 eq_refl eq_refl (Some Demo.alice)
                  {| storage := Demo.storage_with_counter 5; entropy := 0; logged := [];
                     calls := [GetUserByEmail] |} eq_refl) as Hty.
    simpl in Hty. rewrite Hty. reflexivity.
  - pose proof (@passkeyOptions_resolution _ _ Demo.collaborators
                  Demo.options0 Scenario.alice_session (Some "authenticate") None
                  Demo.world0 Demo.world0
                  (Some {| session_user :=
                             Some {| session_email := Some "exists@x.com" |} |})
                  eq_refl Halice) as H.
    cbv zeta in H. destruct H as (_ & H & _).
    destruct (H eq_refl) as (_ & H2).
    rewrite (H2 eq_refl None Demo.world0 eq_refl). reflexivity.
Defined.

End FurtherExamples.
